(** * d2q9-bgk: a shallow embedding of the lattice Boltzmann kernels

    The C program keeps its grids in flat heap arrays and walks them with
    nested [for] loops.  The embedding keeps that shape: arrays are lists of
    slots, every access goes through a bounds- and initialisation-checked
    [load] or [store], and the functions of the program are written in a
    small state-and-error monad over the program's heap.

    Single-precision arithmetic is read as exact arithmetic over [R]; a
    division whose divisor is zero has no real value and is the error
    [DivByZero] (IEEE arithmetic would produce NaN or an infinity there).
    The [int] variables of the program are unbounded integers here: the
    index arithmetic of the grids considered does not overflow. *)

From Stdlib Require Import ZArith Reals Lra Lia List String.
From stdpp Require Import base list.

Local Open Scope Z_scope.

(** ** Errors and results *)

Inductive error : Type :=
| OutOfBounds              (* access outside the allocated block *)
| Uninitialised            (* read of a slot no store has written *)
| DivByZero                (* quotient with a zero divisor *)
| Die (message : string).  (* die(): message on stderr, exit(EXIT_FAILURE) *)

Inductive res (A : Type) : Type :=
| Ok (a : A)
| Err (e : error).
Arguments Ok {A} a.
Arguments Err {A} e.

(** ** Heap blocks

    A block obtained from malloc is a list of slots; a slot is [None] until
    the first store to it.  A [t_speed] is NSPEEDS consecutive floats, so
    [cells[idx].speeds[k]] is the slot [idx * NSPEEDS + k] of the block. *)

Definition NSPEEDS : Z := 9.

Abbreviation block A := (list (option A)).

Definition load {A} (a : block A) (i : Z) : res A :=
  if i <? 0 then Err OutOfBounds
  else match a !! Z.to_nat i with
       | None => Err OutOfBounds
       | Some None => Err Uninitialised
       | Some (Some v) => Ok v
       end.

Definition store {A} (a : block A) (i : Z) (v : A) : res (block A) :=
  if (i <? 0) || (Z.of_nat (length a) <=? i) then Err OutOfBounds
  else Ok (<[Z.to_nat i := Some v]> a).

(** malloc(sizeof(T) * n) with [n] an [int] expression and [width] the
    number of slots of a [T]: a negative [n] converts to an enormous [size_t]
    and the allocation fails (NULL); otherwise the block holds [n * width]
    unwritten slots. *)
Definition malloc {A} (width n : Z) : option (block A) :=
  if n <? 0 then None else Some (replicate (Z.to_nat (n * width)) None).

Definition at_speed (idx k : Z) : Z := idx * NSPEEDS + k.

(** ** Parameters and program state *)

Record t_param : Type := mk_param {
  nx : Z;
  ny : Z;
  maxIters : Z;
  reynolds_dim : Z;
  density : R;
  accel : R;
  omega : R
}.

(** The substeps a run can perform.  [EvHaloExchange] is the exchange of the
    ghost rows with the neighbouring ranks. *)
Inductive event : Type :=
| EvAccelerate
| EvHaloExchange
| EvPropagate
| EvRebound
| EvCollision
| EvAvVelocity.

Record state : Type := mk_state {
  cells : block R;
  tmp_cells : block R;
  obstacles_total : block Z;
  obstacles : block Z;
  av_vels : block R;
  send_buff_up : block R;
  send_buff_dn : block R;
  recv_buff_up : block R;
  recv_buff_dn : block R;
  trace : list event
}.

(** All pointers NULL, as in [main] before [initialise]. *)
Definition null_state : state :=
  mk_state [] [] [] [] [] [] [] [] [] [].

Definition set_cells (c : block R) (s : state) : state :=
  mk_state c (tmp_cells s) (obstacles_total s) (obstacles s) (av_vels s)
           (send_buff_up s) (send_buff_dn s) (recv_buff_up s) (recv_buff_dn s)
           (trace s).
Definition set_tmp_cells (c : block R) (s : state) : state :=
  mk_state (cells s) c (obstacles_total s) (obstacles s) (av_vels s)
           (send_buff_up s) (send_buff_dn s) (recv_buff_up s) (recv_buff_dn s)
           (trace s).
Definition set_obstacles_total (c : block Z) (s : state) : state :=
  mk_state (cells s) (tmp_cells s) c (obstacles s) (av_vels s)
           (send_buff_up s) (send_buff_dn s) (recv_buff_up s) (recv_buff_dn s)
           (trace s).
Definition set_obstacles (c : block Z) (s : state) : state :=
  mk_state (cells s) (tmp_cells s) (obstacles_total s) c (av_vels s)
           (send_buff_up s) (send_buff_dn s) (recv_buff_up s) (recv_buff_dn s)
           (trace s).
Definition set_av_vels (c : block R) (s : state) : state :=
  mk_state (cells s) (tmp_cells s) (obstacles_total s) (obstacles s) c
           (send_buff_up s) (send_buff_dn s) (recv_buff_up s) (recv_buff_dn s)
           (trace s).
Definition set_buffers (su sd ru rd : block R) (s : state) : state :=
  mk_state (cells s) (tmp_cells s) (obstacles_total s) (obstacles s) (av_vels s)
           su sd ru rd (trace s).
Definition set_trace (t : list event) (s : state) : state :=
  mk_state (cells s) (tmp_cells s) (obstacles_total s) (obstacles s) (av_vels s)
           (send_buff_up s) (send_buff_dn s) (recv_buff_up s) (recv_buff_dn s)
           t.

(** ** The monad: state threaded through, errors stop the run and keep the
    state reached. *)

Definition M (A : Type) : Type := state -> res A * state.

Definition ret {A} (a : A) : M A := fun s => (Ok a, s).
Definition fail {A} (e : error) : M A := fun s => (Err e, s).
Definition bind {A B} (m : M A) (f : A -> M B) : M B :=
  fun s => match m s with
           | (Ok a, s') => f a s'
           | (Err e, s') => (Err e, s')
           end.

Declare Scope m_scope.
Delimit Scope m_scope with m.
Notation "x <- c1 ;; c2" := (bind c1 (fun x => c2))
  (at level 100, c1 at next level, right associativity) : m_scope.
Notation "c1 ;; c2" := (bind c1 (fun _ => c2))
  (at level 100, right associativity) : m_scope.
Local Open Scope m_scope.

Definition die {A} (message : string) : M A := fail (Die message).

Definition emit (e : event) : M unit :=
  fun s => (Ok tt, set_trace (trace s ++ [e]) s).

(** [for (int i = lo; i < hi; i++)] carrying the local variables the body
    updates in [acc]. *)
Fixpoint for_from {A} (i : Z) (n : nat) (body : Z -> A -> M A) (acc : A) : M A :=
  match n with
  | O => ret acc
  | S n' => acc' <- body i acc ;; for_from (i + 1) n' body acc'
  end.

Definition for_acc {A} (lo hi : Z) (body : Z -> A -> M A) (acc : A) : M A :=
  for_from lo (Z.to_nat (hi - lo)) body acc.

Definition for_range (lo hi : Z) (body : Z -> M unit) : M unit :=
  for_acc lo hi (fun i _ => body i) tt.

(** Accessors for the arrays of the program. *)

Definition rd_cells (idx k : Z) : M R :=
  fun s => (load (cells s) (at_speed idx k), s).
Definition rd_tmp_cells (idx k : Z) : M R :=
  fun s => (load (tmp_cells s) (at_speed idx k), s).
Definition rd_obstacles (idx : Z) : M Z :=
  fun s => (load (obstacles s) idx, s).
Definition rd_obstacles_total (idx : Z) : M Z :=
  fun s => (load (obstacles_total s) idx, s).
Definition rd_av_vels (idx : Z) : M R :=
  fun s => (load (av_vels s) idx, s).

Definition wr_cells (idx k : Z) (v : R) : M unit :=
  fun s => match store (cells s) (at_speed idx k) v with
           | Ok c => (Ok tt, set_cells c s)
           | Err e => (Err e, s)
           end.
Definition wr_tmp_cells (idx k : Z) (v : R) : M unit :=
  fun s => match store (tmp_cells s) (at_speed idx k) v with
           | Ok c => (Ok tt, set_tmp_cells c s)
           | Err e => (Err e, s)
           end.
Definition wr_obstacles (idx : Z) (v : Z) : M unit :=
  fun s => match store (obstacles s) idx v with
           | Ok c => (Ok tt, set_obstacles c s)
           | Err e => (Err e, s)
           end.
Definition wr_obstacles_total (idx : Z) (v : Z) : M unit :=
  fun s => match store (obstacles_total s) idx v with
           | Ok c => (Ok tt, set_obstacles_total c s)
           | Err e => (Err e, s)
           end.
Definition wr_av_vels (idx : Z) (v : R) : M unit :=
  fun s => match store (av_vels s) idx v with
           | Ok c => (Ok tt, set_av_vels c s)
           | Err e => (Err e, s)
           end.

(** Real division, defined only for a nonzero divisor. *)
Definition rdiv (x y : R) : M R :=
  if Req_dec_T y 0 then fail DivByZero else ret (x / y)%R.

(** ** Input files

    A parameter file is what the seven fscanf calls find in it; an obstacle
    file is the sequence of results of its fscanf calls up to EOF.  [None]
    for a file is fopen returning NULL. *)

Inductive scanned (A : Type) : Type :=
| Scanned (v : A)    (* fscanf converted one item *)
| ScanFailed.        (* fscanf returned something other than 1 *)
Arguments Scanned {A} v.
Arguments ScanFailed {A}.

Record param_file : Type := mk_param_file {
  f_nx : scanned Z;
  f_ny : scanned Z;
  f_maxIters : scanned Z;
  f_reynolds_dim : scanned Z;
  f_density : scanned R;
  f_accel : scanned R;
  f_omega : scanned R
}.

Inductive obstacle_line : Type :=
| Triple (xx yy blocked : Z)   (* fscanf returned 3 *)
| Malformed.                   (* fscanf returned 0, 1 or 2 *)

Definition scan1 {A} (f : scanned A) (message : string) : M A :=
  match f with
  | Scanned v => ret v
  | ScanFailed => die message
  end.

Definition load_params (paramfile : option param_file) : M t_param :=
  match paramfile with
  | None => die "could not open input parameter file"
  | Some fp =>
      p_nx <- scan1 (f_nx fp) "could not read param file: nx" ;;
      p_ny <- scan1 (f_ny fp) "could not read param file: ny" ;;
      p_maxIters <- scan1 (f_maxIters fp) "could not read param file: maxIters" ;;
      p_reynolds_dim <- scan1 (f_reynolds_dim fp) "could not read param file: reynolds_dim" ;;
      p_density <- scan1 (f_density fp) "could not read param file: density" ;;
      p_accel <- scan1 (f_accel fp) "could not read param file: accel" ;;
      p_omega <- scan1 (f_omega fp) "could not read param file: omega" ;;
      ret (mk_param p_nx p_ny p_maxIters p_reynolds_dim p_density p_accel p_omega)
  end.

Definition alloc_or_die {A} (width n : Z) (message : string) : M (block A) :=
  match malloc width n with
  | Some b => ret b
  | None => die message
  end.

(** An unchecked malloc: the pointer stays NULL when it fails. *)
Definition alloc_unchecked {A} (width n : Z) : block A :=
  match malloc width n with
  | Some b => b
  | None => []
  end.

Definition put (f : state -> state) : M unit := fun s => (Ok tt, f s).

Fixpoint read_obstacles (params : t_param) (lines : list obstacle_line) : M unit :=
  match lines with
  | [] => ret tt
  | Malformed :: _ => die "expected 3 values per line in obstacle file"
  | Triple xx yy blocked :: rest =>
      if (xx <? 0) || (nx params - 1 <? xx) then die "obstacle x-coord out of range"
      else if (yy <? 0) || (ny params - 1 <? yy) then die "obstacle y-coord out of range"
      else if negb (blocked =? 1) then die "obstacle blocked value should be 1"
      else wr_obstacles_total (xx + yy * nx params) blocked ;;
           read_obstacles params rest
  end.

(** [initialise], phase by phase. *)

(** The allocations. *)
Definition allocate (params : t_param) (local_ny : Z) : M unit :=
  c <- alloc_or_die NSPEEDS ((local_ny + 2) * nx params)
         "cannot allocate memory for cells" ;;
  put (set_cells c) ;;
  t <- alloc_or_die NSPEEDS ((local_ny + 2) * nx params)
         "cannot allocate memory for tmp_cells" ;;
  put (set_tmp_cells t) ;;
  ot <- alloc_or_die 1 (ny params * nx params)
          "cannot allocate column memory for obstacles" ;;
  put (set_obstacles_total ot) ;;
  o <- alloc_or_die 1 (local_ny * nx params)
         "cannot allocate column memory for obstacles" ;;
  put (set_obstacles o) ;;
  av <- alloc_or_die 1 (maxIters params) "Cannot allocate memory for av_vels" ;;
  put (set_av_vels av) ;;
  put (set_buffers (alloc_unchecked 1 (nx params)) (alloc_unchecked 1 (nx params))
                   (alloc_unchecked 1 (nx params)) (alloc_unchecked 1 (nx params))).

Definition init_cell (params : t_param) (w0 w1 w2 : R) (ii jj : Z) : M unit :=
  (* centre *)
  wr_cells (ii + jj * nx params) 0 w0 ;;
  (* axis directions *)
  wr_cells (ii + jj * nx params) 1 w1 ;;
  wr_cells (ii + jj * nx params) 2 w1 ;;
  wr_cells (ii + jj * nx params) 3 w1 ;;
  wr_cells (ii + jj * nx params) 4 w1 ;;
  (* diagonals *)
  wr_cells (ii + jj * nx params) 5 w2 ;;
  wr_cells (ii + jj * nx params) 6 w2 ;;
  wr_cells (ii + jj * nx params) 7 w2 ;;
  wr_cells (ii + jj * nx params) 8 w2.

(** Initialise densities: rows 1 .. local_ny of the primary grid. *)
Definition init_densities (params : t_param) (local_ny : Z) : M unit :=
  let w0 := (density params * 4 / 9)%R in
  let w1 := (density params / 9)%R in
  let w2 := (density params / 36)%R in
  for_range 1 (local_ny + 1) (fun jj =>
    for_range 0 (nx params) (fun ii => init_cell params w0 w1 w2 ii jj)).

(** First set all cells in total obstacle array to zero. *)
Definition zero_obstacles_total (params : t_param) : M unit :=
  for_range 0 (ny params) (fun jj =>
    for_range 0 (nx params) (fun ii =>
      wr_obstacles_total (ii + jj * nx params) 0)).

(** Set the local obstacle array from the total obstacle array. *)
Definition copy_local_obstacles (params : t_param) (local_ny : Z) : M unit :=
  for_range 0 local_ny (fun jj =>
    for_range 0 (nx params) (fun ii =>
      v <- rd_obstacles_total (ii + jj * nx params) ;;
      wr_obstacles (ii + jj * nx params) v)).

Definition initialise (paramfile : option param_file)
    (obstaclefile : option (list obstacle_line)) (size : Z) : M t_param :=
  params <- load_params paramfile ;;
  (* split rows by number of processors *)
  let local_ny := Z.quot (ny params) size in
  allocate params local_ny ;;
  init_densities params local_ny ;;
  zero_obstacles_total params ;;
  match obstaclefile with
  | None => die "could not open input obstacles file"
  | Some lines =>
      read_obstacles params lines ;;
      copy_local_obstacles params local_ny ;;
      ret params
  end.

(** ** The kernels *)

Definition accelerate_cell (params : t_param) (w1 w2 : R) (ii jj : Z) : M unit :=
  o <- rd_obstacles (ii + jj * nx params) ;;
  (* if the cell is not occupied and we don't send a negative density *)
  if negb (o =? 0) then ret tt else
  s3 <- rd_cells (ii + jj * nx params) 3 ;;
  if Rgt_dec (s3 - w1) 0 then
    s6 <- rd_cells (ii + jj * nx params) 6 ;;
    if Rgt_dec (s6 - w2) 0 then
      s7 <- rd_cells (ii + jj * nx params) 7 ;;
      if Rgt_dec (s7 - w2) 0 then
        (* increase 'east-side' densities *)
        v1 <- rd_cells (ii + jj * nx params) 1 ;;
        wr_cells (ii + jj * nx params) 1 (v1 + w1)%R ;;
        v5 <- rd_cells (ii + jj * nx params) 5 ;;
        wr_cells (ii + jj * nx params) 5 (v5 + w2)%R ;;
        v8 <- rd_cells (ii + jj * nx params) 8 ;;
        wr_cells (ii + jj * nx params) 8 (v8 + w2)%R ;;
        (* decrease 'west-side' densities *)
        v3 <- rd_cells (ii + jj * nx params) 3 ;;
        wr_cells (ii + jj * nx params) 3 (v3 - w1)%R ;;
        v6 <- rd_cells (ii + jj * nx params) 6 ;;
        wr_cells (ii + jj * nx params) 6 (v6 - w2)%R ;;
        v7 <- rd_cells (ii + jj * nx params) 7 ;;
        wr_cells (ii + jj * nx params) 7 (v7 - w2)%R
      else ret tt
    else ret tt
  else ret tt.

Definition accelerate_flow (params : t_param) : M unit :=
  emit EvAccelerate ;;
  (* compute weighting factors *)
  let w1 := (density params * accel params / 9)%R in
  let w2 := (density params * accel params / 36)%R in
  (* modify the 2nd row of the grid *)
  let jj := ny params - 2 in
  for_range 0 (nx params) (fun ii => accelerate_cell params w1 w2 ii jj).

Definition propagate_cell (params : t_param) (ii jj : Z) : M unit :=
  (* indices of axis-direction neighbours, with wrap around *)
  let y_n := Z.rem (jj + 1) (ny params) in
  let x_e := Z.rem (ii + 1) (nx params) in
  let y_s := if jj =? 0 then jj + ny params - 1 else jj - 1 in
  let x_w := if ii =? 0 then ii + nx params - 1 else ii - 1 in
  v0 <- rd_cells (ii + jj * nx params) 0 ;;
  wr_tmp_cells (ii + jj * nx params) 0 v0 ;;
  v1 <- rd_cells (x_w + jj * nx params) 1 ;;
  wr_tmp_cells (ii + jj * nx params) 1 v1 ;;
  v2 <- rd_cells (ii + y_s * nx params) 2 ;;
  wr_tmp_cells (ii + jj * nx params) 2 v2 ;;
  v3 <- rd_cells (x_e + jj * nx params) 3 ;;
  wr_tmp_cells (ii + jj * nx params) 3 v3 ;;
  v4 <- rd_cells (ii + y_n * nx params) 4 ;;
  wr_tmp_cells (ii + jj * nx params) 4 v4 ;;
  v5 <- rd_cells (x_w + y_s * nx params) 5 ;;
  wr_tmp_cells (ii + jj * nx params) 5 v5 ;;
  v6 <- rd_cells (x_e + y_s * nx params) 6 ;;
  wr_tmp_cells (ii + jj * nx params) 6 v6 ;;
  v7 <- rd_cells (x_e + y_n * nx params) 7 ;;
  wr_tmp_cells (ii + jj * nx params) 7 v7 ;;
  v8 <- rd_cells (x_w + y_n * nx params) 8 ;;
  wr_tmp_cells (ii + jj * nx params) 8 v8.

Definition propagate (params : t_param) : M unit :=
  emit EvPropagate ;;
  (* loop over _all_ cells *)
  for_range 0 (ny params) (fun jj =>
    for_range 0 (nx params) (fun ii => propagate_cell params ii jj)).

Definition rebound_cell (params : t_param) (ii jj : Z) : M unit :=
  o <- rd_obstacles (jj * nx params + ii) ;;
  if negb (o =? 0) then
    v3 <- rd_tmp_cells (ii + jj * nx params) 3 ;;
    wr_cells (ii + jj * nx params) 1 v3 ;;
    v4 <- rd_tmp_cells (ii + jj * nx params) 4 ;;
    wr_cells (ii + jj * nx params) 2 v4 ;;
    v1 <- rd_tmp_cells (ii + jj * nx params) 1 ;;
    wr_cells (ii + jj * nx params) 3 v1 ;;
    v2 <- rd_tmp_cells (ii + jj * nx params) 2 ;;
    wr_cells (ii + jj * nx params) 4 v2 ;;
    v7 <- rd_tmp_cells (ii + jj * nx params) 7 ;;
    wr_cells (ii + jj * nx params) 5 v7 ;;
    v8 <- rd_tmp_cells (ii + jj * nx params) 8 ;;
    wr_cells (ii + jj * nx params) 6 v8 ;;
    v5 <- rd_tmp_cells (ii + jj * nx params) 5 ;;
    wr_cells (ii + jj * nx params) 7 v5 ;;
    v6 <- rd_tmp_cells (ii + jj * nx params) 6 ;;
    wr_cells (ii + jj * nx params) 8 v6
  else ret tt.

Definition rebound (params : t_param) : M unit :=
  emit EvRebound ;;
  for_range 0 (ny params) (fun jj =>
    for_range 0 (nx params) (fun ii => rebound_cell params ii jj)).

(** Constants of [collision]. *)
Definition c_sq : R := (1 / 3)%R.  (* square of speed of sound *)
Definition w0 : R := (4 / 9)%R.
Definition w1 : R := (1 / 9)%R.
Definition w2 : R := (1 / 36)%R.

(** The local array [u] of directional velocity components. *)
Definition u_dir (u_x u_y : R) (k : Z) : R :=
  match k with
  | 1 => u_x          (* east *)
  | 2 => u_y          (* north *)
  | 3 => - u_x        (* west *)
  | 4 => - u_y        (* south *)
  | 5 => u_x + u_y    (* north-east *)
  | 6 => - u_x + u_y  (* north-west *)
  | 7 => - u_x - u_y  (* south-west *)
  | 8 => u_x - u_y    (* south-east *)
  | _ => 0
  end%R.

(** The local array [d_equ] of equilibrium densities. *)
Definition d_equ (local_density u_x u_y : R) (k : Z) : R :=
  let u_sq := (u_x * u_x + u_y * u_y)%R in
  let u := u_dir u_x u_y in
  match k with
  | 0 => w0 * local_density * (1 - u_sq / (2 * c_sq))
  | 1 => w1 * local_density * (1 + u 1%Z / c_sq
                                + (u 1%Z * u 1%Z) / (2 * c_sq * c_sq)
                                - u_sq / (2 * c_sq))
  | 2 => w1 * local_density * (1 + u 2%Z / c_sq
                                + (u 2%Z * u 2%Z) / (2 * c_sq * c_sq)
                                - u_sq / (2 * c_sq))
  | 3 => w1 * local_density * (1 + u 3%Z / c_sq
                                + (u 3%Z * u 3%Z) / (2 * c_sq * c_sq)
                                - u_sq / (2 * c_sq))
  | 4 => w1 * local_density * (1 + u 4%Z / c_sq
                                + (u 4%Z * u 4%Z) / (2 * c_sq * c_sq)
                                - u_sq / (2 * c_sq))
  | 5 => w2 * local_density * (1 + u 5%Z / c_sq
                                + (u 5%Z * u 5%Z) / (2 * c_sq * c_sq)
                                - u_sq / (2 * c_sq))
  | 6 => w2 * local_density * (1 + u 6%Z / c_sq
                                + (u 6%Z * u 6%Z) / (2 * c_sq * c_sq)
                                - u_sq / (2 * c_sq))
  | 7 => w2 * local_density * (1 + u 7%Z / c_sq
                                + (u 7%Z * u 7%Z) / (2 * c_sq * c_sq)
                                - u_sq / (2 * c_sq))
  | 8 => w2 * local_density * (1 + u 8%Z / c_sq
                                + (u 8%Z * u 8%Z) / (2 * c_sq * c_sq)
                                - u_sq / (2 * c_sq))
  | _ => 0
  end%R.

(** Density and velocity of one cell, read through [rd] (the scratch grid in
    [collision], the primary grid in [av_velocity] and [write_values]). *)
Definition cell_density (rd : Z -> Z -> M R) (idx : Z) : M R :=
  for_acc 0 NSPEEDS (fun kk local_density =>
    v <- rd idx kk ;; ret (local_density + v)%R) 0%R.

Definition cell_u_x (rd : Z -> Z -> M R) (idx : Z) (local_density : R) : M R :=
  s1 <- rd idx 1 ;; s5 <- rd idx 5 ;; s8 <- rd idx 8 ;;
  s3 <- rd idx 3 ;; s6 <- rd idx 6 ;; s7 <- rd idx 7 ;;
  rdiv (s1 + s5 + s8 - (s3 + s6 + s7))%R local_density.

Definition cell_u_y (rd : Z -> Z -> M R) (idx : Z) (local_density : R) : M R :=
  s2 <- rd idx 2 ;; s5 <- rd idx 5 ;; s6 <- rd idx 6 ;;
  s4 <- rd idx 4 ;; s7 <- rd idx 7 ;; s8 <- rd idx 8 ;;
  rdiv (s2 + s5 + s6 - (s4 + s7 + s8))%R local_density.

Definition collision_cell (params : t_param) (ii jj : Z) : M unit :=
  o <- rd_obstacles (ii + jj * nx params) ;;
  (* don't consider occupied cells *)
  if negb (o =? 0) then ret tt else
  local_density <- cell_density rd_tmp_cells (ii + jj * nx params) ;;
  u_x <- cell_u_x rd_tmp_cells (ii + jj * nx params) local_density ;;
  u_y <- cell_u_y rd_tmp_cells (ii + jj * nx params) local_density ;;
  (* relaxation step *)
  for_range 0 NSPEEDS (fun kk =>
    t <- rd_tmp_cells (ii + jj * nx params) kk ;;
    t' <- rd_tmp_cells (ii + jj * nx params) kk ;;
    wr_cells (ii + jj * nx params) kk
      (t + omega params * (d_equ local_density u_x u_y kk - t'))%R).

Definition collision (params : t_param) : M unit :=
  emit EvCollision ;;
  for_range 0 (ny params) (fun jj =>
    for_range 0 (nx params) (fun ii => collision_cell params ii jj)).

Definition timestep (params : t_param) : M unit :=
  accelerate_flow params ;;
  propagate params ;;
  rebound params ;;
  collision params.

Definition av_velocity_cell (params : t_param) (ii jj : Z) (acc : R * Z) : M (R * Z) :=
  o <- rd_obstacles (ii + jj * nx params) ;;
  (* ignore occupied cells *)
  if negb (o =? 0) then ret acc else
  local_density <- cell_density rd_cells (ii + jj * nx params) ;;
  u_x <- cell_u_x rd_cells (ii + jj * nx params) local_density ;;
  u_y <- cell_u_y rd_cells (ii + jj * nx params) local_density ;;
  (* accumulate the norm of x- and y- velocity components,
     increase counter of inspected cells *)
  ret ((fst acc + sqrt (u_x * u_x + u_y * u_y))%R, snd acc + 1).

(** The two loops of [av_velocity]: the accumulated velocity magnitudes
    [tot_u] and the number [tot_cells] of cells used. *)
Definition av_velocity_sums (params : t_param) : M (R * Z) :=
  for_acc 0 (ny params) (fun jj acc =>
    for_acc 0 (nx params) (fun ii acc => av_velocity_cell params ii jj acc) acc)
    (0%R, 0).

Definition av_velocity (params : t_param) : M R :=
  emit EvAvVelocity ;;
  sums <- av_velocity_sums params ;;
  rdiv (fst sums) (IZR (snd sums)).

Definition total_density (params : t_param) : M R :=
  for_acc 0 (ny params) (fun jj total =>
    for_acc 0 (nx params) (fun ii total =>
      for_acc 0 NSPEEDS (fun kk total =>
        v <- rd_cells (ii + jj * nx params) kk ;; ret (total + v)%R) total) total)
    0%R.

Definition calc_reynolds (params : t_param) : M R :=
  q <- rdiv 2 (omega params) ;;
  let viscosity := (1 / 6 * (q - 1))%R in
  av <- av_velocity params ;;
  rdiv (av * IZR (reynolds_dim params))%R viscosity.

(** One line of final_state.dat, field by field. *)
Record state_line : Type := mk_line {
  l_ii : Z;
  l_jj : Z;
  l_u_x : R;
  l_u_y : R;
  l_u : R;
  l_pressure : R;
  l_obstacle : Z
}.

Definition write_final_state_cell (params : t_param) (ii jj : Z)
    (out : list state_line) : M (list state_line) :=
  o <- rd_obstacles (ii + jj * nx params) ;;
  fields <-
    (if negb (o =? 0) then
       (* an occupied cell *)
       ret (0, 0, 0, density params * c_sq)%R
     else
       local_density <- cell_density rd_cells (ii + jj * nx params) ;;
       u_x <- cell_u_x rd_cells (ii + jj * nx params) local_density ;;
       u_y <- cell_u_y rd_cells (ii + jj * nx params) local_density ;;
       ret (u_x, u_y, sqrt (u_x * u_x + u_y * u_y), local_density * c_sq)%R) ;;
  (* write to file *)
  flag <- rd_obstacles (ii * nx params + jj) ;;
  ret (out ++ [mk_line ii jj (fst (fst (fst fields))) (snd (fst (fst fields)))
                       (snd (fst fields)) (snd fields) flag]).

Definition write_final_state (params : t_param) : M (list state_line) :=
  for_acc 0 (ny params) (fun jj out =>
    for_acc 0 (nx params) (fun ii out => write_final_state_cell params ii jj out) out)
    [].

Definition write_av_vels (params : t_param) : M (list (Z * R)) :=
  for_acc 0 (maxIters params) (fun ii out =>
    v <- rd_av_vels ii ;; ret (out ++ [(ii, v)])) [].

(** [writable] is whether fopen succeeds on the two output files. *)
Definition write_values (params : t_param) (writable : bool)
  : M (list state_line * list (Z * R)) :=
  if negb writable then die "could not open file output file" else
  final_state <- write_final_state params ;;
  avs <- write_av_vels params ;;
  ret (final_state, avs).

(** The main loop of [main].  The DEBUG_state_timestep block of iteration 0
    only prints and is left out. *)
Definition main_loop (params : t_param) : M unit :=
  for_range 0 (maxIters params) (fun tt =>
    timestep params ;;
    av <- av_velocity params ;;
    wr_av_vels tt av).

(** [main] from [initialise] to [write_values], for one process among [size]. *)
Definition run (paramfile : option param_file)
    (obstaclefile : option (list obstacle_line)) (size : Z) (writable : bool)
  : M (R * (list state_line * list (Z * R))) :=
  params <- initialise paramfile obstaclefile size ;;
  main_loop params ;;
  re <- calc_reynolds params ;;
  files <- write_values params writable ;;
  ret (re, files).

(** ** The rest of [main] *)

(** The ranks above and below [rank] among [size] processes, with wrap
    around ([up] and [dn] in [main]). *)
Definition MASTER : Z := 0.

Definition rank_up (rank size : Z) : Z :=
  if rank =? MASTER then rank + size - 1 else rank - 1.

Definition rank_dn (rank size : Z) : Z := Z.rem (rank + 1) size.




(** ** Definitions used to state the properties *)

(** Neighbour coordinates on the periodic grid. *)
Definition west (p : t_param) (i : Z) : Z := (i - 1) mod nx p.
Definition east (p : t_param) (i : Z) : Z := (i + 1) mod nx p.
Definition south (p : t_param) (j : Z) : Z := (j - 1) mod ny p.
Definition north (p : t_param) (j : Z) : Z := (j + 1) mod ny p.

(** The cell a pull scheme fetches speed [k] of cell [(i, j)] from. *)
Definition upstream (p : t_param) (k i j : Z) : Z * Z :=
  match k with
  | 1 => (west p i, j)
  | 2 => (i, south p j)
  | 3 => (east p i, j)
  | 4 => (i, north p j)
  | 5 => (west p i, south p j)
  | 6 => (east p i, south p j)
  | 7 => (east p i, north p j)
  | 8 => (west p i, north p j)
  | _ => (i, j)
  end.

(** Every one of the first [n] slots of a block has been written. *)
Definition written_upto {A} (a : block A) (n : Z) : bool :=
  (n <=? Z.of_nat (length a))
  && forallb (fun o => match o with Some _ => true | None => false end)
             (firstn (Z.to_nat n) a).

(** Block [t] after nine stores to the populations of cell [idx]. *)
Definition cell_with (t : block R) (idx : Z) (v0 v1 v2 v3 v4 v5 v6 v7 v8 : R) : block R :=
  <[Z.to_nat (at_speed idx 8) := Some v8]>
  (<[Z.to_nat (at_speed idx 7) := Some v7]>
  (<[Z.to_nat (at_speed idx 6) := Some v6]>
  (<[Z.to_nat (at_speed idx 5) := Some v5]>
  (<[Z.to_nat (at_speed idx 4) := Some v4]>
  (<[Z.to_nat (at_speed idx 3) := Some v3]>
  (<[Z.to_nat (at_speed idx 2) := Some v2]>
  (<[Z.to_nat (at_speed idx 1) := Some v1]>
  (<[Z.to_nat (at_speed idx 0) := Some v0]> t)))))))).


Definition pick9 (k : Z) (v0 v1 v2 v3 v4 v5 v6 v7 v8 : R) : R :=
  match k with
  | 0 => v0 | 1 => v1 | 2 => v2 | 3 => v3 | 4 => v4
  | 5 => v5 | 6 => v6 | 7 => v7 | _ => v8
  end.

(** Scratch block [t] holds, in the cells numbered below [n], the
    populations pulled from primary block [c]. *)
Definition pulled_upto (p : t_param) (c t : block R) (n : Z) : Prop :=
  forall i j k, 0 <= i < nx p -> 0 <= j < ny p -> i + j * nx p < n ->
    0 <= k < NSPEEDS ->
    load t (at_speed (i + j * nx p) k)
    = load c (at_speed (fst (upstream p k i j) + snd (upstream p k i j) * nx p) k).

(** A computation keeps a property of the state, whatever its outcome. *)
Definition keeps {A} (P : state -> Prop) (m : M A) : Prop :=
  forall s, P s -> P (snd (m s)).

(** One iteration of the main loop, as the sequence of its substeps. *)
Definition iteration_events : list event :=
  [EvAccelerate; EvPropagate; EvRebound; EvCollision; EvAvVelocity].

(** One iteration with the exchange of the ghost rows between accelerate
    and propagate. *)
Definition iteration_events_with_halo : list event :=
  [EvAccelerate; EvHaloExchange; EvPropagate; EvRebound; EvCollision; EvAvVelocity].

(** ** Example inputs *)

(** Two ranks, a grid of one column and two rows, one obstacle in the
    upper row. *)
Definition two_rank_params : param_file :=
  mk_param_file (Scanned 1) (Scanned 2) (Scanned 1) (Scanned 1)
                (Scanned (1 / 10)%R) (Scanned (5 / 1000)%R) (Scanned 1%R).
Definition two_rank_obstacles : list obstacle_line := [Triple 0 1 1].

(** The parameters [initialise] loads from that input and the state it
    leaves: three rows of one cell, the middle one at rest equilibrium. *)
Definition two_rank_loaded : t_param := mk_param 1 2 1 1 (1 / 10) (5 / 1000) 1.
Definition two_rank_initialised : state :=
  Eval cbv -[IZR Rplus Rminus Rmult Rdiv Ropp Rinv] in
    snd (initialise (Some two_rank_params) (Some two_rank_obstacles) 2 null_state).

(** The nine populations of cell [idx] of block [a] are written and hold
    [v0 .. v8]. *)
Definition cell_holds (a : block R) (idx : Z) (v0 v1 v2 v3 v4 v5 v6 v7 v8 : R) : Prop :=
  forall k, 0 <= k < NSPEEDS ->
    load a (at_speed idx k) = Ok (pick9 k v0 v1 v2 v3 v4 v5 v6 v7 v8).

(** Sum of nine populations, in the order the [kk] loops add them up. *)
Definition sum9 (v0 v1 v2 v3 v4 v5 v6 v7 v8 : R) : R :=
  (0 + v0 + v1 + v2 + v3 + v4 + v5 + v6 + v7 + v8)%R.

(** The rows of the global obstacle mask [total] that belong to [rank]:
    global rows [rank * local_ny, (rank + 1) * local_ny). *)
Definition rank_slab (total : block Z) (ncols local_ny rank : Z) : block Z :=
  firstn (Z.to_nat (local_ny * ncols)) (skipn (Z.to_nat (rank * local_ny * ncols)) total).

(** A parameter file whose values are all readable, with a negative
    density and acceleration, a relaxation rate outside (0, 2) and three
    rows for two ranks. *)
Definition unchecked_params : param_file :=
  mk_param_file (Scanned 1) (Scanned 3) (Scanned 1) (Scanned 1)
                (Scanned (-1)%R) (Scanned (-1)%R) (Scanned 3%R).

(** The value of slot [m] of a block of floats, 0 where it cannot be read. *)
Definition val (a : block R) (m : Z) : R :=
  match load a m with
  | Ok v => v
  | Err _ => 0%R
  end.

(** Sum of the nine populations of cell [idx]. *)
Definition cell_sum (a : block R) (idx : Z) : R :=
  sum9 (val a (at_speed idx 0)) (val a (at_speed idx 1)) (val a (at_speed idx 2))
       (val a (at_speed idx 3)) (val a (at_speed idx 4)) (val a (at_speed idx 5))
       (val a (at_speed idx 6)) (val a (at_speed idx 7)) (val a (at_speed idx 8)).

(** Cell [idx] is marked free in obstacle mask [o]. *)
Definition is_fluid (o : block Z) (idx : Z) : Prop := load o idx = Ok 0.

(** A square grid of two by two cells with one obstacle, at column 1 of
    row 0; every population is 1. *)
Definition square_params : t_param := mk_param 2 2 1 2 (1 / 10) (5 / 1000) 1.
Definition square_state : state :=
  mk_state (replicate 36 (Some 1%R)) (replicate 36 (Some 1%R))
           [Some 0; Some 1; Some 0; Some 0] [Some 0; Some 1; Some 0; Some 0]
           [Some 0%R] [] [] [] [] [].

(** [f 0 + f 1 + ... + f (n - 1)]. *)
Fixpoint sum_upto (n : nat) (f : Z -> R) : R :=
  match n with
  | O => 0%R
  | S n' => (sum_upto n' f + f (Z.of_nat n'))%R
  end.

(** Sum of [f i j] over the cells of the grid, rows outside, as the loops of
    the kernels go. *)
Definition grid_sum (p : t_param) (f : Z -> Z -> R) : R :=
  sum_upto (Z.to_nat (ny p)) (fun j => sum_upto (Z.to_nat (nx p)) (fun i => f i j)).

(** Sum of all populations of all cells of the grid held in block [a]. *)
Definition total_mass (p : t_param) (a : block R) : R :=
  grid_sum p (fun i j => cell_sum a (i + j * nx p)).

Definition fluidb (o : block Z) (idx : Z) : bool :=
  match load o idx with
  | Ok 0 => true
  | _ => false
  end.

(** Sum of all populations of the cells that are not obstacles. *)
Definition fluid_mass (p : t_param) (o : block Z) (a : block R) : R :=
  grid_sum p (fun i j =>
    if fluidb o (i + j * nx p) then cell_sum a (i + j * nx p) else 0%R).

(** Block [a] after the eight stores of [rebound] to cell [idx]. *)
Definition cell_with8 (a : block R) (idx : Z) (v1 v2 v3 v4 v5 v6 v7 v8 : R) : block R :=
  <[Z.to_nat (at_speed idx 8) := Some v8]>
  (<[Z.to_nat (at_speed idx 7) := Some v7]>
  (<[Z.to_nat (at_speed idx 6) := Some v6]>
  (<[Z.to_nat (at_speed idx 5) := Some v5]>
  (<[Z.to_nat (at_speed idx 4) := Some v4]>
  (<[Z.to_nat (at_speed idx 3) := Some v3]>
  (<[Z.to_nat (at_speed idx 2) := Some v2]>
  (<[Z.to_nat (at_speed idx 1) := Some v1]> a))))))).

(** The speed opposite to speed [k]. *)
Definition opposite (k : Z) : Z :=
  match k with
  | 1 => 3 | 2 => 4 | 3 => 1 | 4 => 2
  | 5 => 7 | 6 => 8 | 7 => 5 | 8 => 6
  | _ => k
  end.

(** Cell [idx] of primary block [c'] after [rebound], given the state [s]
    before it: a fluid cell is as it was; an obstacle cell holds, in speeds
    1 to 8, the opposite populations of the scratch grid, and its speed 0
    is as it was. *)
Definition rebounded (s : state) (c' : block R) (idx : Z) : Prop :=
  if fluidb (obstacles s) idx
  then forall k, 0 <= k < NSPEEDS ->
         load c' (at_speed idx k) = load (cells s) (at_speed idx k)
  else load c' (at_speed idx 0) = load (cells s) (at_speed idx 0)
       /\ forall k, 1 <= k < NSPEEDS ->
            load c' (at_speed idx k) = load (tmp_cells s) (at_speed idx (opposite k)).

(** The relaxation of population [t] of speed [k] towards equilibrium. *)
Definition relaxed (om local_density u_x u_y : R) (k : Z) (t : R) : R :=
  (t + om * (d_equ local_density u_x u_y k - t))%R.

(** Cell [idx] of [c'] is cell [idx] of [c] after [accelerate_flow]: either
    as it was, or with [a1] moved from speed 3 to speed 1 and [a2] moved
    from speed 6 to speed 5 and from speed 7 to speed 8. *)
Definition accelerated (a1 a2 : R) (c c' : block R) (idx : Z) : Prop :=
  (forall k, 0 <= k < NSPEEDS -> load c' (at_speed idx k) = load c (at_speed idx k))
  \/ exists v0 v1 v2 v3 v4 v5 v6 v7 v8,
       cell_holds c idx v0 v1 v2 v3 v4 v5 v6 v7 v8
       /\ cell_holds c' idx v0 (v1 + a1)%R v2 (v3 - a1)%R v4
                            (v5 + a2)%R (v6 - a2)%R (v7 - a2)%R (v8 + a2)%R.

(** A strip of two cells, one row: cell 0 is an obstacle whose populations
    are all 1, cell 1 is fluid with all populations 0. *)
Definition strip_params : t_param := mk_param 2 1 1 2 (1 / 10) (5 / 1000) 1.
Definition strip_state : state :=
  mk_state (replicate 9 (Some 1%R) ++ replicate 9 (Some 0%R)) (replicate 18 None)
           [Some 1; Some 0] [Some 1; Some 0] [None] [] [] [] [] [].

(** The two-by-two grid with every cell an obstacle. *)
Definition blocked_state : state :=
  mk_state (replicate 36 (Some 1%R)) (replicate 36 (Some 1%R))
           [Some 1; Some 1; Some 1; Some 1] [Some 1; Some 1; Some 1; Some 1]
           [Some 0%R] [] [] [] [] [].

(** ** Definitions used to state the further properties *)

(** A line of the obstacle file that passes the four checks of
    [initialise]. *)
Definition valid_lineb (p : t_param) (l : obstacle_line) : bool :=
  match l with
  | Triple xx yy blocked =>
      (0 <=? xx) && (xx <=? nx p - 1) && (0 <=? yy) && (yy <=? ny p - 1)
      && (blocked =? 1)
  | Malformed => false
  end.

(** Some line of the obstacle file names the cell [(x, y)]. *)
Definition listedb (lines : list obstacle_line) (x y : Z) : bool :=
  existsb (fun l => match l with
                    | Triple xx yy _ => (xx =? x) && (yy =? y)
                    | Malformed => false
                    end) lines.

(** The state [allocate] leaves: every block fresh, the trace as it was. *)
Definition allocated (p : t_param) (local_ny : Z) (s : state) : state :=
  mk_state (replicate (Z.to_nat ((local_ny + 2) * nx p * NSPEEDS)) None)
           (replicate (Z.to_nat ((local_ny + 2) * nx p * NSPEEDS)) None)
           (replicate (Z.to_nat (ny p * nx p * 1)) None)
           (replicate (Z.to_nat (local_ny * nx p * 1)) None)
           (replicate (Z.to_nat (maxIters p * 1)) None)
           (alloc_unchecked 1 (nx p)) (alloc_unchecked 1 (nx p))
           (alloc_unchecked 1 (nx p)) (alloc_unchecked 1 (nx p))
           (trace s).

(** The four sizes [initialise] passes to a checked malloc are not
    negative. *)
Definition sizes_ok (p : t_param) (local_ny : Z) : Prop :=
  0 <= (local_ny + 2) * nx p /\ 0 <= ny p * nx p /\ 0 <= local_ny * nx p
  /\ 0 <= maxIters p.

(** Two ranks, a grid of one column and three rows without obstacles: the
    parameters [initialise] loads and the state it leaves. *)
Definition three_row_params : param_file :=
  mk_param_file (Scanned 1) (Scanned 3) (Scanned 1) (Scanned 1)
                (Scanned (1 / 10)%R) (Scanned (5 / 1000)%R) (Scanned 1%R).
Definition three_row_loaded : t_param := mk_param 1 3 1 1 (1 / 10) (5 / 1000) 1.
Definition three_row_initialised : state :=
  Eval cbv -[IZR Rplus Rminus Rmult Rdiv Ropp Rinv] in
    snd (initialise (Some three_row_params) (Some []) 2 null_state).

(** Momentum of cell [idx] of block [a] along x and along y: the sums
    [collision] and [av_velocity] divide by the local density. *)
Definition momentum_x (a : block R) (idx : Z) : R :=
  (val a (at_speed idx 1) + val a (at_speed idx 5) + val a (at_speed idx 8)
   - (val a (at_speed idx 3) + val a (at_speed idx 6) + val a (at_speed idx 7)))%R.

Definition momentum_y (a : block R) (idx : Z) : R :=
  (val a (at_speed idx 2) + val a (at_speed idx 5) + val a (at_speed idx 6)
   - (val a (at_speed idx 4) + val a (at_speed idx 7) + val a (at_speed idx 8)))%R.

(** The test of [accelerate_flow] on cell [idx]: the cell is free and the
    three populations to be lowered stay positive. *)
Definition pushes (a1 a2 : R) (o : block Z) (c : block R) (idx : Z) : bool :=
  fluidb o idx
  && (if Rgt_dec (val c (at_speed idx 3) - a1) 0 then true else false)
  && (if Rgt_dec (val c (at_speed idx 6) - a2) 0 then true else false)
  && (if Rgt_dec (val c (at_speed idx 7) - a2) 0 then true else false).

(** What [accelerate_flow] makes of population [v] of speed [k] in a cell
    that passes the test. *)
Definition pushed (a1 a2 : R) (k : Z) (v : R) : R :=
  match k with
  | 1 => v + a1
  | 3 => v - a1
  | 5 | 8 => v + a2
  | 6 | 7 => v - a2
  | _ => v
  end%R.

(** Population [k] of fluid cell [idx] after [collision], from the scratch
    block [t]. *)
Definition collided (om : R) (t : block R) (idx k : Z) : R :=
  relaxed om (cell_sum t idx)
          (momentum_x t idx / cell_sum t idx) (momentum_y t idx / cell_sum t idx)
          k (val t (at_speed idx k)).

(** Each of the first [n] slots of a block holds a positive number. *)
Definition positive_upto (a : block R) (n : Z) : Prop :=
  forall m, 0 <= m < n -> exists v, load a m = Ok v /\ (0 < v)%R.

(** Population [k] of a cell at rest with density [d]. *)
Definition rest (d : R) (k : Z) : R :=
  pick9 k (d * 4 / 9) (d / 9) (d / 9) (d / 9) (d / 9) (d / 36) (d / 36) (d / 36) (d / 36).

(** Every cell of the [nx] by [ny] grid held in block [c] is at rest with
    density [d]. *)
Definition at_rest (p : t_param) (d : R) (c : block R) : Prop :=
  forall idx k, 0 <= idx < nx p * ny p -> 0 <= k < NSPEEDS ->
    load c (at_speed idx k) = Ok (rest d k).

(** The two-by-two grid with one obstacle, the fluid at rest with density
    1/10 and no acceleration, room for two average velocities. *)
Definition still_params : t_param := mk_param 2 2 2 2 (1 / 10) 0 1.
Definition rest_cell (d : R) : block R :=
  [Some (d * 4 / 9); Some (d / 9); Some (d / 9); Some (d / 9); Some (d / 9);
   Some (d / 36); Some (d / 36); Some (d / 36); Some (d / 36)]%R.
Definition still_state : state :=
  mk_state (rest_cell (1 / 10) ++ rest_cell (1 / 10) ++ rest_cell (1 / 10)
            ++ rest_cell (1 / 10))
           (replicate 36 None)
           [Some 0; Some 1; Some 0; Some 0] [Some 0; Some 1; Some 0; Some 0]
           [None; None] [] [] [] [] [].

(** The line [write_values] prints for cell [(ii, jj)], with [flag] the
    obstacle flag it prints last. *)
Definition line_of (p : t_param) (s : state) (ii jj flag : Z) : state_line :=
  let idx := ii + jj * nx p in
  if fluidb (obstacles s) idx then
    let local_density := cell_sum (cells s) idx in
    let u_x := (momentum_x (cells s) idx / local_density)%R in
    let u_y := (momentum_y (cells s) idx / local_density)%R in
    mk_line ii jj u_x u_y (sqrt (u_x * u_x + u_y * u_y)) (local_density * c_sq) flag
  else mk_line ii jj 0 0 0 (density p * c_sq) flag.

(** From slot [n] on, the two grids of state [st] hold what the blocks [C]
    and [T] hold. *)
Definition same_beyond (n : Z) (C T : block R) (st : state) : Prop :=
  forall m, n <= m ->
    load (cells st) m = load C m /\ load (tmp_cells st) m = load T m.

(** * Reasoning about blocks *)

Lemma load_ok_iff {A} (a : block A) i v :
  load a i = Ok v <-> 0 <= i /\ a !! Z.to_nat i = Some (Some v).
Proof.
  unfold load. destruct (Z.ltb_spec i 0).
  - split; [discriminate | lia].
  - destruct (a !! Z.to_nat i) as [[x|]|]; split; intros Hx; try discriminate;
      try (destruct Hx; discriminate).
    + injection Hx as ->. auto.
    + destruct Hx as [_ Hx]. congruence.
Qed.

Lemma load_ok_bounds {A} (a : block A) i v :
  load a i = Ok v -> 0 <= i < Z.of_nat (length a).
Proof.
  intros [H0 H]%load_ok_iff. apply lookup_lt_Some in H. lia.
Qed.

Lemma store_ok {A} (a : block A) i v :
  0 <= i < Z.of_nat (length a) ->
  store a i v = Ok (<[Z.to_nat i := Some v]> a).
Proof.
  intros H. unfold store.
  destruct (Z.ltb_spec i 0); [lia|].
  destruct (Z.leb_spec (Z.of_nat (length a)) i); [lia|]. reflexivity.
Qed.

Lemma store_inv {A} (a a' : block A) i v :
  store a i v = Ok a' ->
  0 <= i < Z.of_nat (length a) /\ a' = <[Z.to_nat i := Some v]> a.
Proof.
  unfold store.
  destruct (Z.ltb_spec i 0); [discriminate|].
  destruct (Z.leb_spec (Z.of_nat (length a)) i); [discriminate|].
  intros [= <-]. split; [lia | reflexivity].
Qed.

Lemma load_insert {A} (a : block A) i j v :
  0 <= i < Z.of_nat (length a) ->
  load (<[Z.to_nat i := Some v]> a) j = if j =? i then Ok v else load a j.
Proof.
  intros H. unfold load.
  destruct (Z.eqb_spec j i) as [Heq|Hne].
  - subst j. destruct (Z.ltb_spec i 0); [lia|].
    rewrite list_lookup_insert_eq by lia. reflexivity.
  - destruct (Z.ltb_spec j 0); [reflexivity|].
    rewrite list_lookup_insert_ne by lia. reflexivity.
Qed.

Lemma load_insert_eq {A} (a : block A) i v :
  0 <= i < Z.of_nat (length a) ->
  load (<[Z.to_nat i := Some v]> a) i = Ok v.
Proof. intros H. rewrite load_insert by exact H. now rewrite Z.eqb_refl. Qed.

(** * Reasoning about loops *)

Section Loops.
Context {A : Type}.
Variable body : Z -> A -> M A.

(** Total correctness: the invariant carries the loop to its end. *)
Lemma for_from_total (I : Z -> A -> state -> Prop) (n : nat) :
  forall lo acc s,
  I lo acc s ->
  (forall i a st, lo <= i < lo + Z.of_nat n -> I i a st ->
     exists a' st', body i a st = (Ok a', st') /\ I (i + 1) a' st') ->
  exists a' s', for_from lo n body acc s = (Ok a', s')
                /\ I (lo + Z.of_nat n) a' s'.
Proof.
  induction n as [|n IH]; intros lo acc s HI Hstep.
  - exists acc, s. split; [reflexivity|]. now replace (lo + Z.of_nat 0) with lo by lia.
  - destruct (Hstep lo acc s ltac:(lia) HI) as (a1 & s1 & Hb & HI1).
    destruct (IH (lo + 1) a1 s1 HI1) as (a' & s' & Hf & HI').
    { intros i a st Hi. apply Hstep. lia. }
    exists a', s'. split.
    + cbn [for_from]. unfold bind at 1. rewrite Hb. exact Hf.
    + now replace (lo + Z.of_nat (S n)) with (lo + 1 + Z.of_nat n) by lia.
Qed.

Lemma for_acc_total (I : Z -> A -> state -> Prop) (lo hi : Z) acc s :
  lo <= hi ->
  I lo acc s ->
  (forall i a st, lo <= i < hi -> I i a st ->
     exists a' st', body i a st = (Ok a', st') /\ I (i + 1) a' st') ->
  exists a' s', for_acc lo hi body acc s = (Ok a', s') /\ I hi a' s'.
Proof.
  intros Hle HI Hstep. unfold for_acc.
  destruct (for_from_total I (Z.to_nat (hi - lo)) lo acc s HI) as (a' & s' & Hf & HI').
  { intros i a st Hi. apply Hstep. lia. }
  exists a', s'. split; [exact Hf|].
  now replace (lo + Z.of_nat (Z.to_nat (hi - lo))) with hi in HI' by lia.
Qed.

(** Whatever the outcome: a property of the state every step keeps. *)
Lemma for_from_always (P : state -> Prop) (n : nat) :
  (forall i a st, P st -> P (snd (body i a st))) ->
  forall lo acc s, P s -> P (snd (for_from lo n body acc s)).
Proof.
  intros Hstep. induction n as [|n IH]; intros lo acc s HP; [exact HP|].
  cbn [for_from]. unfold bind at 1.
  specialize (Hstep lo acc s HP).
  destruct (body lo acc s) as [[a1|e] s1]; cbn [snd] in *.
  - apply IH, Hstep.
  - exact Hstep.
Qed.

Lemma for_acc_always (P : state -> Prop) (lo hi : Z) :
  (forall i a st, P st -> P (snd (body i a st))) ->
  forall acc s, P s -> P (snd (for_acc lo hi body acc s)).
Proof. intros Hstep acc s. apply for_from_always, Hstep. Qed.

(** Partial correctness: what a completed loop has established. *)
Lemma for_from_partial (I : Z -> A -> state -> Prop) (n : nat) :
  forall lo acc s a' s',
  for_from lo n body acc s = (Ok a', s') ->
  I lo acc s ->
  (forall i a st a1 st1, lo <= i < lo + Z.of_nat n -> I i a st ->
     body i a st = (Ok a1, st1) -> I (i + 1) a1 st1) ->
  I (lo + Z.of_nat n) a' s'.
Proof.
  induction n as [|n IH]; intros lo acc s a' s' Hf HI Hstep.
  - injection Hf as <- <-. now replace (lo + Z.of_nat 0) with lo by lia.
  - cbn [for_from] in Hf. unfold bind at 1 in Hf.
    destruct (body lo acc s) as [[a1|e] s1] eqn:Hb; [|discriminate].
    replace (lo + Z.of_nat (S n)) with (lo + 1 + Z.of_nat n) by lia.
    apply (IH (lo + 1) a1 s1 a' s' Hf).
    + apply (Hstep lo acc s a1 s1); [lia | exact HI | exact Hb].
    + intros i a st a2 st2 Hi. apply Hstep. lia.
Qed.

Lemma for_acc_partial (I : Z -> A -> state -> Prop) (lo hi : Z) acc s a' s' :
  lo <= hi ->
  for_acc lo hi body acc s = (Ok a', s') ->
  I lo acc s ->
  (forall i a st a1 st1, lo <= i < hi -> I i a st ->
     body i a st = (Ok a1, st1) -> I (i + 1) a1 st1) ->
  I hi a' s'.
Proof.
  intros Hle Hf HI Hstep. unfold for_acc in Hf.
  replace hi with (lo + Z.of_nat (Z.to_nat (hi - lo))) by lia.
  apply (for_from_partial I _ lo acc s a' s' Hf HI).
  intros i a st a1 st1 Hi. apply Hstep. lia.
Qed.

Lemma for_acc_empty (lo hi : Z) acc s :
  hi <= lo -> for_acc lo hi body acc s = (Ok acc, s).
Proof.
  intros H. unfold for_acc. replace (Z.to_nat (hi - lo)) with O by lia. reflexivity.
Qed.
End Loops.

Lemma for_range_total (I : Z -> state -> Prop) (lo hi : Z) (body : Z -> M unit) s :
  lo <= hi ->
  I lo s ->
  (forall i st, lo <= i < hi -> I i st ->
     exists st', body i st = (Ok tt, st') /\ I (i + 1) st') ->
  exists s', for_range lo hi body s = (Ok tt, s') /\ I hi s'.
Proof.
  intros Hle HI Hstep. unfold for_range.
  destruct (for_acc_total (fun i _ => body i) (fun i _ st => I i st) lo hi tt s Hle HI)
    as ([] & s' & Hf & HI').
  { intros i [] st Hi HIi. destruct (Hstep i st Hi HIi) as (st' & Hb & HI1).
    now exists tt, st'. }
  now exists s'.
Qed.

Lemma for_range_always (P : state -> Prop) (lo hi : Z) (body : Z -> M unit) :
  (forall i st, P st -> P (snd (body i st))) ->
  forall s, P s -> P (snd (for_range lo hi body s)).
Proof. intros Hstep s. apply for_acc_always. intros i _. apply Hstep. Qed.

Lemma for_range_partial (I : Z -> state -> Prop) (lo hi : Z) (body : Z -> M unit) s s' :
  lo <= hi ->
  for_range lo hi body s = (Ok tt, s') ->
  I lo s ->
  (forall i st st1, lo <= i < hi -> I i st -> body i st = (Ok tt, st1) -> I (i + 1) st1) ->
  I hi s'.
Proof.
  intros Hle Hf HI Hstep.
  apply (for_acc_partial (fun i _ => body i) (fun i _ st => I i st) lo hi tt s tt s' Hle Hf HI).
  intros i [] st [] st1. apply Hstep.
Qed.

(** The row-major double loop over rows [lo, hi) and columns [0, n): the
    invariant is indexed by the number of the next cell, [ii + jj * n]. *)
Lemma grid_total (I : Z -> state -> Prop) (n lo hi : Z) (body : Z -> Z -> M unit) s :
  0 <= n -> lo <= hi ->
  I (lo * n) s ->
  (forall ii jj st, 0 <= ii < n -> lo <= jj < hi -> I (ii + jj * n) st ->
     exists st', body ii jj st = (Ok tt, st') /\ I (ii + jj * n + 1) st') ->
  exists s', for_range lo hi (fun jj => for_range 0 n (fun ii => body ii jj)) s = (Ok tt, s')
             /\ I (hi * n) s'.
Proof.
  intros Hn Hle HI Hstep.
  apply (for_range_total (fun jj st => I (jj * n) st)); [exact Hle | exact HI |].
  intros jj st Hjj HIj.
  destruct (for_range_total (fun ii st => I (ii + jj * n) st) 0 n
              (fun ii => body ii jj) st Hn) as (st' & Hf & HI').
  - exact HIj.
  - intros ii st0 Hii HIi. destruct (Hstep ii jj st0 Hii Hjj HIi) as (st1 & Hb & HI1).
    exists st1. split; [exact Hb|].
    now replace (ii + 1 + jj * n) with (ii + jj * n + 1) by lia.
  - exists st'. split; [exact Hf|].
    now replace ((jj + 1) * n) with (n + jj * n) by lia.
Qed.

Lemma grid_always (P : state -> Prop) (n lo hi : Z) (body : Z -> Z -> M unit) :
  (forall ii jj st, P st -> P (snd (body ii jj st))) ->
  forall s, P s ->
  P (snd (for_range lo hi (fun jj => for_range 0 n (fun ii => body ii jj)) s)).
Proof.
  intros Hstep. apply for_range_always. intros jj. apply for_range_always.
  intros ii. apply Hstep.
Qed.

Lemma grid_partial (I : Z -> state -> Prop) (n lo hi : Z) (body : Z -> Z -> M unit) s s' :
  0 <= n -> lo <= hi ->
  for_range lo hi (fun jj => for_range 0 n (fun ii => body ii jj)) s = (Ok tt, s') ->
  I (lo * n) s ->
  (forall ii jj st st1, 0 <= ii < n -> lo <= jj < hi -> I (ii + jj * n) st ->
     body ii jj st = (Ok tt, st1) -> I (ii + jj * n + 1) st1) ->
  I (hi * n) s'.
Proof.
  intros Hn Hle Hf HI Hstep.
  apply (for_range_partial (fun jj st => I (jj * n) st) lo hi _ s s' Hle Hf HI).
  intros jj st st1 Hjj HIj Hrow.
  replace ((jj + 1) * n) with (n + jj * n) by lia.
  apply (for_range_partial (fun ii st => I (ii + jj * n) st) 0 n _ st st1 Hn Hrow HIj).
  intros ii st0 st2 Hii HIi Hb.
  replace (ii + 1 + jj * n) with (ii + jj * n + 1) by lia.
  now apply (Hstep ii jj st0 st2).
Qed.

(** Cell numbers and slots. *)

Lemma cell_index_inj (n i j i' j' : Z) :
  0 <= i < n -> 0 <= i' < n -> i + j * n = i' + j' * n -> i = i' /\ j = j'.
Proof.
  intros Hi Hi' Heq.
  assert (j = j') by nia. subst j'. split; [lia | reflexivity].
Qed.

Lemma cell_index_bound (n m i j : Z) :
  0 <= i < n -> 0 <= j < m -> 0 <= i + j * n < n * m.
Proof. intros Hi Hj. nia. Qed.

Lemma at_speed_inj (idx idx' k k' : Z) :
  0 <= k < NSPEEDS -> 0 <= k' < NSPEEDS ->
  at_speed idx k = at_speed idx' k' -> idx = idx' /\ k = k'.
Proof. unfold at_speed, NSPEEDS. intros. lia. Qed.

Lemma at_speed_bound (cellsN idx k : Z) :
  0 <= idx < cellsN -> 0 <= k < NSPEEDS ->
  0 <= at_speed idx k < cellsN * NSPEEDS.
Proof. unfold at_speed, NSPEEDS. intros. lia. Qed.

(** Outcome rule: [I] holds between iterations, [Q] where the loop stops on
    an error. *)
Lemma for_from_outcome {A} (body : Z -> A -> M A)
    (I : Z -> A -> state -> Prop) (Q : state -> Prop) (n : nat) :
  forall lo acc s,
  I lo acc s ->
  (forall i a st, lo <= i < lo + Z.of_nat n -> I i a st ->
     match body i a st with
     | (Ok a', st') => I (i + 1) a' st'
     | (Err _, st') => Q st'
     end) ->
  match for_from lo n body acc s with
  | (Ok a', s') => I (lo + Z.of_nat n) a' s'
  | (Err _, s') => Q s'
  end.
Proof.
  induction n as [|n IH]; intros lo acc s HI Hstep.
  - cbn. now replace (lo + Z.of_nat 0) with lo by lia.
  - cbn [for_from]. unfold bind at 1.
    specialize (Hstep lo acc s ltac:(lia) HI) as Hb.
    destruct (body lo acc s) as [[a1|e] s1]; [|exact Hb].
    replace (lo + Z.of_nat (S n)) with (lo + 1 + Z.of_nat n) by lia.
    apply IH; [exact Hb|]. intros i a st Hi. apply Hstep. lia.
Qed.

Lemma for_range_outcome (body : Z -> M unit)
    (I : Z -> state -> Prop) (Q : state -> Prop) (lo hi : Z) (s : state) :
  lo <= hi ->
  I lo s ->
  (forall i st, lo <= i < hi -> I i st ->
     match body i st with
     | (Ok _, st') => I (i + 1) st'
     | (Err _, st') => Q st'
     end) ->
  match for_range lo hi body s with
  | (Ok _, s') => I hi s'
  | (Err _, s') => Q s'
  end.
Proof.
  intros Hle HI Hstep. unfold for_range, for_acc.
  pose proof (for_from_outcome (fun i _ => body i) (fun i _ st => I i st) Q
                (Z.to_nat (hi - lo)) lo tt s HI) as H.
  replace (lo + Z.of_nat (Z.to_nat (hi - lo))) with hi in H by lia.
  apply H. intros i _ st Hi. apply Hstep. lia.
Qed.

Ltac decide_eqb :=
  repeat match goal with
         | |- context [?a =? ?b] =>
             destruct (Z.eqb_spec a b); [try (exfalso; lia) | try (exfalso; lia)]
         end.

Lemma nine_cases (k : Z) :
  0 <= k < NSPEEDS ->
  k = 0 \/ k = 1 \/ k = 2 \/ k = 3 \/ k = 4 \/ k = 5 \/ k = 6 \/ k = 7 \/ k = 8.
Proof. unfold NSPEEDS. lia. Qed.


Lemma written_upto_load {A} (a : block A) (n m : Z) :
  written_upto a n = true -> 0 <= m < n -> exists v, load a m = Ok v.
Proof.
  unfold written_upto. intros [Hlen Hall]%andb_prop Hm.
  apply Z.leb_le in Hlen.
  rewrite forallb_forall in Hall.
  destruct (lookup_lt_is_Some_2 a (Z.to_nat m)) as [o Ho]; [lia|].
  assert (Hin : In o (firstn (Z.to_nat n) a)).
  { apply list_elem_of_In, list_elem_of_lookup. exists (Z.to_nat m).
    rewrite lookup_take_lt by lia. exact Ho. }
  specialize (Hall o Hin). destruct o as [v|]; [|discriminate].
  exists v. apply load_ok_iff. split; [lia | exact Ho].
Qed.

Lemma written_upto_length {A} (a : block A) (n : Z) :
  written_upto a n = true -> n <= Z.of_nat (length a).
Proof. unfold written_upto. intros [Hlen _]%andb_prop. now apply Z.leb_le. Qed.


(** The double loop with local variables carried in [acc]. *)
Lemma grid_acc_total {A} (I : Z -> A -> state -> Prop) (n lo hi : Z)
    (body : Z -> Z -> A -> M A) acc s :
  0 <= n -> lo <= hi ->
  I (lo * n) acc s ->
  (forall ii jj a st, 0 <= ii < n -> lo <= jj < hi -> I (ii + jj * n) a st ->
     exists a' st', body ii jj a st = (Ok a', st') /\ I (ii + jj * n + 1) a' st') ->
  exists a' s',
    for_acc lo hi (fun jj acc => for_acc 0 n (fun ii acc => body ii jj acc) acc) acc s
    = (Ok a', s')
    /\ I (hi * n) a' s'.
Proof.
  intros Hn Hle HI Hstep.
  apply (for_acc_total _ (fun jj a st => I (jj * n) a st)); [exact Hle | exact HI |].
  intros jj a st Hjj HIj.
  destruct (for_acc_total (fun ii acc => body ii jj acc)
              (fun ii a st => I (ii + jj * n) a st) 0 n a st Hn) as (a' & st' & Hf & HI').
  - exact HIj.
  - intros ii a0 st0 Hii HIi.
    destruct (Hstep ii jj a0 st0 Hii Hjj HIi) as (a1 & st1 & Hb & HI1).
    exists a1, st1. split; [exact Hb|].
    now replace (ii + 1 + jj * n) with (ii + jj * n + 1) by lia.
  - exists a', st'. split; [exact Hf|].
    now replace ((jj + 1) * n) with (n + jj * n) by lia.
Qed.

Lemma grid_acc_partial {A} (I : Z -> A -> state -> Prop) (n lo hi : Z)
    (body : Z -> Z -> A -> M A) acc s a' s' :
  0 <= n -> lo <= hi ->
  for_acc lo hi (fun jj acc => for_acc 0 n (fun ii acc => body ii jj acc) acc) acc s
  = (Ok a', s') ->
  I (lo * n) acc s ->
  (forall ii jj a st a1 st1, 0 <= ii < n -> lo <= jj < hi -> I (ii + jj * n) a st ->
     body ii jj a st = (Ok a1, st1) -> I (ii + jj * n + 1) a1 st1) ->
  I (hi * n) a' s'.
Proof.
  intros Hn Hle Hf HI Hstep.
  apply (for_acc_partial _ (fun jj a st => I (jj * n) a st) lo hi acc s a' s' Hle Hf HI).
  intros jj a st a1 st1 Hjj HIj Hrow.
  replace ((jj + 1) * n) with (n + jj * n) by lia.
  apply (for_acc_partial _ (fun ii a st => I (ii + jj * n) a st) 0 n a st a1 st1 Hn Hrow HIj).
  intros ii a0 st0 a2 st2 Hii HIi Hb.
  replace (ii + 1 + jj * n) with (ii + jj * n + 1) by lia.
  now apply (Hstep ii jj a0 st0 a2 st2).
Qed.

(** Evaluate everything in the goal except the operations on reals. *)
Ltac eval_reals :=
  cbv -[IZR Rplus Rminus Rmult Rdiv Ropp Rinv sqrt Rlt Rgt Rle Rge Req_dec_T Rgt_dec not].

Lemma load_params_outcome (paramfile : option param_file) (s : state) :
  match paramfile with
  | Some (mk_param_file (Scanned a) (Scanned b) (Scanned c) (Scanned d)
                        (Scanned e) (Scanned f) (Scanned g)) =>
      load_params paramfile s = (Ok (mk_param a b c d e f g), s)
  | _ => exists message, load_params paramfile s = (Err (Die message), s)
  end.
Proof.
  destruct paramfile as [[[a|] [b|] [c|] [d|] [e|] [f|] [g|]]|];
    try reflexivity; eexists; reflexivity.
Qed.

Lemma outcome_eta {A} (r : res A * state) (a : A) :
  fst r = Ok a -> r = (Ok a, snd r).
Proof. destruct r as [x s]. cbn [fst snd]. now intros ->. Qed.

(** * Density and velocity of one cell *)

Lemma rdiv_ok (x y : R) (s : state) :
  y <> 0%R -> rdiv x y s = (Ok (x / y)%R, s).
Proof. intros Hy. unfold rdiv. now destruct (Req_dec_T y 0). Qed.

Lemma rdiv_zero (x : R) (s : state) : rdiv x 0 s = (Err DivByZero, s).
Proof. unfold rdiv. now destruct (Req_dec_T 0 0). Qed.

Lemma rdiv_inv (x y v : R) (s s' : state) :
  rdiv x y s = (Ok v, s') -> y <> 0%R /\ v = (x / y)%R /\ s' = s.
Proof.
  unfold rdiv. destruct (Req_dec_T y 0); [discriminate|].
  intros [= <- <-]. auto.
Qed.

Section CellReads.
Variable rd : Z -> Z -> M R.
Variable idx : Z.
Variable st : state.
Variables v0 v1 v2 v3 v4 v5 v6 v7 v8 : R.
Hypothesis reads : forall k, 0 <= k < NSPEEDS ->
  rd idx k st = (Ok (pick9 k v0 v1 v2 v3 v4 v5 v6 v7 v8), st).

Lemma cell_density_run :
  cell_density rd idx st = (Ok (sum9 v0 v1 v2 v3 v4 v5 v6 v7 v8), st).
Proof.
  unfold cell_density, for_acc.
  change (Z.to_nat (NSPEEDS - 0)) with 9%nat.
  cbn [for_from]. unfold bind.
  repeat (rewrite reads by (unfold NSPEEDS; lia); cbn [pick9 ret]).
  reflexivity.
Qed.

Lemma cell_u_x_run (local_density : R) :
  local_density <> 0%R ->
  cell_u_x rd idx local_density st
  = (Ok ((v1 + v5 + v8 - (v3 + v6 + v7)) / local_density)%R, st).
Proof.
  intros Hd. unfold cell_u_x, bind.
  repeat (rewrite reads by (unfold NSPEEDS; lia); cbn [pick9]).
  now apply rdiv_ok.
Qed.

Lemma cell_u_y_run (local_density : R) :
  local_density <> 0%R ->
  cell_u_y rd idx local_density st
  = (Ok ((v2 + v5 + v6 - (v4 + v7 + v8)) / local_density)%R, st).
Proof.
  intros Hd. unfold cell_u_y, bind.
  repeat (rewrite reads by (unfold NSPEEDS; lia); cbn [pick9]).
  now apply rdiv_ok.
Qed.
End CellReads.

Lemma cell_holds_exists (a : block R) (n idx : Z) :
  written_upto a (n * NSPEEDS) = true -> 0 <= idx < n ->
  exists v0 v1 v2 v3 v4 v5 v6 v7 v8, cell_holds a idx v0 v1 v2 v3 v4 v5 v6 v7 v8.
Proof.
  intros Hw Hidx.
  assert (Hk : forall k, 0 <= k < NSPEEDS -> exists v, load a (at_speed idx k) = Ok v).
  { intros k Hk. apply (written_upto_load a _ _ Hw). now apply at_speed_bound. }
  destruct (Hk 0) as [v0 H0]; [unfold NSPEEDS; lia|].
  destruct (Hk 1) as [v1 H1]; [unfold NSPEEDS; lia|].
  destruct (Hk 2) as [v2 H2]; [unfold NSPEEDS; lia|].
  destruct (Hk 3) as [v3 H3]; [unfold NSPEEDS; lia|].
  destruct (Hk 4) as [v4 H4]; [unfold NSPEEDS; lia|].
  destruct (Hk 5) as [v5 H5]; [unfold NSPEEDS; lia|].
  destruct (Hk 6) as [v6 H6]; [unfold NSPEEDS; lia|].
  destruct (Hk 7) as [v7 H7]; [unfold NSPEEDS; lia|].
  destruct (Hk 8) as [v8 H8]; [unfold NSPEEDS; lia|].
  exists v0, v1, v2, v3, v4, v5, v6, v7, v8. intros k Hk'.
  destruct (nine_cases k Hk') as [->|[->|[->|[->|[->|[->|[->|[->| ->]]]]]]]];
    assumption.
Qed.

Lemma rd_cells_holds (st : state) (idx : Z) (v0 v1 v2 v3 v4 v5 v6 v7 v8 : R) :
  cell_holds (cells st) idx v0 v1 v2 v3 v4 v5 v6 v7 v8 ->
  forall k, 0 <= k < NSPEEDS ->
    rd_cells idx k st = (Ok (pick9 k v0 v1 v2 v3 v4 v5 v6 v7 v8), st).
Proof. intros H k Hk. unfold rd_cells. now rewrite (H k Hk). Qed.

Lemma rd_tmp_cells_holds (st : state) (idx : Z) (v0 v1 v2 v3 v4 v5 v6 v7 v8 : R) :
  cell_holds (tmp_cells st) idx v0 v1 v2 v3 v4 v5 v6 v7 v8 ->
  forall k, 0 <= k < NSPEEDS ->
    rd_tmp_cells idx k st = (Ok (pick9 k v0 v1 v2 v3 v4 v5 v6 v7 v8), st).
Proof. intros H k Hk. unfold rd_tmp_cells. now rewrite (H k Hk). Qed.

Lemma cell_sum_holds (a : block R) (idx : Z) (v0 v1 v2 v3 v4 v5 v6 v7 v8 : R) :
  cell_holds a idx v0 v1 v2 v3 v4 v5 v6 v7 v8 ->
  cell_sum a idx = sum9 v0 v1 v2 v3 v4 v5 v6 v7 v8.
Proof.
  intros H. unfold cell_sum, val.
  rewrite (H 0), (H 1), (H 2), (H 3), (H 4), (H 5), (H 6), (H 7), (H 8)
    by (unfold NSPEEDS; lia).
  reflexivity.
Qed.


(** * propagate *)

Lemma neighbours_in_range (p : t_param) (ii jj : Z) :
  0 <= ii < nx p -> 0 <= jj < ny p ->
  Z.rem (jj + 1) (ny p) = north p jj /\ Z.rem (ii + 1) (nx p) = east p ii
  /\ (if jj =? 0 then jj + ny p - 1 else jj - 1) = south p jj
  /\ (if ii =? 0 then ii + nx p - 1 else ii - 1) = west p ii
  /\ 0 <= north p jj < ny p /\ 0 <= south p jj < ny p
  /\ 0 <= east p ii < nx p /\ 0 <= west p ii < nx p.
Proof.
  intros Hi Hj. unfold north, east, south, west.
  rewrite !Z.rem_mod_nonneg by lia.
  repeat split; try (apply Z.mod_pos_bound; lia).
  - destruct (Z.eqb_spec jj 0) as [->|Hne].
    + replace (0 - 1) with (ny p - 1 + (-1) * ny p) by lia.
      rewrite Z.mod_add by lia. rewrite Z.mod_small; lia.
    + rewrite Z.mod_small; lia.
  - destruct (Z.eqb_spec ii 0) as [->|Hne].
    + replace (0 - 1) with (nx p - 1 + (-1) * nx p) by lia.
      rewrite Z.mod_add by lia. rewrite Z.mod_small; lia.
    + rewrite Z.mod_small; lia.
Qed.

Lemma upstream_in_range (p : t_param) (k i j : Z) :
  0 <= i < nx p -> 0 <= j < ny p ->
  0 <= fst (upstream p k i j) < nx p /\ 0 <= snd (upstream p k i j) < ny p.
Proof.
  intros Hi Hj.
  destruct (neighbours_in_range p i j Hi Hj) as (_ & _ & _ & _ & Hn & Hs & He & Hw).
  unfold upstream.
  destruct k as [|[[[|[]|]|[[]|[]|]|]|[[|[]|]|[[]|[]|]|]|]|]; cbn [fst snd]; auto.
Qed.

Lemma propagate_cell_run (p : t_param) (ii jj : Z) (st : state)
    (v0 v1 v2 v3 v4 v5 v6 v7 v8 : R) :
  0 <= ii < nx p -> 0 <= jj < ny p ->
  (ii + jj * nx p + 1) * NSPEEDS <= Z.of_nat (length (tmp_cells st)) ->
  load (cells st) (at_speed (ii + jj * nx p) 0) = Ok v0 ->
  load (cells st) (at_speed (west p ii + jj * nx p) 1) = Ok v1 ->
  load (cells st) (at_speed (ii + south p jj * nx p) 2) = Ok v2 ->
  load (cells st) (at_speed (east p ii + jj * nx p) 3) = Ok v3 ->
  load (cells st) (at_speed (ii + north p jj * nx p) 4) = Ok v4 ->
  load (cells st) (at_speed (west p ii + south p jj * nx p) 5) = Ok v5 ->
  load (cells st) (at_speed (east p ii + south p jj * nx p) 6) = Ok v6 ->
  load (cells st) (at_speed (east p ii + north p jj * nx p) 7) = Ok v7 ->
  load (cells st) (at_speed (west p ii + north p jj * nx p) 8) = Ok v8 ->
  propagate_cell p ii jj st
  = (Ok tt, set_tmp_cells
              (cell_with (tmp_cells st) (ii + jj * nx p) v0 v1 v2 v3 v4 v5 v6 v7 v8) st).
Proof.
  intros Hi Hj Hlen H0 H1 H2 H3 H4 H5 H6 H7 H8.
  destruct (neighbours_in_range p ii jj Hi Hj) as (En & Ee & Es & Ew & _).
  assert (Hidx : 0 <= ii + jj * nx p) by nia.
  unfold propagate_cell. rewrite En, Ee, Es, Ew.
  unfold bind, rd_cells, wr_tmp_cells.
  rewrite H0, store_ok by (unfold at_speed, NSPEEDS in *; lia).
  cbn [cells tmp_cells set_tmp_cells].
  rewrite H1, store_ok by (rewrite ?length_insert; unfold at_speed, NSPEEDS in *; lia).
  cbn [cells tmp_cells set_tmp_cells].
  rewrite H2, store_ok by (rewrite ?length_insert; unfold at_speed, NSPEEDS in *; lia).
  cbn [cells tmp_cells set_tmp_cells].
  rewrite H3, store_ok by (rewrite ?length_insert; unfold at_speed, NSPEEDS in *; lia).
  cbn [cells tmp_cells set_tmp_cells].
  rewrite H4, store_ok by (rewrite ?length_insert; unfold at_speed, NSPEEDS in *; lia).
  cbn [cells tmp_cells set_tmp_cells].
  rewrite H5, store_ok by (rewrite ?length_insert; unfold at_speed, NSPEEDS in *; lia).
  cbn [cells tmp_cells set_tmp_cells].
  rewrite H6, store_ok by (rewrite ?length_insert; unfold at_speed, NSPEEDS in *; lia).
  cbn [cells tmp_cells set_tmp_cells].
  rewrite H7, store_ok by (rewrite ?length_insert; unfold at_speed, NSPEEDS in *; lia).
  cbn [cells tmp_cells set_tmp_cells].
  rewrite H8, store_ok by (rewrite ?length_insert; unfold at_speed, NSPEEDS in *; lia).
  reflexivity.
Qed.

Lemma length_cell_with (t : block R) (idx : Z) (v0 v1 v2 v3 v4 v5 v6 v7 v8 : R) :
  length (cell_with t idx v0 v1 v2 v3 v4 v5 v6 v7 v8) = length t.
Proof. unfold cell_with. now rewrite !length_insert. Qed.

Lemma load_cell_with (t : block R) (idx : Z) (v0 v1 v2 v3 v4 v5 v6 v7 v8 : R) (k : Z) :
  0 <= idx -> (idx + 1) * NSPEEDS <= Z.of_nat (length t) ->
  0 <= k < NSPEEDS ->
  load (cell_with t idx v0 v1 v2 v3 v4 v5 v6 v7 v8) (at_speed idx k)
  = Ok (pick9 k v0 v1 v2 v3 v4 v5 v6 v7 v8).
Proof.
  intros Hidx Hlen Hk. unfold cell_with.
  rewrite !load_insert by (rewrite ?length_insert; unfold at_speed, NSPEEDS in *; lia).
  unfold at_speed, NSPEEDS in *.
  destruct (nine_cases k Hk) as [->|[->|[->|[->|[->|[->|[->|[->| ->]]]]]]]];
    decide_eqb; reflexivity.
Qed.

Lemma load_cell_with_other (t : block R) (idx : Z) (v0 v1 v2 v3 v4 v5 v6 v7 v8 : R) (m : Z) :
  0 <= idx -> (idx + 1) * NSPEEDS <= Z.of_nat (length t) ->
  (m < idx * NSPEEDS \/ (idx + 1) * NSPEEDS <= m) ->
  load (cell_with t idx v0 v1 v2 v3 v4 v5 v6 v7 v8) m = load t m.
Proof.
  intros Hidx Hlen Hm. unfold cell_with.
  rewrite !load_insert by (rewrite ?length_insert; unfold at_speed, NSPEEDS in *; lia).
  unfold at_speed, NSPEEDS in *. decide_eqb. reflexivity.
Qed.

Lemma grid_slot_readable (p : t_param) (c : block R) (i j k : Z) :
  written_upto c (nx p * ny p * NSPEEDS) = true ->
  0 <= i < nx p -> 0 <= j < ny p -> 0 <= k < NSPEEDS ->
  exists v, load c (at_speed (i + j * nx p) k) = Ok v.
Proof.
  intros Hw Hi Hj Hk. apply (written_upto_load c _ _ Hw).
  apply at_speed_bound; [|exact Hk]. now apply cell_index_bound.
Qed.

Lemma propagate_loops (p : t_param) (s : state) :
  0 <= nx p -> 0 <= ny p ->
  written_upto (cells s) (nx p * ny p * NSPEEDS) = true ->
  nx p * ny p * NSPEEDS <= Z.of_nat (length (tmp_cells s)) ->
  exists s',
    for_range 0 (ny p) (fun jj => for_range 0 (nx p) (fun ii => propagate_cell p ii jj)) s
    = (Ok tt, s')
    /\ cells s' = cells s /\ obstacles s' = obstacles s /\ trace s' = trace s
    /\ length (tmp_cells s') = length (tmp_cells s)
    /\ pulled_upto p (cells s) (tmp_cells s') (nx p * ny p).
Proof.
  intros Hnx Hny Hw Hlen.
  pose (I := fun (n : Z) (st : state) =>
    cells st = cells s /\ obstacles st = obstacles s /\ trace st = trace s
    /\ length (tmp_cells st) = length (tmp_cells s)
    /\ pulled_upto p (cells s) (tmp_cells st) n).
  destruct (grid_total I (nx p) 0 (ny p) (propagate_cell p) s Hnx Hny) as (s' & Hrun & HI).
  - repeat split. intros i j k Hi Hj Hlt. exfalso. nia.
  - intros ii jj st Hii Hjj (Hc & Ho & Htr & Hl & Hp).
    destruct (neighbours_in_range p ii jj Hii Hjj) as (_ & _ & _ & _ & Hn & Hs & He & Hww).
    assert (Hb := cell_index_bound (nx p) (ny p) ii jj Hii Hjj).
    destruct (grid_slot_readable p (cells s) ii jj 0 Hw) as [v0 H0]; try (unfold NSPEEDS; lia).
    destruct (grid_slot_readable p (cells s) (west p ii) jj 1 Hw) as [v1 H1]; try (unfold NSPEEDS; lia).
    destruct (grid_slot_readable p (cells s) ii (south p jj) 2 Hw) as [v2 H2]; try (unfold NSPEEDS; lia).
    destruct (grid_slot_readable p (cells s) (east p ii) jj 3 Hw) as [v3 H3]; try (unfold NSPEEDS; lia).
    destruct (grid_slot_readable p (cells s) ii (north p jj) 4 Hw) as [v4 H4]; try (unfold NSPEEDS; lia).
    destruct (grid_slot_readable p (cells s) (west p ii) (south p jj) 5 Hw) as [v5 H5]; try (unfold NSPEEDS; lia).
    destruct (grid_slot_readable p (cells s) (east p ii) (south p jj) 6 Hw) as [v6 H6]; try (unfold NSPEEDS; lia).
    destruct (grid_slot_readable p (cells s) (east p ii) (north p jj) 7 Hw) as [v7 H7]; try (unfold NSPEEDS; lia).
    destruct (grid_slot_readable p (cells s) (west p ii) (north p jj) 8 Hw) as [v8 H8]; try (unfold NSPEEDS; lia).
    assert (Hroom : (ii + jj * nx p + 1) * NSPEEDS <= Z.of_nat (length (tmp_cells st))).
    { rewrite Hl. unfold NSPEEDS in *. nia. }
    eexists. split.
    + apply (propagate_cell_run p ii jj st v0 v1 v2 v3 v4 v5 v6 v7 v8); rewrite ?Hc; auto.
    + unfold I. cbn [cells obstacles trace tmp_cells set_tmp_cells].
      rewrite length_cell_with. repeat split; auto.
      intros i j k Hi Hj Hlt Hk.
      destruct (Z.eq_dec (i + j * nx p) (ii + jj * nx p)) as [Heq|Hne].
      * destruct (cell_index_inj (nx p) i j ii jj Hi Hii Heq) as [-> ->].
        rewrite load_cell_with by (auto; lia).
        unfold pick9, upstream.
        destruct (nine_cases k Hk) as [->|[->|[->|[->|[->|[->|[->|[->| ->]]]]]]]];
          cbn [fst snd]; congruence.
      * rewrite load_cell_with_other.
        -- apply Hp; auto. lia.
        -- lia.
        -- exact Hroom.
        -- left. unfold at_speed, NSPEEDS in *. lia.
  - exists s'. destruct HI as (Hc & Ho & Htr & Hl & Hp).
    repeat split; auto.
    now replace (nx p * ny p) with (ny p * nx p) by lia.
Qed.

Lemma propagate_run (p : t_param) (s : state) :
  0 <= nx p -> 0 <= ny p ->
  written_upto (cells s) (nx p * ny p * NSPEEDS) = true ->
  nx p * ny p * NSPEEDS <= Z.of_nat (length (tmp_cells s)) ->
  exists s',
    propagate p s = (Ok tt, s')
    /\ cells s' = cells s /\ obstacles s' = obstacles s
    /\ trace s' = trace s ++ [EvPropagate]
    /\ length (tmp_cells s') = length (tmp_cells s)
    /\ pulled_upto p (cells s) (tmp_cells s') (nx p * ny p).
Proof.
  intros Hnx Hny Hw Hlen.
  destruct (propagate_loops p (set_trace (trace s ++ [EvPropagate]) s) Hnx Hny Hw Hlen)
    as (s' & Hrun & Hc & Ho & Htr & Hl & Hp).
  exists s'. repeat split; auto.
Qed.

(** * Properties kept by every outcome *)

Create HintDb keeps discriminated.

Lemma keeps_ret {A} (P : state -> Prop) (a : A) : keeps P (ret a).
Proof. intros s H. exact H. Qed.

Lemma keeps_fail {A} (P : state -> Prop) (e : error) : keeps P (@fail A e).
Proof. intros s H. exact H. Qed.

Lemma keeps_die {A} (P : state -> Prop) (msg : string) : keeps P (@die A msg).
Proof. intros s H. exact H. Qed.

Lemma keeps_bind {A B} (P : state -> Prop) (m : M A) (f : A -> M B) :
  keeps P m -> (forall a, keeps P (f a)) -> keeps P (bind m f).
Proof.
  intros Hm Hf s H. unfold bind. specialize (Hm s H).
  destruct (m s) as [[a|e] s1]; cbn [snd] in *; [now apply Hf | exact Hm].
Qed.

Lemma keeps_for_acc {A} (P : state -> Prop) (lo hi : Z) (body : Z -> A -> M A) acc :
  (forall i a, keeps P (body i a)) -> keeps P (for_acc lo hi body acc).
Proof. intros Hb s. apply for_acc_always. intros i a st. apply Hb. Qed.

Lemma keeps_for_range (P : state -> Prop) (lo hi : Z) (body : Z -> M unit) :
  (forall i, keeps P (body i)) -> keeps P (for_range lo hi body).
Proof. intros Hb. apply keeps_for_acc. intros i _. apply Hb. Qed.

Lemma keeps_rdiv (P : state -> Prop) (x y : R) : keeps P (rdiv x y).
Proof. intros s H. unfold rdiv. now destruct (Req_dec_T y 0). Qed.

Lemma keeps_rd_cells (P : state -> Prop) idx k : keeps P (rd_cells idx k).
Proof. intros s H. exact H. Qed.
Lemma keeps_rd_tmp_cells (P : state -> Prop) idx k : keeps P (rd_tmp_cells idx k).
Proof. intros s H. exact H. Qed.
Lemma keeps_rd_obstacles (P : state -> Prop) idx : keeps P (rd_obstacles idx).
Proof. intros s H. exact H. Qed.
Lemma keeps_rd_obstacles_total (P : state -> Prop) idx : keeps P (rd_obstacles_total idx).
Proof. intros s H. exact H. Qed.
Lemma keeps_rd_av_vels (P : state -> Prop) idx : keeps P (rd_av_vels idx).
Proof. intros s H. exact H. Qed.

#[export] Hint Resolve keeps_ret keeps_fail keeps_die keeps_rdiv keeps_rd_cells
  keeps_rd_tmp_cells keeps_rd_obstacles keeps_rd_obstacles_total keeps_rd_av_vels : keeps.

(** Stores keep the trace. *)
Lemma keeps_trace_wr_cells T idx k v :
  keeps (fun st => trace st = T) (wr_cells idx k v).
Proof. intros s H. unfold wr_cells. now destruct (store _ _ _). Qed.
Lemma keeps_trace_wr_tmp_cells T idx k v :
  keeps (fun st => trace st = T) (wr_tmp_cells idx k v).
Proof. intros s H. unfold wr_tmp_cells. now destruct (store _ _ _). Qed.
Lemma keeps_trace_wr_obstacles T idx v :
  keeps (fun st => trace st = T) (wr_obstacles idx v).
Proof. intros s H. unfold wr_obstacles. now destruct (store _ _ _). Qed.
Lemma keeps_trace_wr_obstacles_total T idx v :
  keeps (fun st => trace st = T) (wr_obstacles_total idx v).
Proof. intros s H. unfold wr_obstacles_total. now destruct (store _ _ _). Qed.
Lemma keeps_trace_wr_av_vels T idx v :
  keeps (fun st => trace st = T) (wr_av_vels idx v).
Proof. intros s H. unfold wr_av_vels. now destruct (store _ _ _). Qed.

#[export] Hint Resolve keeps_trace_wr_cells keeps_trace_wr_tmp_cells
  keeps_trace_wr_obstacles keeps_trace_wr_obstacles_total keeps_trace_wr_av_vels : keeps.

(** Walk through a computation, one bind, loop or branch at a time. *)
Ltac keeps_step :=
  match goal with
  | |- keeps _ (bind _ _) => apply keeps_bind; [|intros ?]
  | |- keeps _ (for_range _ _ _) => apply keeps_for_range; intros ?
  | |- keeps _ (for_acc _ _ _ _) => apply keeps_for_acc; intros ? ?
  | |- keeps _ (if ?c then _ else _) => destruct c
  | |- keeps _ (match ?c with _ => _ end) => destruct c
  | |- keeps _ _ => solve [auto with keeps]
  end.
Ltac keeps_all := repeat keeps_step.

Lemma keeps_cell_density (P : state -> Prop) (rd : Z -> Z -> M R) idx :
  (forall i k, keeps P (rd i k)) -> keeps P (cell_density rd idx).
Proof. intros Hrd. unfold cell_density. keeps_all. Qed.

Lemma keeps_cell_u_x (P : state -> Prop) (rd : Z -> Z -> M R) idx ld :
  (forall i k, keeps P (rd i k)) -> keeps P (cell_u_x rd idx ld).
Proof. intros Hrd. unfold cell_u_x. keeps_all. Qed.

Lemma keeps_cell_u_y (P : state -> Prop) (rd : Z -> Z -> M R) idx ld :
  (forall i k, keeps P (rd i k)) -> keeps P (cell_u_y rd idx ld).
Proof. intros Hrd. unfold cell_u_y. keeps_all. Qed.

#[export] Hint Resolve keeps_cell_density keeps_cell_u_x keeps_cell_u_y : keeps.

Lemma emit_then {A} (e : event) (m : M A) (s : state) :
  bind (emit e) (fun _ => m) s = m (set_trace (trace s ++ [e]) s).
Proof. reflexivity. Qed.

Lemma accelerate_flow_trace (p : t_param) (s : state) :
  trace (snd (accelerate_flow p s)) = trace s ++ [EvAccelerate].
Proof.
  unfold accelerate_flow. rewrite emit_then.
  apply (keeps_for_range (fun st => trace st = trace s ++ [EvAccelerate])); [|reflexivity].
  intros ii. unfold accelerate_cell. keeps_all.
Qed.

Lemma propagate_trace (p : t_param) (s : state) :
  trace (snd (propagate p s)) = trace s ++ [EvPropagate].
Proof.
  unfold propagate. rewrite emit_then.
  apply (keeps_for_range (fun st => trace st = trace s ++ [EvPropagate])); [|reflexivity].
  intros jj. unfold propagate_cell. keeps_all.
Qed.

Lemma rebound_trace (p : t_param) (s : state) :
  trace (snd (rebound p s)) = trace s ++ [EvRebound].
Proof.
  unfold rebound. rewrite emit_then.
  apply (keeps_for_range (fun st => trace st = trace s ++ [EvRebound])); [|reflexivity].
  intros jj. unfold rebound_cell. keeps_all.
Qed.

Lemma collision_trace (p : t_param) (s : state) :
  trace (snd (collision p s)) = trace s ++ [EvCollision].
Proof.
  unfold collision. rewrite emit_then.
  apply (keeps_for_range (fun st => trace st = trace s ++ [EvCollision])); [|reflexivity].
  intros jj. unfold collision_cell. keeps_all.
Qed.

Lemma av_velocity_trace (p : t_param) (s : state) :
  trace (snd (av_velocity p s)) = trace s ++ [EvAvVelocity].
Proof.
  unfold av_velocity. rewrite emit_then.
  apply (keeps_bind (fun st => trace st = trace s ++ [EvAvVelocity])); [| |reflexivity].
  - unfold av_velocity_sums. keeps_all. unfold av_velocity_cell. keeps_all.
  - intros sums. keeps_all.
Qed.

(** * The schedule of the main loop *)

Lemma timestep_trace (p : t_param) (s : state) :
  match timestep p s with
  | (Ok _, s') =>
      trace s' = trace s ++ [EvAccelerate; EvPropagate; EvRebound; EvCollision]
  | (Err _, s') =>
      exists j, (j <= 4)%nat
        /\ trace s' = trace s ++ firstn j [EvAccelerate; EvPropagate; EvRebound; EvCollision]
  end.
Proof.
  unfold timestep, bind.
  pose proof (accelerate_flow_trace p s) as Ha.
  destruct (accelerate_flow p s) as [[[]|e] s1]; cbn [snd] in Ha;
    [|exists 1%nat; split; [lia | exact Ha]].
  pose proof (propagate_trace p s1) as Hp.
  destruct (propagate p s1) as [[[]|e] s2]; cbn [snd] in Hp; rewrite Ha in Hp;
    [|exists 2%nat; split; [lia | now rewrite <- app_assoc in Hp]].
  pose proof (rebound_trace p s2) as Hr.
  destruct (rebound p s2) as [[[]|e] s3]; cbn [snd] in Hr; rewrite Hp in Hr;
    [|exists 3%nat; split; [lia | now rewrite <- !app_assoc in Hr]].
  pose proof (collision_trace p s3) as Hc.
  destruct (collision p s3) as [[[]|e] s4]; cbn [snd] in Hc; rewrite Hr in Hc;
    [|exists 4%nat; split; [lia | now rewrite <- !app_assoc in Hc]].
  now rewrite <- !app_assoc in Hc.
Qed.

Lemma iteration_trace (p : t_param) (tt : Z) (s : state) :
  match (timestep p ;; av <- av_velocity p ;; wr_av_vels tt av)%m s with
  | (Ok _, s') => trace s' = trace s ++ iteration_events
  | (Err _, s') =>
      exists j, (j <= 5)%nat /\ trace s' = trace s ++ firstn j iteration_events
  end.
Proof.
  unfold bind at 1.
  pose proof (timestep_trace p s) as Ht.
  destruct (timestep p s) as [[[]|e] s1].
  - unfold bind.
    pose proof (av_velocity_trace p s1) as Hv.
    destruct (av_velocity p s1) as [[av|e] s2]; cbn [snd] in Hv; rewrite Ht in Hv;
      rewrite <- app_assoc in Hv.
    + pose proof (keeps_trace_wr_av_vels (trace s2) tt av s2 eq_refl) as Hw.
      destruct (wr_av_vels tt av s2) as [[[]|e] s3]; cbn [snd] in Hw; rewrite Hv in Hw.
      * exact Hw.
      * exists 5%nat. split; [lia | exact Hw].
    + exists 5%nat. split; [lia | exact Hv].
  - destruct Ht as (j & Hj & Ht). exists j. split; [lia|].
    rewrite Ht. f_equal.
    change iteration_events
      with ([EvAccelerate; EvPropagate; EvRebound; EvCollision] ++ [EvAvVelocity]).
    rewrite firstn_app.
    replace (j - length [EvAccelerate; EvPropagate; EvRebound; EvCollision])%nat
      with O by (cbn [length]; lia).
    cbn [firstn]. now rewrite app_nil_r.
Qed.

Lemma firstn_rounds {A} (round : list A) (i n j : nat) :
  (i < n)%nat -> (j <= length round)%nat ->
  firstn (i * length round + j) (concat (replicate n round))
  = concat (replicate i round) ++ firstn j round.
Proof.
  intros Hi Hj.
  replace n with (i + S (n - S i))%nat by lia.
  rewrite replicate_add, concat_app.
  assert (Hlen : length (concat (replicate i round)) = (i * length round)%nat).
  { clear. induction i as [|i IH]; [reflexivity|].
    cbn [replicate concat]. rewrite length_app, IH. lia. }
  rewrite firstn_app, Hlen.
  rewrite firstn_all2 by lia.
  replace (i * length round + j - i * length round)%nat with j by lia.
  f_equal. cbn [replicate concat].
  rewrite firstn_app. replace (j - length round)%nat with O by lia.
  cbn [firstn]. now rewrite app_nil_r.
Qed.

Lemma main_loop_trace (p : t_param) (s : state) :
  let n := Z.to_nat (maxIters p) in
  match main_loop p s with
  | (Ok _, s') => trace s' = trace s ++ concat (replicate n iteration_events)
  | (Err _, s') =>
      exists k, trace s' = trace s ++ firstn k (concat (replicate n iteration_events))
  end.
Proof.
  intros n. unfold main_loop.
  destruct (Z.le_gt_cases 0 (maxIters p)) as [Hpos|Hneg].
  - pose proof (for_range_outcome
      (fun tt => timestep p ;; av <- av_velocity p ;; wr_av_vels tt av)%m
      (fun i st => trace st = trace s ++ concat (replicate (Z.to_nat i) iteration_events))
      (fun st => exists k,
         trace st = trace s ++ firstn k (concat (replicate n iteration_events)))
      0 (maxIters p) s Hpos) as H.
    apply H; clear H.
    + cbn. now rewrite app_nil_r.
    + intros i st Hi HI.
      pose proof (iteration_trace p i st) as Hit.
      destruct ((timestep p ;; av <- av_velocity p ;; wr_av_vels i av)%m st)
        as [[[]|e] st'].
      * rewrite Hit, HI, <- app_assoc. f_equal.
        replace (Z.to_nat (i + 1)) with (Z.to_nat i + 1)%nat by lia.
        rewrite replicate_add, concat_app. cbn [replicate concat]. now rewrite app_nil_r.
      * destruct Hit as (j & Hj & Hit).
        exists (Z.to_nat i * length iteration_events + j)%nat.
        rewrite firstn_rounds by (subst n; cbn [length iteration_events]; lia).
        rewrite Hit, HI, <- app_assoc. reflexivity.
  - unfold for_range. rewrite for_acc_empty by lia.
    subst n. replace (Z.to_nat (maxIters p)) with O by lia.
    cbn. now rewrite app_nil_r.
Qed.

Lemma in_firstn_rounds {A} (round : list A) (n k : nat) (x : A) :
  In x (firstn k (concat (replicate n round))) -> In x round.
Proof.
  intros Hin.
  assert (Hall : In x (concat (replicate n round))).
  { rewrite <- (firstn_skipn k). apply in_or_app. now left. }
  clear Hin. induction n as [|n IH]; [contradiction|].
  cbn [replicate concat] in Hall. apply in_app_or in Hall.
  destruct Hall as [H|H]; [exact H | exact (IH H)].
Qed.

(** Stores and [emit] keep whatever does not depend on the block or trace
    they replace. *)
Lemma keeps_wr_cells (P : state -> Prop) idx k v :
  (forall c st, P st -> P (set_cells c st)) -> keeps P (wr_cells idx k v).
Proof. intros HP s H. unfold wr_cells. destruct (store _ _ _); [now apply HP | exact H]. Qed.
Lemma keeps_wr_tmp_cells (P : state -> Prop) idx k v :
  (forall c st, P st -> P (set_tmp_cells c st)) -> keeps P (wr_tmp_cells idx k v).
Proof. intros HP s H. unfold wr_tmp_cells. destruct (store _ _ _); [now apply HP | exact H]. Qed.
Lemma keeps_wr_obstacles (P : state -> Prop) idx v :
  (forall c st, P st -> P (set_obstacles c st)) -> keeps P (wr_obstacles idx v).
Proof. intros HP s H. unfold wr_obstacles. destruct (store _ _ _); [now apply HP | exact H]. Qed.
Lemma keeps_wr_obstacles_total (P : state -> Prop) idx v :
  (forall c st, P st -> P (set_obstacles_total c st)) -> keeps P (wr_obstacles_total idx v).
Proof. intros HP s H. unfold wr_obstacles_total. destruct (store _ _ _); [now apply HP | exact H]. Qed.
Lemma keeps_wr_av_vels (P : state -> Prop) idx v :
  (forall c st, P st -> P (set_av_vels c st)) -> keeps P (wr_av_vels idx v).
Proof. intros HP s H. unfold wr_av_vels. destruct (store _ _ _); [now apply HP | exact H]. Qed.
Lemma keeps_emit (P : state -> Prop) e :
  (forall t st, P st -> P (set_trace t st)) -> keeps P (emit e).
Proof. intros HP s H. now apply HP. Qed.
Lemma keeps_put (P : state -> Prop) (f : state -> state) :
  (forall st, P st -> P (f st)) -> keeps P (put f).
Proof. intros HP s H. now apply HP. Qed.

(** [keeps_all] with the frame conditions of the stores discharged by
    computation. *)
Ltac keeps_frame_step :=
  match goal with
  | |- keeps _ (wr_cells _ _ _) => apply keeps_wr_cells; intros ? ? ?; assumption
  | |- keeps _ (wr_tmp_cells _ _ _) => apply keeps_wr_tmp_cells; intros ? ? ?; assumption
  | |- keeps _ (wr_obstacles _ _) => apply keeps_wr_obstacles; intros ? ? ?; assumption
  | |- keeps _ (wr_obstacles_total _ _) =>
      apply keeps_wr_obstacles_total; intros ? ? ?; assumption
  | |- keeps _ (wr_av_vels _ _) => apply keeps_wr_av_vels; intros ? ? ?; assumption
  | |- keeps _ (emit _) => apply keeps_emit; intros ? ? ?; assumption
  | _ => keeps_step
  end.
Ltac keeps_frame := repeat keeps_frame_step.

(** The kernels leave the obstacle mask and the record of averages alone. *)
Lemma timestep_keeps_obstacles (p : t_param) (O : block Z) (V : block R) :
  keeps (fun st => obstacles st = O /\ av_vels st = V) (timestep p).
Proof.
  unfold timestep, accelerate_flow, propagate, rebound, collision,
    accelerate_cell, propagate_cell, rebound_cell, collision_cell.
  keeps_frame.
Qed.

(** * av_velocity *)

Lemma pure_cell_density (rd : Z -> Z -> M R) (idx : Z) (st st1 : state) (r : res R) :
  (forall i k, keeps (fun x => x = st) (rd i k)) ->
  cell_density rd idx st = (r, st1) -> st1 = st.
Proof.
  intros Hrd H. pose proof (keeps_cell_density (fun x => x = st) rd idx Hrd st eq_refl) as K.
  now rewrite H in K.
Qed.

Lemma pure_cell_u_x (rd : Z -> Z -> M R) (idx : Z) (ld : R) (st st1 : state) (r : res R) :
  (forall i k, keeps (fun x => x = st) (rd i k)) ->
  cell_u_x rd idx ld st = (r, st1) -> st1 = st.
Proof.
  intros Hrd H. pose proof (keeps_cell_u_x (fun x => x = st) rd idx ld Hrd st eq_refl) as K.
  now rewrite H in K.
Qed.

Lemma pure_cell_u_y (rd : Z -> Z -> M R) (idx : Z) (ld : R) (st st1 : state) (r : res R) :
  (forall i k, keeps (fun x => x = st) (rd i k)) ->
  cell_u_y rd idx ld st = (r, st1) -> st1 = st.
Proof.
  intros Hrd H. pose proof (keeps_cell_u_y (fun x => x = st) rd idx ld Hrd st eq_refl) as K.
  now rewrite H in K.
Qed.

Lemma av_velocity_cell_obstacle (p : t_param) (ii jj : Z) (acc : R * Z) (st : state) (o : Z) :
  load (obstacles st) (ii + jj * nx p) = Ok o -> o <> 0 ->
  av_velocity_cell p ii jj acc st = (Ok acc, st).
Proof.
  intros Ho Hne. unfold av_velocity_cell, bind, rd_obstacles. rewrite Ho.
  destruct (Z.eqb_spec o 0); [contradiction | reflexivity].
Qed.

Lemma av_velocity_cell_inv (p : t_param) (ii jj : Z) (a a1 : R * Z) (st st1 : state) :
  av_velocity_cell p ii jj a st = (Ok a1, st1) ->
  st1 = st
  /\ exists o, load (obstacles st) (ii + jj * nx p) = Ok o
               /\ ((o <> 0 /\ a1 = a) \/ (o = 0 /\ snd a1 = snd a + 1)).
Proof.
  unfold av_velocity_cell, bind, rd_obstacles.
  destruct (load (obstacles st) (ii + jj * nx p)) as [o|e] eqn:Ho; [|discriminate].
  destruct (Z.eqb_spec o 0) as [Hz|Hnz]; cbn [negb].
  - destruct (cell_density rd_cells (ii + jj * nx p) st) as [[ld|e] s1] eqn:E1; [|discriminate].
    apply pure_cell_density in E1; [|intros; apply keeps_rd_cells]. subst s1.
    destruct (cell_u_x rd_cells (ii + jj * nx p) ld st) as [[ux|e] s2] eqn:E2; [|discriminate].
    apply pure_cell_u_x in E2; [|intros; apply keeps_rd_cells]. subst s2.
    destruct (cell_u_y rd_cells (ii + jj * nx p) ld st) as [[uy|e] s3] eqn:E3; [|discriminate].
    apply pure_cell_u_y in E3; [|intros; apply keeps_rd_cells]. subst s3.
    intros [= <- <-]. split; [reflexivity|]. exists o. split; [reflexivity|].
    right. split; [exact Hz | reflexivity].
  - intros [= <- <-]. split; [reflexivity|]. exists o. split; [reflexivity|].
    left. split; [exact Hnz | reflexivity].
Qed.

Lemma av_velocity_sums_all_obstacles (p : t_param) (s : state) :
  0 <= nx p -> 0 <= ny p ->
  written_upto (obstacles s) (nx p * ny p) = true ->
  (forall idx, 0 <= idx < nx p * ny p -> load (obstacles s) idx <> Ok 0) ->
  av_velocity_sums p s = (Ok (0%R, 0), s).
Proof.
  intros Hnx Hny Hw Hall. unfold av_velocity_sums.
  destruct (grid_acc_total (fun _ a st => a = (0%R, 0) /\ st = s) (nx p) 0 (ny p)
              (av_velocity_cell p) (0%R, 0) s Hnx Hny) as (a' & s' & Hrun & -> & ->).
  - split; reflexivity.
  - intros ii jj a st Hii Hjj [-> ->].
    assert (Hb := cell_index_bound (nx p) (ny p) ii jj Hii Hjj).
    destruct (written_upto_load (obstacles s) _ (ii + jj * nx p) Hw Hb) as [o Ho].
    exists (0%R, 0), s. split; [|split; reflexivity].
    apply (av_velocity_cell_obstacle p ii jj _ s o Ho).
    intros ->. exact (Hall _ Hb Ho).
  - exact Hrun.
Qed.

Lemma av_velocity_sums_count (p : t_param) (s s' : state) (tot_u : R) (tot_cells : Z) :
  0 <= nx p -> 0 <= ny p ->
  av_velocity_sums p s = (Ok (tot_u, tot_cells), s') ->
  s' = s /\ 0 <= tot_cells
  /\ (0 < tot_cells <->
      exists idx, 0 <= idx < nx p * ny p /\ load (obstacles s) idx = Ok 0).
Proof.
  intros Hnx Hny Hrun. unfold av_velocity_sums in Hrun.
  pose (I := fun (n : Z) (a : R * Z) (st : state) =>
    st = s /\ 0 <= snd a
    /\ (0 < snd a <-> exists idx, 0 <= idx < n /\ load (obstacles s) idx = Ok 0)).
  assert (HI : I (ny p * nx p) (tot_u, tot_cells) s').
  { apply (grid_acc_partial I (nx p) 0 (ny p) (av_velocity_cell p) (0%R, 0) s
             (tot_u, tot_cells) s' Hnx Hny Hrun).
    - unfold I. cbn [snd]. repeat split; try lia. intros (idx & Hidx & _). lia.
    - intros ii jj a st a1 st1 Hii Hjj (-> & Hpos & Hiff) Hb.
      assert (Hlo : 0 <= ii + jj * nx p) by nia.
      apply av_velocity_cell_inv in Hb.
      destruct Hb as (-> & o & Ho & [[Hne ->]|[-> Hs]]).
      + unfold I. repeat split; auto.
        * intros H. apply Hiff in H. destruct H as (idx & Hidx & Hl).
          exists idx. split; [lia | exact Hl].
        * intros (idx & Hidx & Hl). apply Hiff.
          destruct (Z.eq_dec idx (ii + jj * nx p)) as [->|Hd].
          -- rewrite Ho in Hl. injection Hl as ->. contradiction.
          -- exists idx. split; [lia | exact Hl].
      + unfold I. rewrite Hs. repeat split; try lia.
        intros _. exists (ii + jj * nx p). split; [lia | exact Ho]. }
  destruct HI as (-> & Hpos & Hiff). cbn [snd] in *.
  replace (nx p * ny p) with (ny p * nx p) by lia. auto.
Qed.

Lemma av_velocity_all_obstacles (p : t_param) (s : state) :
  0 <= nx p -> 0 <= ny p ->
  written_upto (obstacles s) (nx p * ny p) = true ->
  (forall idx, 0 <= idx < nx p * ny p -> load (obstacles s) idx <> Ok 0) ->
  fst (av_velocity p s) = Err DivByZero.
Proof.
  intros Hnx Hny Hw Hall. unfold av_velocity. rewrite emit_then. unfold bind.
  rewrite av_velocity_sums_all_obstacles; auto.
  cbn [fst snd]. now rewrite rdiv_zero.
Qed.

Lemma av_velocity_ok_fluid (p : t_param) (s s' : state) (v : R) :
  0 <= nx p -> 0 <= ny p ->
  av_velocity p s = (Ok v, s') ->
  exists idx, 0 <= idx < nx p * ny p /\ load (obstacles s) idx = Ok 0.
Proof.
  intros Hnx Hny. unfold av_velocity. rewrite emit_then. unfold bind.
  destruct (av_velocity_sums p _) as [[[tu tc]|e] s1] eqn:E; [|discriminate].
  apply av_velocity_sums_count in E; auto.
  destruct E as (-> & Hpos & Hiff). cbn [fst snd obstacles set_trace] in *.
  intros Hd. apply rdiv_inv in Hd. destruct Hd as (Hne & _ & _).
  apply Hiff. assert (tc <> 0) by (intros ->; apply Hne; reflexivity). lia.
Qed.

Lemma calc_reynolds_all_obstacles (p : t_param) (s : state) :
  0 <= nx p -> 0 <= ny p ->
  written_upto (obstacles s) (nx p * ny p) = true ->
  (forall idx, 0 <= idx < nx p * ny p -> load (obstacles s) idx <> Ok 0) ->
  fst (calc_reynolds p s) = Err DivByZero.
Proof.
  intros Hnx Hny Hw Hall. unfold calc_reynolds, bind at 1.
  unfold rdiv at 1. destruct (Req_dec_T (omega p) 0); [reflexivity|].
  cbn [ret]. unfold bind.
  pose proof (av_velocity_all_obstacles p s Hnx Hny Hw Hall) as Hav.
  destruct (av_velocity p s) as [[v|e] s1]; cbn [fst] in *; [discriminate|].
  now injection Hav as ->.
Qed.

Lemma main_loop_all_obstacles (p : t_param) (s : state) :
  0 <= nx p -> 0 <= ny p -> 0 < maxIters p ->
  written_upto (obstacles s) (nx p * ny p) = true ->
  (forall idx, 0 <= idx < nx p * ny p -> load (obstacles s) idx <> Ok 0) ->
  (exists e, fst (main_loop p s) = Err e)
  /\ av_vels (snd (main_loop p s)) = av_vels s.
Proof.
  intros Hnx Hny Hit Hw Hall. unfold main_loop.
  pose proof (for_range_outcome
    (fun tt => timestep p ;; av <- av_velocity p ;; wr_av_vels tt av)%m
    (fun i st => i = 0 /\ obstacles st = obstacles s /\ av_vels st = av_vels s)
    (fun st => av_vels st = av_vels s)
    0 (maxIters p) s ltac:(lia) (conj eq_refl (conj eq_refl eq_refl))) as H.
  match type of H with ?A -> _ => assert (Hstep : A) end.
  { intros i st Hi (-> & Ho & Hv). unfold bind at 1.
    pose proof (timestep_keeps_obstacles p (obstacles s) (av_vels s) st (conj Ho Hv)) as K.
    destruct (timestep p st) as [[[]|e] s1]; cbn [snd] in K; [|tauto].
    destruct K as [Ho1 Hv1]. unfold bind.
    assert (Hav : fst (av_velocity p s1) = Err DivByZero).
    { apply av_velocity_all_obstacles; auto; rewrite Ho1; auto. }
    assert (Kv : av_vels (snd (av_velocity p s1)) = av_vels s).
    { apply (keeps_bind (fun st => av_vels st = av_vels s)); auto.
      - apply keeps_emit. intros t st0 H0. exact H0.
      - intros _. unfold av_velocity_sums, av_velocity_cell. keeps_frame. }
    destruct (av_velocity p s1) as [[v|e] s2]; cbn [fst snd] in *; [discriminate|].
    exact Kv. }
  specialize (H Hstep).
  destruct (for_range 0 (maxIters p) _ s) as [[[]|e] s'] eqn:E; cbn [fst snd].
  - destruct H as (H0 & _). lia.
  - split; [now exists e | exact H].
Qed.

Lemma av_velocity_cell_fluid (p : t_param) (ii jj : Z) (acc : R * Z) (st : state)
    (v0 v1 v2 v3 v4 v5 v6 v7 v8 : R) :
  load (obstacles st) (ii + jj * nx p) = Ok 0 ->
  cell_holds (cells st) (ii + jj * nx p) v0 v1 v2 v3 v4 v5 v6 v7 v8 ->
  sum9 v0 v1 v2 v3 v4 v5 v6 v7 v8 <> 0%R ->
  exists u, av_velocity_cell p ii jj acc st = (Ok ((fst acc + u)%R, snd acc + 1), st).
Proof.
  intros Ho Hc Hsum. unfold av_velocity_cell.
  unfold bind at 1. unfold rd_obstacles. rewrite Ho. cbn [Z.eqb negb].
  pose proof (rd_cells_holds st _ _ _ _ _ _ _ _ _ _ Hc) as Hrd.
  unfold bind.
  rewrite (cell_density_run rd_cells _ st _ _ _ _ _ _ _ _ _ Hrd).
  rewrite (cell_u_x_run rd_cells _ st _ _ _ _ _ _ _ _ _ Hrd _ Hsum).
  rewrite (cell_u_y_run rd_cells _ st _ _ _ _ _ _ _ _ _ Hrd _ Hsum).
  eexists. reflexivity.
Qed.

Lemma av_velocity_sums_run (p : t_param) (s : state) :
  0 <= nx p -> 0 <= ny p ->
  written_upto (obstacles s) (nx p * ny p) = true ->
  written_upto (cells s) (nx p * ny p * NSPEEDS) = true ->
  (forall idx, 0 <= idx < nx p * ny p -> is_fluid (obstacles s) idx ->
     cell_sum (cells s) idx <> 0%R) ->
  exists tot_u tot_cells, av_velocity_sums p s = (Ok (tot_u, tot_cells), s).
Proof.
  intros Hnx Hny Hwo Hwc Hrho. unfold av_velocity_sums.
  destruct (grid_acc_total (fun _ _ st => st = s) (nx p) 0 (ny p)
              (av_velocity_cell p) (0%R, 0) s Hnx Hny eq_refl) as ([tu tc] & s' & Hrun & ->).
  - intros ii jj a st Hii Hjj ->.
    assert (Hb := cell_index_bound (nx p) (ny p) ii jj Hii Hjj).
    destruct (written_upto_load (obstacles s) _ (ii + jj * nx p) Hwo Hb) as [o Ho].
    destruct (Z.eq_dec o 0) as [->|Hne].
    + destruct (cell_holds_exists (cells s) (nx p * ny p) (ii + jj * nx p) Hwc Hb)
        as (v0 & v1 & v2 & v3 & v4 & v5 & v6 & v7 & v8 & Hc).
      destruct (av_velocity_cell_fluid p ii jj a s v0 v1 v2 v3 v4 v5 v6 v7 v8 Ho Hc)
        as [u Hu].
      { rewrite <- (cell_sum_holds _ _ _ _ _ _ _ _ _ _ _ Hc). now apply Hrho. }
      eexists _, s. split; [exact Hu | reflexivity].
    + exists a, s. split; [|reflexivity].
      now apply (av_velocity_cell_obstacle p ii jj a s o).
  - now exists tu, tc.
Qed.

Lemma av_velocity_run (p : t_param) (s : state) :
  0 <= nx p -> 0 <= ny p ->
  written_upto (obstacles s) (nx p * ny p) = true ->
  written_upto (cells s) (nx p * ny p * NSPEEDS) = true ->
  (forall idx, 0 <= idx < nx p * ny p -> is_fluid (obstacles s) idx ->
     cell_sum (cells s) idx <> 0%R) ->
  (exists idx, 0 <= idx < nx p * ny p /\ load (obstacles s) idx = Ok 0) ->
  exists v, av_velocity p s = (Ok v, set_trace (trace s ++ [EvAvVelocity]) s).
Proof.
  intros Hnx Hny Hwo Hwc Hrho Hfl.
  destruct (av_velocity_sums_run p (set_trace (trace s ++ [EvAvVelocity]) s))
    as (tu & tc & Hrun); auto.
  pose proof Hrun as Hcount.
  apply av_velocity_sums_count in Hcount; auto.
  destruct Hcount as (_ & _ & Hiff). cbn [obstacles set_trace] in Hiff.
  assert (Hpos : 0 < tc) by (now apply Hiff).
  exists (tu / IZR tc)%R.
  unfold av_velocity. rewrite emit_then. unfold bind. rewrite Hrun. cbn [fst snd].
  apply rdiv_ok. apply not_0_IZR. lia.
Qed.

(** * write_values *)

Lemma write_final_state_cell_run (p : t_param) (ii jj : Z) (out : list state_line)
    (st : state) (o flag : Z) :
  load (obstacles st) (ii + jj * nx p) = Ok o ->
  load (obstacles st) (ii * nx p + jj) = Ok flag ->
  (o = 0 -> (exists v0 v1 v2 v3 v4 v5 v6 v7 v8,
               cell_holds (cells st) (ii + jj * nx p) v0 v1 v2 v3 v4 v5 v6 v7 v8)
            /\ cell_sum (cells st) (ii + jj * nx p) <> 0%R) ->
  exists u_x u_y u pressure,
    write_final_state_cell p ii jj out st
    = (Ok (out ++ [mk_line ii jj u_x u_y u pressure flag]), st).
Proof.
  intros Ho Hf Hfluid. unfold write_final_state_cell.
  unfold bind at 1. unfold rd_obstacles at 1. rewrite Ho.
  destruct (Z.eqb_spec o 0) as [Hz|Hnz]; cbn [negb].
  - destruct (Hfluid Hz) as [(v0 & v1 & v2 & v3 & v4 & v5 & v6 & v7 & v8 & Hc) Hsum].
    rewrite (cell_sum_holds _ _ _ _ _ _ _ _ _ _ _ Hc) in Hsum.
    pose proof (rd_cells_holds st _ _ _ _ _ _ _ _ _ _ Hc) as Hrd.
    unfold bind.
    rewrite (cell_density_run rd_cells _ st _ _ _ _ _ _ _ _ _ Hrd).
    rewrite (cell_u_x_run rd_cells _ st _ _ _ _ _ _ _ _ _ Hrd _ Hsum).
    rewrite (cell_u_y_run rd_cells _ st _ _ _ _ _ _ _ _ _ Hrd _ Hsum).
    cbn [ret]. unfold rd_obstacles. rewrite Hf. cbn [fst snd].
    eexists _, _, _, _. reflexivity.
  - unfold bind. cbn [ret]. unfold rd_obstacles. rewrite Hf. cbn [fst snd].
    eexists _, _, _, _. reflexivity.
Qed.

Lemma write_final_state_flags (p : t_param) (s : state) (N : Z) :
  0 <= nx p -> 0 <= ny p ->
  written_upto (obstacles s) N = true ->
  nx p * ny p <= N ->
  (forall i j, 0 <= i < nx p -> 0 <= j < ny p -> i * nx p + j < N) ->
  written_upto (cells s) (nx p * ny p * NSPEEDS) = true ->
  (forall idx, 0 <= idx < nx p * ny p -> is_fluid (obstacles s) idx ->
     cell_sum (cells s) idx <> 0%R) ->
  exists final_state,
    write_final_state p s = (Ok final_state, s)
    /\ Z.of_nat (length final_state) = nx p * ny p
    /\ forall i j, 0 <= i < nx p -> 0 <= j < ny p ->
       exists line, final_state !! Z.to_nat (i + j * nx p) = Some line
                    /\ l_ii line = i /\ l_jj line = j
                    /\ load (obstacles s) (i * nx p + j) = Ok (l_obstacle line).
Proof.
  intros Hnx Hny Hwo HN Htr Hwc Hrho. unfold write_final_state.
  pose (I := fun (n : Z) (out : list state_line) (st : state) =>
    st = s /\ Z.of_nat (length out) = n
    /\ forall i j, 0 <= i < nx p -> 0 <= j < ny p -> i + j * nx p < n ->
       exists line, out !! Z.to_nat (i + j * nx p) = Some line
                    /\ l_ii line = i /\ l_jj line = j
                    /\ load (obstacles s) (i * nx p + j) = Ok (l_obstacle line)).
  destruct (grid_acc_total I (nx p) 0 (ny p) (write_final_state_cell p) [] s Hnx Hny)
    as (out & s' & Hrun & -> & Hlen & Hlines).
  - unfold I. repeat split. intros i j Hi Hj Hlt. exfalso. nia.
  - intros ii jj out st Hii Hjj (-> & Hlen & Hlines).
    assert (Hb := cell_index_bound (nx p) (ny p) ii jj Hii Hjj).
    destruct (written_upto_load (obstacles s) N (ii + jj * nx p) Hwo) as [o Ho]; [lia|].
    destruct (written_upto_load (obstacles s) N (ii * nx p + jj) Hwo) as [flag Hf].
    { split; [nia | now apply Htr]. }
    destruct (write_final_state_cell_run p ii jj out s o flag Ho Hf)
      as (u_x & u_y & u & pr & Hcell).
    { intros ->. split.
      - apply (cell_holds_exists (cells s) (nx p * ny p)); [exact Hwc | exact Hb].
      - apply Hrho; [exact Hb | exact Ho]. }
    eexists _, s. split; [exact Hcell|]. unfold I.
    split; [reflexivity|]. split; [rewrite length_app; cbn [length]; lia|].
    intros i j Hi Hj Hlt.
    destruct (Z.eq_dec (i + j * nx p) (ii + jj * nx p)) as [Heq|Hne].
    + destruct (cell_index_inj (nx p) i j ii jj Hi Hii Heq) as [-> ->].
      eexists. split.
      * rewrite lookup_app_r by lia.
        replace (Z.to_nat (ii + jj * nx p) - length out)%nat with O by lia. reflexivity.
      * cbn [l_ii l_jj l_obstacle]. auto.
    + destruct (Hlines i j Hi Hj ltac:(lia)) as (line & Hl & Hrest).
      exists line. split; [|exact Hrest].
      rewrite lookup_app_l; [exact Hl|]. apply lookup_lt_Some in Hl. exact Hl.
  - exists out. split; [exact Hrun|]. split; [lia|].
    intros i j Hi Hj. apply Hlines; auto.
    assert (Hb := cell_index_bound (nx p) (ny p) i j Hi Hj). lia.
Qed.

(** * initialise *)

Lemma load_replicate_None {A} (n m : Z) :
  0 <= m < n -> load (replicate (Z.to_nat n) (@None A)) m = Err Uninitialised.
Proof.
  intros Hm. unfold load. destruct (Z.ltb_spec m 0); [lia|].
  rewrite lookup_replicate_2 by lia. reflexivity.
Qed.

Lemma wr_cells_inv (idx k : Z) (v : R) (st st1 : state) :
  wr_cells idx k v st = (Ok tt, st1) ->
  0 <= at_speed idx k < Z.of_nat (length (cells st))
  /\ st1 = set_cells (<[Z.to_nat (at_speed idx k) := Some v]> (cells st)) st.
Proof.
  unfold wr_cells. destruct (store _ _ _) as [c|e] eqn:E; [|discriminate].
  apply store_inv in E. destruct E as [Hb ->]. intros [= <-]. auto.
Qed.

Lemma alloc_or_die_inv {A} (width n : Z) (msg : string) (s s1 : state) (b : block A) :
  alloc_or_die width n msg s = (Ok b, s1) ->
  0 <= n /\ b = replicate (Z.to_nat (n * width)) None /\ s1 = s.
Proof.
  unfold alloc_or_die, malloc. destruct (Z.ltb_spec n 0); [discriminate|].
  intros [= <- <-]. auto.
Qed.

Lemma allocate_inv (p : t_param) (local_ny : Z) (s s1 : state) :
  allocate p local_ny s = (Ok tt, s1) ->
  0 <= (local_ny + 2) * nx p /\ 0 <= ny p * nx p /\ 0 <= local_ny * nx p
  /\ 0 <= maxIters p
  /\ cells s1 = replicate (Z.to_nat ((local_ny + 2) * nx p * NSPEEDS)) None
  /\ tmp_cells s1 = replicate (Z.to_nat ((local_ny + 2) * nx p * NSPEEDS)) None
  /\ obstacles_total s1 = replicate (Z.to_nat (ny p * nx p * 1)) None
  /\ obstacles s1 = replicate (Z.to_nat (local_ny * nx p * 1)) None
  /\ av_vels s1 = replicate (Z.to_nat (maxIters p * 1)) None
  /\ trace s1 = trace s.
Proof.
  unfold allocate, bind, put.
  destruct (alloc_or_die NSPEEDS _ _ s) as [[c|e] s0] eqn:E1; [|discriminate].
  apply alloc_or_die_inv in E1. destruct E1 as (H1 & -> & ->).
  destruct (alloc_or_die NSPEEDS _ _ _) as [[t|e] s0] eqn:E2; [|discriminate].
  apply alloc_or_die_inv in E2. destruct E2 as (H2 & -> & ->).
  destruct (alloc_or_die 1 _ _ _) as [[ot|e] s0] eqn:E3; [|discriminate].
  apply alloc_or_die_inv in E3. destruct E3 as (H3 & -> & ->).
  destruct (alloc_or_die 1 _ _ _) as [[o|e] s0] eqn:E4; [|discriminate].
  apply alloc_or_die_inv in E4. destruct E4 as (H4 & -> & ->).
  destruct (alloc_or_die 1 _ _ _) as [[av|e] s0] eqn:E5; [|discriminate].
  apply alloc_or_die_inv in E5. destruct E5 as (H5 & -> & ->).
  intros [= <-]. cbn. repeat split; auto.
Qed.

Lemma init_cell_inv (p : t_param) (a0 a1 a2 : R) (ii jj : Z) (st st1 : state) :
  init_cell p a0 a1 a2 ii jj st = (Ok tt, st1) ->
  0 <= ii + jj * nx p
  /\ (ii + jj * nx p + 1) * NSPEEDS <= Z.of_nat (length (cells st))
  /\ st1 = set_cells (cell_with (cells st) (ii + jj * nx p) a0 a1 a1 a1 a1 a2 a2 a2 a2) st.
Proof.
  unfold init_cell, bind.
  destruct (wr_cells _ 0 _ st) as [[[]|e] s0] eqn:E0; [|discriminate].
  apply wr_cells_inv in E0. destruct E0 as [B0 ->].
  destruct (wr_cells _ 1 _ _) as [[[]|e] s1] eqn:E1; [|discriminate].
  apply wr_cells_inv in E1. destruct E1 as [B1 ->].
  destruct (wr_cells _ 2 _ _) as [[[]|e] s2] eqn:E2; [|discriminate].
  apply wr_cells_inv in E2. destruct E2 as [B2 ->].
  destruct (wr_cells _ 3 _ _) as [[[]|e] s3] eqn:E3; [|discriminate].
  apply wr_cells_inv in E3. destruct E3 as [B3 ->].
  destruct (wr_cells _ 4 _ _) as [[[]|e] s4] eqn:E4; [|discriminate].
  apply wr_cells_inv in E4. destruct E4 as [B4 ->].
  destruct (wr_cells _ 5 _ _) as [[[]|e] s5] eqn:E5; [|discriminate].
  apply wr_cells_inv in E5. destruct E5 as [B5 ->].
  destruct (wr_cells _ 6 _ _) as [[[]|e] s6] eqn:E6; [|discriminate].
  apply wr_cells_inv in E6. destruct E6 as [B6 ->].
  destruct (wr_cells _ 7 _ _) as [[[]|e] s7] eqn:E7; [|discriminate].
  apply wr_cells_inv in E7. destruct E7 as [B7 ->].
  intros E8. apply wr_cells_inv in E8. destruct E8 as [B8 ->].
  cbn [cells set_cells] in *. rewrite !length_insert in B8.
  unfold at_speed, NSPEEDS in *. repeat split; try lia.
Qed.

(** After [init_densities]: rows 1 .. local_ny hold the rest equilibrium,
    every other slot of the primary grid is as it was. *)
Lemma init_densities_inv (p : t_param) (local_ny : Z) (s s' : state) :
  0 <= nx p -> 0 <= local_ny ->
  init_densities p local_ny s = (Ok tt, s') ->
  tmp_cells s' = tmp_cells s /\ obstacles s' = obstacles s
  /\ obstacles_total s' = obstacles_total s /\ av_vels s' = av_vels s
  /\ trace s' = trace s
  /\ length (cells s') = length (cells s)
  /\ (forall m, m < nx p * NSPEEDS \/ (local_ny + 1) * nx p * NSPEEDS <= m ->
        load (cells s') m = load (cells s) m)
  /\ (forall i j, 0 <= i < nx p -> 1 <= j <= local_ny ->
        cell_holds (cells s') (i + j * nx p)
          (density p * 4 / 9) (density p / 9) (density p / 9) (density p / 9)
          (density p / 9) (density p / 36) (density p / 36) (density p / 36)
          (density p / 36)).
Proof.
  intros Hnx Hl Hrun. unfold init_densities in Hrun. cbn zeta in Hrun.
  pose (I := fun (n : Z) (st : state) =>
    tmp_cells st = tmp_cells s /\ obstacles st = obstacles s
    /\ obstacles_total st = obstacles_total s /\ av_vels st = av_vels s
    /\ trace st = trace s
    /\ length (cells st) = length (cells s)
    /\ (forall m, m < nx p * NSPEEDS \/ n * NSPEEDS <= m ->
          load (cells st) m = load (cells s) m)
    /\ (forall i j, 0 <= i < nx p -> 1 <= j -> i + j * nx p < n ->
          cell_holds (cells st) (i + j * nx p)
            (density p * 4 / 9) (density p / 9) (density p / 9) (density p / 9)
            (density p / 9) (density p / 36) (density p / 36) (density p / 36)
            (density p / 36))).
  assert (HI : I ((local_ny + 1) * nx p) s').
  { apply (grid_partial I (nx p) 1 (local_ny + 1) _ s s' Hnx ltac:(lia) Hrun).
    - unfold I. repeat split; auto. intros i j Hi Hj Hlt. exfalso. nia.
    - intros ii jj st st1 Hii Hjj (Ht & Ho & Hot & Hav & Htr & Hlen & Hout & Hin) Hb.
      apply init_cell_inv in Hb. destruct Hb as (Hidx & Hroom & ->).
      unfold I. cbn [tmp_cells obstacles obstacles_total av_vels trace cells set_cells].
      rewrite length_cell_with. repeat split; auto.
      + intros m Hm. rewrite load_cell_with_other; auto.
        * apply Hout. unfold NSPEEDS in *. nia.
        * unfold NSPEEDS in *. nia.
      + intros i j Hi Hj Hlt k Hk.
        destruct (Z.eq_dec (i + j * nx p) (ii + jj * nx p)) as [Heq|Hne].
        * rewrite Heq. now rewrite load_cell_with.
        * rewrite load_cell_with_other; auto.
          -- apply Hin; auto. lia.
          -- left. unfold at_speed, NSPEEDS in *. lia. }
  destruct HI as (Ht & Ho & Hot & Hav & Htr & Hlen & Hout & Hin).
  repeat split; auto.
  - intros i j Hi Hj. apply Hin; auto; try lia. nia.
Qed.

(** The obstacle phases leave the grids alone. *)
Lemma read_obstacles_keeps_cells (p : t_param) (lines : list obstacle_line) (C : block R) :
  keeps (fun st => cells st = C) (read_obstacles p lines).
Proof.
  induction lines as [|[xx yy blocked|] rest IH]; cbn [read_obstacles]; keeps_frame.
Qed.

Lemma obstacle_phases_keep_cells (p : t_param) (local_ny : Z)
    (lines : list obstacle_line) (C : block R) :
  keeps (fun st => cells st = C)
    (zero_obstacles_total p ;; read_obstacles p lines ;;
     copy_local_obstacles p local_ny ;; ret p)%m.
Proof.
  unfold zero_obstacles_total, copy_local_obstacles.
  apply keeps_bind; [keeps_frame|]. intros _.
  apply keeps_bind; [apply read_obstacles_keeps_cells|]. intros _.
  keeps_frame.
Qed.

Lemma load_params_inv (paramfile : option param_file) (s s1 : state) (p : t_param) :
  load_params paramfile s = (Ok p, s1) -> s1 = s.
Proof.
  intros H.
  destruct paramfile as [[[a|] [b|] [c|] [d|] [e|] [f|] [g|]]|];
    cbn in H; try discriminate.
  now injection H.
Qed.

(** What a successful [initialise] has done to the primary grid. *)
Lemma initialise_cells (paramfile : option param_file)
    (obstaclefile : option (list obstacle_line)) (size : Z) (s st : state) (p : t_param) :
  initialise paramfile obstaclefile size s = (Ok p, st) ->
  0 < nx p ->
  let local_ny := Z.quot (ny p) size in
  0 <= local_ny /\ 0 <= ny p
  /\ Z.of_nat (length (cells st)) = (local_ny + 2) * nx p * NSPEEDS
  /\ (forall m, 0 <= m < nx p * NSPEEDS
                \/ (local_ny + 1) * nx p * NSPEEDS <= m < (local_ny + 2) * nx p * NSPEEDS ->
        load (cells st) m = Err Uninitialised)
  /\ (forall i j, 0 <= i < nx p -> 1 <= j <= local_ny ->
        cell_holds (cells st) (i + j * nx p)
          (density p * 4 / 9) (density p / 9) (density p / 9) (density p / 9)
          (density p / 9) (density p / 36) (density p / 36) (density p / 36)
          (density p / 36)).
Proof.
  intros Hrun Hnx local_ny. unfold initialise in Hrun.
  unfold bind at 1 in Hrun.
  destruct (load_params paramfile s) as [[p0|e] s0] eqn:Ep; [|discriminate].
  apply load_params_inv in Ep. subst s0. cbn zeta in Hrun.
  unfold bind at 1 in Hrun.
  destruct (allocate p0 _ s) as [[[]|e] s1] eqn:Ea; [|discriminate].
  unfold bind at 1 in Hrun.
  destruct (init_densities p0 _ s1) as [[[]|e] s2] eqn:Ei; [|discriminate].
  assert (Hp : p0 = p /\ cells st = cells s2).
  { destruct obstaclefile as [lines|].
    - pose proof (obstacle_phases_keep_cells p0 (Z.quot (ny p0) size) lines (cells s2)
                    s2 eq_refl) as K.
      unfold bind in K, Hrun.
      destruct (zero_obstacles_total p0 s2) as [[[]|e] s3]; [|discriminate].
      destruct (read_obstacles p0 lines s3) as [[[]|e] s4]; [|discriminate].
      destruct (copy_local_obstacles p0 _ s4) as [[[]|e] s5]; [|discriminate].
      cbn [ret snd] in K. injection Hrun as -> ->. auto.
    - unfold bind in Hrun.
      destruct (zero_obstacles_total p0 s2) as [[[]|e] s3]; discriminate. }
  destruct Hp as [-> Hc]. fold local_ny in Ea, Ei.
  apply allocate_inv in Ea.
  destruct Ea as (A1 & A2 & A3 & _ & Hcells & _).
  assert (Hl : 0 <= local_ny) by nia.
  assert (Hny : 0 <= ny p) by nia.
  apply init_densities_inv in Ei; [|lia|exact Hl].
  destruct Ei as (_ & _ & _ & _ & _ & Hlen & Hout & Hin).
  rewrite Hc. split; [exact Hl|]. split; [exact Hny|]. split; [|split].
  - rewrite Hlen, Hcells, length_replicate. unfold NSPEEDS. nia.
  - intros m Hm. rewrite Hout by lia. rewrite Hcells.
    apply load_replicate_None. unfold NSPEEDS in *. nia.
  - exact Hin.
Qed.

(** * The first propagate *)

Lemma for_range_first_fails (lo hi : Z) (body : Z -> M unit) (s : state) (e : error) :
  lo < hi -> fst (body lo s) = Err e -> fst (for_range lo hi body s) = Err e.
Proof.
  intros Hlt Hb. unfold for_range, for_acc.
  replace (Z.to_nat (hi - lo)) with (S (Z.to_nat (hi - lo - 1))) by lia.
  cbn [for_from]. unfold bind.
  destruct (body lo s) as [[[]|e'] s1]; cbn [fst] in *; [discriminate | exact Hb].
Qed.

Lemma propagate_reads_slot_0 (p : t_param) (s : state) :
  0 < nx p -> 0 < ny p ->
  load (cells s) 0 = Err Uninitialised ->
  fst (propagate p s) = Err Uninitialised.
Proof.
  intros Hnx Hny H0. unfold propagate. rewrite emit_then.
  apply for_range_first_fails; [exact Hny|].
  apply for_range_first_fails; [exact Hnx|].
  unfold propagate_cell, bind, rd_cells.
  cbn [cells set_trace].
  change (at_speed (0 + 0 * nx p) 0) with 0. now rewrite H0.
Qed.

(** [accelerate_flow] never stores to speed 0 of a cell, so slot 0 of the
    primary grid is as unwritten after it as before. *)
Lemma keeps_slot_0_wr_cells (idx k : Z) (v : R) :
  1 <= k < NSPEEDS ->
  keeps (fun st => load (cells st) 0 = Err Uninitialised) (wr_cells idx k v).
Proof.
  intros Hk s H. unfold wr_cells.
  destruct (store (cells s) (at_speed idx k) v) as [c|e] eqn:E; [|exact H].
  apply store_inv in E. destruct E as [Hb ->]. cbn [snd cells set_cells].
  rewrite load_insert by exact Hb.
  destruct (Z.eqb_spec 0 (at_speed idx k)) as [Heq|_]; [|exact H].
  exfalso. unfold at_speed, NSPEEDS in *. lia.
Qed.

Lemma accelerate_flow_keeps_slot_0 (p : t_param) :
  keeps (fun st => load (cells st) 0 = Err Uninitialised) (accelerate_flow p).
Proof.
  unfold accelerate_flow. apply keeps_bind.
  - apply keeps_emit. intros t st H. exact H.
  - intros _. cbn zeta. apply keeps_for_range. intros ii.
    unfold accelerate_cell.
    repeat first [ apply keeps_slot_0_wr_cells; unfold NSPEEDS; lia | keeps_step ].
Qed.

(** * Sums over the grid *)

Lemma sum_upto_ext (n : nat) (f g : Z -> R) :
  (forall i, 0 <= i < Z.of_nat n -> f i = g i) -> sum_upto n f = sum_upto n g.
Proof.
  induction n as [|n IH]; intros H; [reflexivity|].
  cbn [sum_upto]. rewrite IH by (intros i Hi; apply H; lia).
  rewrite (H (Z.of_nat n)) by lia. reflexivity.
Qed.

Lemma sum_upto_plus (n : nat) (f g : Z -> R) :
  sum_upto n (fun i => f i + g i)%R = (sum_upto n f + sum_upto n g)%R.
Proof.
  induction n as [|n IH]; cbn [sum_upto]; [lra|]. rewrite IH. lra.
Qed.

Lemma sum_upto_zero (n : nat) : sum_upto n (fun _ => 0%R) = 0%R.
Proof. induction n as [|n IH]; cbn [sum_upto]; [reflexivity|]. rewrite IH. lra. Qed.

Lemma sum_upto_first (n : nat) (f : Z -> R) :
  sum_upto (S n) f = (f 0%Z + sum_upto n (fun i => f (i + 1)%Z))%R.
Proof.
  induction n as [|n IH].
  - cbn [sum_upto]. change (Z.of_nat 0) with 0. lra.
  - cbn [sum_upto] in *. rewrite IH.
    replace (Z.of_nat (S n)) with (Z.of_nat n + 1) by lia. lra.
Qed.

(** A cyclic shift of the index does not change the sum. *)
Lemma sum_upto_shift_up (n : nat) (f : Z -> R) :
  sum_upto n (fun i => f ((i + 1) mod Z.of_nat n)) = sum_upto n f.
Proof.
  destruct n as [|m]; [reflexivity|].
  rewrite (sum_upto_first m f). cbn [sum_upto].
  rewrite (sum_upto_ext m _ (fun i => f (i + 1))).
  - replace ((Z.of_nat m + 1) mod Z.of_nat (S m)) with 0; [lra|].
    replace (Z.of_nat m + 1) with (Z.of_nat (S m)) by lia.
    now rewrite Z.mod_same by lia.
  - intros i Hi. f_equal. apply Z.mod_small. lia.
Qed.

Lemma sum_upto_shift_down (n : nat) (f : Z -> R) :
  sum_upto n (fun i => f ((i - 1) mod Z.of_nat n)) = sum_upto n f.
Proof.
  destruct n as [|m]; [reflexivity|].
  rewrite (sum_upto_first m (fun i => f ((i - 1) mod Z.of_nat (S m)))).
  cbn [sum_upto].
  rewrite (sum_upto_ext m _ f).
  - replace ((0 - 1) mod Z.of_nat (S m)) with (Z.of_nat m); [lra|].
    replace (0 - 1) with (Z.of_nat m + (-1) * Z.of_nat (S m)) by lia.
    rewrite Z.mod_add by lia. symmetry. apply Z.mod_small. lia.
  - intros i Hi. f_equal. replace (i + 1 - 1) with i by lia.
    apply Z.mod_small. lia.
Qed.

Lemma grid_sum_ext (p : t_param) (f g : Z -> Z -> R) :
  (forall i j, 0 <= i < nx p -> 0 <= j < ny p -> f i j = g i j) ->
  grid_sum p f = grid_sum p g.
Proof.
  intros H. unfold grid_sum. apply sum_upto_ext. intros j Hj.
  apply sum_upto_ext. intros i Hi. apply H; lia.
Qed.

Lemma grid_sum_plus (p : t_param) (f g : Z -> Z -> R) :
  grid_sum p (fun i j => f i j + g i j)%R = (grid_sum p f + grid_sum p g)%R.
Proof.
  unfold grid_sum. rewrite <- sum_upto_plus. apply sum_upto_ext.
  intros j _. apply sum_upto_plus.
Qed.

Lemma grid_sum_zero (p : t_param) : grid_sum p (fun _ _ => 0%R) = 0%R.
Proof.
  unfold grid_sum.
  rewrite (sum_upto_ext _ _ (fun _ => 0%R)) by (intros j _; apply sum_upto_zero).
  apply sum_upto_zero.
Qed.

Lemma grid_sum_sum9 (p : t_param) (f0 f1 f2 f3 f4 f5 f6 f7 f8 : Z -> Z -> R) :
  grid_sum p (fun i j => sum9 (f0 i j) (f1 i j) (f2 i j) (f3 i j) (f4 i j)
                              (f5 i j) (f6 i j) (f7 i j) (f8 i j))
  = sum9 (grid_sum p f0) (grid_sum p f1) (grid_sum p f2) (grid_sum p f3) (grid_sum p f4)
         (grid_sum p f5) (grid_sum p f6) (grid_sum p f7) (grid_sum p f8).
Proof.
  unfold sum9. rewrite !grid_sum_plus, grid_sum_zero. reflexivity.
Qed.

Lemma grid_sum_west (p : t_param) (f : Z -> Z -> R) :
  0 <= nx p -> grid_sum p (fun i j => f (west p i) j) = grid_sum p f.
Proof.
  intros Hnx. unfold grid_sum, west. apply sum_upto_ext. intros j _.
  rewrite <- (sum_upto_shift_down _ (fun i => f i j)).
  now rewrite Z2Nat.id by exact Hnx.
Qed.

Lemma grid_sum_east (p : t_param) (f : Z -> Z -> R) :
  0 <= nx p -> grid_sum p (fun i j => f (east p i) j) = grid_sum p f.
Proof.
  intros Hnx. unfold grid_sum, east. apply sum_upto_ext. intros j _.
  rewrite <- (sum_upto_shift_up _ (fun i => f i j)).
  now rewrite Z2Nat.id by exact Hnx.
Qed.

Lemma grid_sum_south (p : t_param) (f : Z -> Z -> R) :
  0 <= ny p -> grid_sum p (fun i j => f i (south p j)) = grid_sum p f.
Proof.
  intros Hny. unfold grid_sum, south.
  rewrite <- (sum_upto_shift_down _ (fun j => sum_upto _ (fun i => f i j))).
  now rewrite Z2Nat.id by exact Hny.
Qed.

Lemma grid_sum_north (p : t_param) (f : Z -> Z -> R) :
  0 <= ny p -> grid_sum p (fun i j => f i (north p j)) = grid_sum p f.
Proof.
  intros Hny. unfold grid_sum, north.
  rewrite <- (sum_upto_shift_up _ (fun j => sum_upto _ (fun i => f i j))).
  now rewrite Z2Nat.id by exact Hny.
Qed.

(** [propagate] moves every population to another cell of the periodic
    grid: the sum over all cells is the same in the scratch grid after it as
    in the primary grid. *)
Lemma pulled_total_mass (p : t_param) (c t : block R) :
  0 <= nx p -> 0 <= ny p ->
  pulled_upto p c t (nx p * ny p) ->
  total_mass p t = total_mass p c.
Proof.
  intros Hnx Hny Hp. unfold total_mass.
  pose (g := fun (k i j : Z) => val c (at_speed (i + j * nx p) k)).
  transitivity (grid_sum p (fun i j =>
    sum9 (g 0 i j) (g 1 (west p i) j) (g 2 i (south p j)) (g 3 (east p i) j)
         (g 4 i (north p j)) (g 5 (west p i) (south p j)) (g 6 (east p i) (south p j))
         (g 7 (east p i) (north p j)) (g 8 (west p i) (north p j)))).
  - apply grid_sum_ext. intros i j Hi Hj. unfold cell_sum, val, g.
    assert (Hlt : i + j * nx p < nx p * ny p) by (apply cell_index_bound; assumption).
    rewrite !(Hp i j _ Hi Hj Hlt) by (unfold NSPEEDS; lia). reflexivity.
  - rewrite grid_sum_sum9.
    rewrite (grid_sum_west p (g 1)) by exact Hnx.
    rewrite (grid_sum_south p (g 2)) by exact Hny.
    rewrite (grid_sum_east p (g 3)) by exact Hnx.
    rewrite (grid_sum_north p (g 4)) by exact Hny.
    rewrite (grid_sum_west p (fun i j => g 5 i (south p j))) by exact Hnx.
    rewrite (grid_sum_south p (g 5)) by exact Hny.
    rewrite (grid_sum_east p (fun i j => g 6 i (south p j))) by exact Hnx.
    rewrite (grid_sum_south p (g 6)) by exact Hny.
    rewrite (grid_sum_east p (fun i j => g 7 i (north p j))) by exact Hnx.
    rewrite (grid_sum_north p (g 7)) by exact Hny.
    rewrite (grid_sum_west p (fun i j => g 8 i (north p j))) by exact Hnx.
    rewrite (grid_sum_north p (g 8)) by exact Hny.
    rewrite <- grid_sum_sum9. reflexivity.
Qed.

(** * rebound *)

Ltac load_inserts :=
  rewrite !load_insert by (rewrite ?length_insert; unfold at_speed, NSPEEDS in *; lia);
  unfold at_speed, NSPEEDS in *; decide_eqb.

(** Side conditions on cell numbers and slots. *)
Ltac slot_side :=
  first [ assumption
        | lia
        | left; unfold at_speed, NSPEEDS in *; lia
        | right; unfold at_speed, NSPEEDS in *; lia
        | unfold at_speed, NSPEEDS in *; lia ].

Lemma length_cell_with8 (a : block R) (idx : Z) (v1 v2 v3 v4 v5 v6 v7 v8 : R) :
  length (cell_with8 a idx v1 v2 v3 v4 v5 v6 v7 v8) = length a.
Proof. unfold cell_with8. now rewrite !length_insert. Qed.

Lemma load_cell_with8 (a : block R) (idx : Z) (v1 v2 v3 v4 v5 v6 v7 v8 : R) (k : Z) :
  0 <= idx -> (idx + 1) * NSPEEDS <= Z.of_nat (length a) ->
  1 <= k < NSPEEDS ->
  load (cell_with8 a idx v1 v2 v3 v4 v5 v6 v7 v8) (at_speed idx k)
  = Ok (pick9 k 0 v1 v2 v3 v4 v5 v6 v7 v8).
Proof.
  intros Hidx Hlen Hk. unfold cell_with8.
  assert (Hc : k = 1 \/ k = 2 \/ k = 3 \/ k = 4 \/ k = 5 \/ k = 6 \/ k = 7 \/ k = 8)
    by (unfold NSPEEDS in *; lia).
  destruct Hc as [->|[->|[->|[->|[->|[->|[->| ->]]]]]]]; load_inserts; reflexivity.
Qed.

Lemma load_cell_with8_other (a : block R) (idx : Z) (v1 v2 v3 v4 v5 v6 v7 v8 : R) (m : Z) :
  0 <= idx -> (idx + 1) * NSPEEDS <= Z.of_nat (length a) ->
  (m <= idx * NSPEEDS \/ (idx + 1) * NSPEEDS <= m) ->
  load (cell_with8 a idx v1 v2 v3 v4 v5 v6 v7 v8) m = load a m.
Proof.
  intros Hidx Hlen Hm. unfold cell_with8. load_inserts. reflexivity.
Qed.

Lemma rebound_cell_fluid (p : t_param) (ii jj : Z) (st : state) :
  load (obstacles st) (jj * nx p + ii) = Ok 0 ->
  rebound_cell p ii jj st = (Ok tt, st).
Proof.
  intros Ho. unfold rebound_cell, bind, rd_obstacles. now rewrite Ho.
Qed.

Lemma rebound_cell_obstacle (p : t_param) (ii jj : Z) (st : state) (o : Z)
    (t0 t1 t2 t3 t4 t5 t6 t7 t8 : R) :
  load (obstacles st) (jj * nx p + ii) = Ok o -> o <> 0 ->
  cell_holds (tmp_cells st) (ii + jj * nx p) t0 t1 t2 t3 t4 t5 t6 t7 t8 ->
  0 <= ii + jj * nx p ->
  (ii + jj * nx p + 1) * NSPEEDS <= Z.of_nat (length (cells st)) ->
  rebound_cell p ii jj st
  = (Ok tt, set_cells (cell_with8 (cells st) (ii + jj * nx p) t3 t4 t1 t2 t7 t8 t5 t6) st).
Proof.
  intros Ho Hne Ht Hidx Hroom. unfold rebound_cell.
  unfold bind at 1. unfold rd_obstacles. rewrite Ho.
  destruct (Z.eqb_spec o 0) as [|_]; [contradiction|]. cbn [negb].
  unfold bind, rd_tmp_cells, wr_cells.
  rewrite (Ht 3), store_ok by (unfold at_speed, NSPEEDS in *; lia).
  cbn [cells tmp_cells set_cells pick9].
  rewrite (Ht 4), store_ok by (rewrite ?length_insert; unfold at_speed, NSPEEDS in *; lia).
  cbn [cells tmp_cells set_cells pick9].
  rewrite (Ht 1), store_ok by (rewrite ?length_insert; unfold at_speed, NSPEEDS in *; lia).
  cbn [cells tmp_cells set_cells pick9].
  rewrite (Ht 2), store_ok by (rewrite ?length_insert; unfold at_speed, NSPEEDS in *; lia).
  cbn [cells tmp_cells set_cells pick9].
  rewrite (Ht 7), store_ok by (rewrite ?length_insert; unfold at_speed, NSPEEDS in *; lia).
  cbn [cells tmp_cells set_cells pick9].
  rewrite (Ht 8), store_ok by (rewrite ?length_insert; unfold at_speed, NSPEEDS in *; lia).
  cbn [cells tmp_cells set_cells pick9].
  rewrite (Ht 5), store_ok by (rewrite ?length_insert; unfold at_speed, NSPEEDS in *; lia).
  cbn [cells tmp_cells set_cells pick9].
  rewrite (Ht 6), store_ok by (rewrite ?length_insert; unfold at_speed, NSPEEDS in *; lia).
  reflexivity.
Qed.

Lemma fluidb_true (o : block Z) (idx : Z) : fluidb o idx = true <-> load o idx = Ok 0.
Proof.
  unfold fluidb. destruct (load o idx) as [[|?|?]|e]; split; intros H;
    try reflexivity; try discriminate.
Qed.

Lemma fluidb_false (o : block Z) (idx v : Z) :
  load o idx = Ok v -> v <> 0 -> fluidb o idx = false.
Proof. unfold fluidb. intros ->. now destruct v. Qed.

Lemma rebound_run (p : t_param) (s : state) :
  0 <= nx p -> 0 <= ny p ->
  written_upto (obstacles s) (nx p * ny p) = true ->
  written_upto (tmp_cells s) (nx p * ny p * NSPEEDS) = true ->
  nx p * ny p * NSPEEDS <= Z.of_nat (length (cells s)) ->
  exists s',
    rebound p s = (Ok tt, s')
    /\ tmp_cells s' = tmp_cells s /\ obstacles s' = obstacles s
    /\ length (cells s') = length (cells s)
    /\ forall idx, 0 <= idx < nx p * ny p -> rebounded s (cells s') idx.
Proof.
  intros Hnx Hny Hwo Hwt Hlen. unfold rebound. rewrite emit_then.
  pose (I := fun (n : Z) (st : state) =>
    tmp_cells st = tmp_cells s /\ obstacles st = obstacles s
    /\ length (cells st) = length (cells s)
    /\ (forall m, n * NSPEEDS <= m -> load (cells st) m = load (cells s) m)
    /\ forall idx, 0 <= idx < n -> rebounded s (cells st) idx).
  destruct (grid_total I (nx p) 0 (ny p) (rebound_cell p)
              (set_trace (trace s ++ [EvRebound]) s) Hnx Hny) as (s' & Hrun & HI).
  - unfold I. cbn [tmp_cells obstacles cells set_trace]. repeat split; auto.
    intros idx Hidx. lia.
  - intros ii jj st Hii Hjj (Ht & Ho & Hl & Hrest & Hdone).
    assert (Hb := cell_index_bound (nx p) (ny p) ii jj Hii Hjj).
    destruct (written_upto_load (obstacles s) _ (ii + jj * nx p) Hwo Hb) as [o Hload].
    assert (Hload' : load (obstacles st) (jj * nx p + ii) = Ok o).
    { rewrite Ho. now replace (jj * nx p + ii) with (ii + jj * nx p) by lia. }
    destruct (Z.eq_dec o 0) as [->|Hne].
    + exists st. split; [now apply rebound_cell_fluid|].
      unfold I. repeat split; auto.
      * intros m Hm. apply Hrest. unfold NSPEEDS in *. lia.
      * intros idx Hidx.
        destruct (Z.eq_dec idx (ii + jj * nx p)) as [->|Hd]; [|apply Hdone; lia].
        unfold rebounded. rewrite (proj2 (fluidb_true _ _) Hload).
        intros k Hk. apply Hrest. unfold at_speed, NSPEEDS in *. lia.
    + destruct (cell_holds_exists (tmp_cells s) (nx p * ny p) (ii + jj * nx p) Hwt Hb)
        as (t0 & t1 & t2 & t3 & t4 & t5 & t6 & t7 & t8 & Hc).
      assert (Hroom : (ii + jj * nx p + 1) * NSPEEDS <= Z.of_nat (length (cells st))).
      { rewrite Hl. unfold NSPEEDS in *. nia. }
      eexists. split.
      * apply (rebound_cell_obstacle p ii jj st o t0 t1 t2 t3 t4 t5 t6 t7 t8);
          auto; [now rewrite Ht | lia].
      * unfold I. cbn [tmp_cells obstacles cells set_cells].
        rewrite length_cell_with8. repeat split; auto.
        -- intros m Hm. rewrite load_cell_with8_other by slot_side.
           apply Hrest. unfold NSPEEDS in *. lia.
        -- intros idx Hidx.
           destruct (Z.eq_dec idx (ii + jj * nx p)) as [->|Hd].
           ++ unfold rebounded. rewrite (fluidb_false _ _ o Hload Hne). split.
              ** rewrite load_cell_with8_other by slot_side.
                 apply Hrest. unfold at_speed, NSPEEDS. lia.
              ** intros k Hk. rewrite load_cell_with8 by slot_side.
                 assert (Hk9 : k = 1 \/ k = 2 \/ k = 3 \/ k = 4 \/ k = 5 \/ k = 6
                               \/ k = 7 \/ k = 8) by (unfold NSPEEDS in *; lia).
                 destruct Hk9 as [->|[->|[->|[->|[->|[->|[->| ->]]]]]]];
                   cbn [pick9 opposite]; symmetry; apply Hc; unfold NSPEEDS; lia.
           ++ specialize (Hdone idx ltac:(lia)). unfold rebounded in *.
              destruct (fluidb (obstacles s) idx).
              ** intros k Hk. rewrite load_cell_with8_other by slot_side.
                 now apply Hdone.
              ** destruct Hdone as [H0 H8]. split.
                 --- now rewrite load_cell_with8_other by slot_side.
                 --- intros k Hk. rewrite load_cell_with8_other by slot_side.
                     now apply H8.
  - exists s'. destruct HI as (Ht & Ho & Hl & _ & Hdone).
    repeat split; auto. intros idx Hidx. apply Hdone. lia.
Qed.

Lemma cell_sum_ext (a b : block R) (idx : Z) :
  (forall k, 0 <= k < NSPEEDS -> load a (at_speed idx k) = load b (at_speed idx k)) ->
  cell_sum a idx = cell_sum b idx.
Proof.
  intros H. unfold cell_sum, val. rewrite !H by (unfold NSPEEDS; lia). reflexivity.
Qed.

Lemma rebound_fluid_mass (p : t_param) (s : state) (c' : block R) :
  (forall idx, 0 <= idx < nx p * ny p -> rebounded s c' idx) ->
  fluid_mass p (obstacles s) c' = fluid_mass p (obstacles s) (cells s).
Proof.
  intros H. unfold fluid_mass. apply grid_sum_ext. intros i j Hi Hj.
  specialize (H (i + j * nx p) (cell_index_bound _ _ _ _ Hi Hj)).
  unfold rebounded in H. destruct (fluidb (obstacles s) (i + j * nx p)); [|reflexivity].
  now apply cell_sum_ext.
Qed.

(** * collision *)

Lemma d_equ_sum (local_density u_x u_y : R) :
  (d_equ local_density u_x u_y 0 + d_equ local_density u_x u_y 1
   + d_equ local_density u_x u_y 2 + d_equ local_density u_x u_y 3
   + d_equ local_density u_x u_y 4 + d_equ local_density u_x u_y 5
   + d_equ local_density u_x u_y 6 + d_equ local_density u_x u_y 7
   + d_equ local_density u_x u_y 8 = local_density)%R.
Proof.
  unfold d_equ, u_dir, w0, w1, w2, c_sq. field.
Qed.

(** Relaxation keeps the sum of the nine populations when the density it
    relaxes towards is that sum. *)
Lemma relaxed_sum (om u_x u_y : R) (t0 t1 t2 t3 t4 t5 t6 t7 t8 : R) :
  let rho := sum9 t0 t1 t2 t3 t4 t5 t6 t7 t8 in
  sum9 (relaxed om rho u_x u_y 0 t0) (relaxed om rho u_x u_y 1 t1)
       (relaxed om rho u_x u_y 2 t2) (relaxed om rho u_x u_y 3 t3)
       (relaxed om rho u_x u_y 4 t4) (relaxed om rho u_x u_y 5 t5)
       (relaxed om rho u_x u_y 6 t6) (relaxed om rho u_x u_y 7 t7)
       (relaxed om rho u_x u_y 8 t8)
  = rho.
Proof.
  intros rho. pose proof (d_equ_sum rho u_x u_y) as Hd.
  unfold relaxed.
  generalize dependent (d_equ rho u_x u_y 0). generalize dependent (d_equ rho u_x u_y 1).
  generalize dependent (d_equ rho u_x u_y 2). generalize dependent (d_equ rho u_x u_y 3).
  generalize dependent (d_equ rho u_x u_y 4). generalize dependent (d_equ rho u_x u_y 5).
  generalize dependent (d_equ rho u_x u_y 6). generalize dependent (d_equ rho u_x u_y 7).
  generalize dependent (d_equ rho u_x u_y 8).
  intros d8 d7 d6 d5 d4 d3 d2 d1 d0 Hd.
  assert (Hrho : rho = (0 + t0 + t1 + t2 + t3 + t4 + t5 + t6 + t7 + t8)%R) by reflexivity.
  unfold sum9.
  replace (0 + (t0 + om * (d0 - t0)) + (t1 + om * (d1 - t1)) + (t2 + om * (d2 - t2))
           + (t3 + om * (d3 - t3)) + (t4 + om * (d4 - t4)) + (t5 + om * (d5 - t5))
           + (t6 + om * (d6 - t6)) + (t7 + om * (d7 - t7)) + (t8 + om * (d8 - t8)))%R
    with ((0 + t0 + t1 + t2 + t3 + t4 + t5 + t6 + t7 + t8)
          + om * ((d0 + d1 + d2 + d3 + d4 + d5 + d6 + d7 + d8)
                  - (0 + t0 + t1 + t2 + t3 + t4 + t5 + t6 + t7 + t8)))%R by ring.
  rewrite Hd, <- Hrho. ring.
Qed.

Lemma collision_cell_obstacle (p : t_param) (ii jj : Z) (st : state) (o : Z) :
  load (obstacles st) (ii + jj * nx p) = Ok o -> o <> 0 ->
  collision_cell p ii jj st = (Ok tt, st).
Proof.
  intros Ho Hne. unfold collision_cell, bind, rd_obstacles. rewrite Ho.
  destruct (Z.eqb_spec o 0); [contradiction | reflexivity].
Qed.

Lemma collision_cell_fluid (p : t_param) (ii jj : Z) (st : state)
    (t0 t1 t2 t3 t4 t5 t6 t7 t8 : R) :
  load (obstacles st) (ii + jj * nx p) = Ok 0 ->
  cell_holds (tmp_cells st) (ii + jj * nx p) t0 t1 t2 t3 t4 t5 t6 t7 t8 ->
  sum9 t0 t1 t2 t3 t4 t5 t6 t7 t8 <> 0%R ->
  0 <= ii + jj * nx p ->
  (ii + jj * nx p + 1) * NSPEEDS <= Z.of_nat (length (cells st)) ->
  let rho := sum9 t0 t1 t2 t3 t4 t5 t6 t7 t8 in
  let u_x := ((t1 + t5 + t8 - (t3 + t6 + t7)) / rho)%R in
  let u_y := ((t2 + t5 + t6 - (t4 + t7 + t8)) / rho)%R in
  collision_cell p ii jj st
  = (Ok tt, set_cells
              (cell_with (cells st) (ii + jj * nx p)
                 (relaxed (omega p) rho u_x u_y 0 t0) (relaxed (omega p) rho u_x u_y 1 t1)
                 (relaxed (omega p) rho u_x u_y 2 t2) (relaxed (omega p) rho u_x u_y 3 t3)
                 (relaxed (omega p) rho u_x u_y 4 t4) (relaxed (omega p) rho u_x u_y 5 t5)
                 (relaxed (omega p) rho u_x u_y 6 t6) (relaxed (omega p) rho u_x u_y 7 t7)
                 (relaxed (omega p) rho u_x u_y 8 t8)) st).
Proof.
  intros Ho Ht Hrho Hidx Hroom rho u_x u_y. unfold collision_cell.
  unfold bind at 1. unfold rd_obstacles. rewrite Ho. cbn [Z.eqb negb].
  pose proof (rd_tmp_cells_holds st _ _ _ _ _ _ _ _ _ _ Ht) as Hrd.
  unfold bind at 1.
  rewrite (cell_density_run rd_tmp_cells _ st _ _ _ _ _ _ _ _ _ Hrd).
  unfold bind at 1.
  rewrite (cell_u_x_run rd_tmp_cells _ st _ _ _ _ _ _ _ _ _ Hrd _ Hrho).
  unfold bind at 1.
  rewrite (cell_u_y_run rd_tmp_cells _ st _ _ _ _ _ _ _ _ _ Hrd _ Hrho).
  fold rho. fold u_x. fold u_y.
  unfold for_range, for_acc. change (Z.to_nat (NSPEEDS - 0)) with 9%nat.
  cbn [for_from]. unfold bind, rd_tmp_cells, wr_cells.
  rewrite (Ht 0), store_ok by slot_side.
  cbn [cells tmp_cells set_cells pick9].
  change (0 + 1) with 1.
  rewrite (Ht 1), store_ok by (rewrite ?length_insert; slot_side).
  cbn [cells tmp_cells set_cells pick9].
  change (1 + 1) with 2.
  rewrite (Ht 2), store_ok by (rewrite ?length_insert; slot_side).
  cbn [cells tmp_cells set_cells pick9].
  change (2 + 1) with 3.
  rewrite (Ht 3), store_ok by (rewrite ?length_insert; slot_side).
  cbn [cells tmp_cells set_cells pick9].
  change (3 + 1) with 4.
  rewrite (Ht 4), store_ok by (rewrite ?length_insert; slot_side).
  cbn [cells tmp_cells set_cells pick9].
  change (4 + 1) with 5.
  rewrite (Ht 5), store_ok by (rewrite ?length_insert; slot_side).
  cbn [cells tmp_cells set_cells pick9].
  change (5 + 1) with 6.
  rewrite (Ht 6), store_ok by (rewrite ?length_insert; slot_side).
  cbn [cells tmp_cells set_cells pick9].
  change (6 + 1) with 7.
  rewrite (Ht 7), store_ok by (rewrite ?length_insert; slot_side).
  cbn [cells tmp_cells set_cells pick9].
  change (7 + 1) with 8.
  rewrite (Ht 8), store_ok by (rewrite ?length_insert; slot_side).
  reflexivity.
Qed.

Lemma collision_run (p : t_param) (s : state) :
  0 <= nx p -> 0 <= ny p ->
  written_upto (obstacles s) (nx p * ny p) = true ->
  written_upto (tmp_cells s) (nx p * ny p * NSPEEDS) = true ->
  nx p * ny p * NSPEEDS <= Z.of_nat (length (cells s)) ->
  (forall idx, 0 <= idx < nx p * ny p -> is_fluid (obstacles s) idx ->
     cell_sum (tmp_cells s) idx <> 0%R) ->
  exists s',
    collision p s = (Ok tt, s')
    /\ tmp_cells s' = tmp_cells s /\ obstacles s' = obstacles s
    /\ length (cells s') = length (cells s)
    /\ forall idx, 0 <= idx < nx p * ny p ->
         if fluidb (obstacles s) idx
         then (forall k, 0 <= k < NSPEEDS -> exists v, load (cells s') (at_speed idx k) = Ok v)
              /\ cell_sum (cells s') idx = cell_sum (tmp_cells s) idx
         else forall k, 0 <= k < NSPEEDS ->
                load (cells s') (at_speed idx k) = load (cells s) (at_speed idx k).
Proof.
  intros Hnx Hny Hwo Hwt Hlen Hrho. unfold collision. rewrite emit_then.
  pose (I := fun (n : Z) (st : state) =>
    tmp_cells st = tmp_cells s /\ obstacles st = obstacles s
    /\ length (cells st) = length (cells s)
    /\ (forall m, n * NSPEEDS <= m -> load (cells st) m = load (cells s) m)
    /\ forall idx, 0 <= idx < n ->
         if fluidb (obstacles s) idx
         then (forall k, 0 <= k < NSPEEDS -> exists v, load (cells st) (at_speed idx k) = Ok v)
              /\ cell_sum (cells st) idx = cell_sum (tmp_cells s) idx
         else forall k, 0 <= k < NSPEEDS ->
                load (cells st) (at_speed idx k) = load (cells s) (at_speed idx k)).
  destruct (grid_total I (nx p) 0 (ny p) (collision_cell p)
              (set_trace (trace s ++ [EvCollision]) s) Hnx Hny) as (s' & Hrun & HI).
  - unfold I. cbn [tmp_cells obstacles cells set_trace]. repeat split; auto.
    intros idx Hidx. lia.
  - intros ii jj st Hii Hjj (Ht & Ho & Hl & Hrest & Hdone).
    assert (Hb := cell_index_bound (nx p) (ny p) ii jj Hii Hjj).
    destruct (written_upto_load (obstacles s) _ (ii + jj * nx p) Hwo Hb) as [o Hload].
    destruct (Z.eq_dec o 0) as [->|Hne].
    + destruct (cell_holds_exists (tmp_cells s) (nx p * ny p) (ii + jj * nx p) Hwt Hb)
        as (t0 & t1 & t2 & t3 & t4 & t5 & t6 & t7 & t8 & Hc).
      assert (Hsum : sum9 t0 t1 t2 t3 t4 t5 t6 t7 t8 <> 0%R).
      { rewrite <- (cell_sum_holds _ _ _ _ _ _ _ _ _ _ _ Hc). now apply Hrho. }
      assert (Hroom : (ii + jj * nx p + 1) * NSPEEDS <= Z.of_nat (length (cells st))).
      { rewrite Hl. unfold NSPEEDS in *. nia. }
      eexists. split.
      * apply (collision_cell_fluid p ii jj st t0 t1 t2 t3 t4 t5 t6 t7 t8);
          auto; [now rewrite Ho | now rewrite Ht | lia].
      * unfold I. cbn [tmp_cells obstacles cells set_cells].
        rewrite length_cell_with. repeat split; auto.
        -- intros m Hm. rewrite load_cell_with_other by slot_side.
           apply Hrest. unfold NSPEEDS in *. lia.
        -- intros idx Hidx.
           destruct (Z.eq_dec idx (ii + jj * nx p)) as [->|Hd].
           ++ rewrite (proj2 (fluidb_true _ _) Hload). split.
              ** intros k Hk. eexists. apply load_cell_with; slot_side.
              ** rewrite (cell_sum_holds _ _ _ _ _ _ _ _ _ _ _ Hc).
                 erewrite cell_sum_holds.
                 2:{ intros k Hk. apply load_cell_with; slot_side. }
                 apply relaxed_sum.
           ++ specialize (Hdone idx ltac:(lia)).
              destruct (fluidb (obstacles s) idx).
              ** destruct Hdone as [Hv Hs]. split.
                 --- intros k Hk. rewrite load_cell_with_other by slot_side. now apply Hv.
                 --- rewrite <- Hs. apply cell_sum_ext. intros k Hk.
                     now rewrite load_cell_with_other by slot_side.
              ** intros k Hk. rewrite load_cell_with_other by slot_side. now apply Hdone.
    + exists st. split.
      * apply (collision_cell_obstacle p ii jj st o); [now rewrite Ho | exact Hne].
      * unfold I. repeat split; auto.
        -- intros m Hm. apply Hrest. unfold NSPEEDS in *. lia.
        -- intros idx Hidx.
           destruct (Z.eq_dec idx (ii + jj * nx p)) as [->|Hd]; [|apply Hdone; lia].
           rewrite (fluidb_false _ _ o Hload Hne).
           intros k Hk. apply Hrest. unfold at_speed, NSPEEDS in *. lia.
  - exists s'. destruct HI as (Ht & Ho & Hl & _ & Hdone).
    repeat split; auto. intros idx Hidx. apply Hdone. lia.
Qed.

Lemma collision_fluid_mass (p : t_param) (o : block Z) (c' t : block R) :
  (forall idx, 0 <= idx < nx p * ny p ->
     fluidb o idx = true -> cell_sum c' idx = cell_sum t idx) ->
  fluid_mass p o c' = fluid_mass p o t.
Proof.
  intros H. unfold fluid_mass. apply grid_sum_ext. intros i j Hi Hj.
  specialize (H (i + j * nx p) (cell_index_bound _ _ _ _ Hi Hj)).
  destruct (fluidb o (i + j * nx p)); [now apply H | reflexivity].
Qed.

(** * accelerate_flow *)

Lemma load_insert_ne {A} (a : block A) (i j : Z) (v : A) :
  0 <= i < Z.of_nat (length a) -> j <> i ->
  load (<[Z.to_nat i := Some v]> a) j = load a j.
Proof.
  intros Hb Hne. rewrite load_insert by exact Hb.
  destruct (Z.eqb_spec j i); [contradiction | reflexivity].
Qed.

Lemma accelerated_ext (a1 a2 : R) (c c' c0 c0' : block R) (idx : Z) :
  (forall k, 0 <= k < NSPEEDS -> load c0 (at_speed idx k) = load c (at_speed idx k)) ->
  (forall k, 0 <= k < NSPEEDS -> load c0' (at_speed idx k) = load c' (at_speed idx k)) ->
  accelerated a1 a2 c c' idx -> accelerated a1 a2 c0 c0' idx.
Proof.
  intros Hc Hc' [Hsame|(v0 & v1 & v2 & v3 & v4 & v5 & v6 & v7 & v8 & H & H')].
  - left. intros k Hk. now rewrite Hc', Hc, Hsame.
  - right. exists v0, v1, v2, v3, v4, v5, v6, v7, v8. split; intros k Hk.
    + now rewrite Hc, H.
    + now rewrite Hc', H'.
Qed.

Lemma accelerated_cell_sum (a1 a2 : R) (c c' : block R) (idx : Z) :
  accelerated a1 a2 c c' idx -> cell_sum c' idx = cell_sum c idx.
Proof.
  intros [Hsame|(v0 & v1 & v2 & v3 & v4 & v5 & v6 & v7 & v8 & H & H')].
  - now apply cell_sum_ext.
  - rewrite (cell_sum_holds _ _ _ _ _ _ _ _ _ _ _ H),
            (cell_sum_holds _ _ _ _ _ _ _ _ _ _ _ H').
    unfold sum9. lra.
Qed.

Lemma accelerate_cell_run (p : t_param) (a1 a2 : R) (ii jj : Z) (st : state) (o : Z)
    (v0 v1 v2 v3 v4 v5 v6 v7 v8 : R) :
  load (obstacles st) (ii + jj * nx p) = Ok o ->
  cell_holds (cells st) (ii + jj * nx p) v0 v1 v2 v3 v4 v5 v6 v7 v8 ->
  0 <= ii + jj * nx p ->
  exists st1,
    accelerate_cell p a1 a2 ii jj st = (Ok tt, st1)
    /\ tmp_cells st1 = tmp_cells st /\ obstacles st1 = obstacles st
    /\ length (cells st1) = length (cells st)
    /\ (forall m, m < (ii + jj * nx p) * NSPEEDS \/ (ii + jj * nx p + 1) * NSPEEDS <= m ->
          load (cells st1) m = load (cells st) m)
    /\ accelerated a1 a2 (cells st) (cells st1) (ii + jj * nx p).
Proof.
  intros Ho Hc Hidx.
  assert (Hroom : (ii + jj * nx p + 1) * NSPEEDS <= Z.of_nat (length (cells st))).
  { pose proof (load_ok_bounds _ _ _ (Hc 8 ltac:(unfold NSPEEDS; lia))) as Hb.
    unfold at_speed, NSPEEDS in *. lia. }
  assert (Hsame : exists st1 : state,
            (Ok tt, st) = (Ok tt, st1)
            /\ tmp_cells st1 = tmp_cells st /\ obstacles st1 = obstacles st
            /\ length (cells st1) = length (cells st)
            /\ (forall m, m < (ii + jj * nx p) * NSPEEDS
                          \/ (ii + jj * nx p + 1) * NSPEEDS <= m ->
                  load (cells st1) m = load (cells st) m)
            /\ accelerated a1 a2 (cells st) (cells st1) (ii + jj * nx p)).
  { exists st. repeat split; auto. now left. }
  unfold accelerate_cell. unfold bind at 1. unfold rd_obstacles. rewrite Ho.
  destruct (Z.eqb_spec o 0) as [_|_]; cbn [negb]; [|exact Hsame].
  unfold bind at 1. unfold rd_cells at 1. rewrite (Hc 3) by slot_side. cbn [pick9].
  destruct (Rgt_dec (v3 - a1) 0); [|exact Hsame].
  unfold bind at 1. unfold rd_cells at 1. rewrite (Hc 6) by slot_side. cbn [pick9].
  destruct (Rgt_dec (v6 - a2) 0); [|exact Hsame].
  unfold bind at 1. unfold rd_cells at 1. rewrite (Hc 7) by slot_side. cbn [pick9].
  destruct (Rgt_dec (v7 - a2) 0); [|exact Hsame].
  clear Hsame.
  unfold bind, rd_cells, wr_cells.
  rewrite (Hc 1), store_ok by slot_side. cbn [cells set_cells pick9].
  rewrite !load_insert_ne by (rewrite ?length_insert; slot_side).
  rewrite (Hc 5), store_ok by (rewrite ?length_insert; slot_side).
  cbn [cells set_cells pick9].
  rewrite !load_insert_ne by (rewrite ?length_insert; slot_side).
  rewrite (Hc 8), store_ok by (rewrite ?length_insert; slot_side).
  cbn [cells set_cells pick9].
  rewrite !load_insert_ne by (rewrite ?length_insert; slot_side).
  rewrite (Hc 3), store_ok by (rewrite ?length_insert; slot_side).
  cbn [cells set_cells pick9].
  rewrite !load_insert_ne by (rewrite ?length_insert; slot_side).
  rewrite (Hc 6), store_ok by (rewrite ?length_insert; slot_side).
  cbn [cells set_cells pick9].
  rewrite !load_insert_ne by (rewrite ?length_insert; slot_side).
  rewrite (Hc 7), store_ok by (rewrite ?length_insert; slot_side).
  eexists. split; [reflexivity|].
  cbn [cells tmp_cells obstacles set_cells]. rewrite !length_insert.
  repeat split; auto.
  - intros m Hm. rewrite !load_insert_ne by (rewrite ?length_insert; slot_side).
    reflexivity.
  - right. exists v0, v1, v2, v3, v4, v5, v6, v7, v8. split; [exact Hc|].
    intros k Hk.
    destruct (nine_cases k Hk) as [->|[->|[->|[->|[->|[->|[->|[->| ->]]]]]]]];
      cbn [pick9];
      first [ rewrite !load_insert_ne by (rewrite ?length_insert; slot_side);
              apply (Hc _ Hk)
            | rewrite ?load_insert_ne by (rewrite ?length_insert; slot_side);
              apply load_insert_eq; rewrite ?length_insert; slot_side ].
Qed.

Lemma accelerate_flow_run (p : t_param) (s : state) :
  0 <= nx p -> 2 <= ny p ->
  written_upto (obstacles s) (nx p * ny p) = true ->
  written_upto (cells s) (nx p * ny p * NSPEEDS) = true ->
  let a1 := (density p * accel p / 9)%R in
  let a2 := (density p * accel p / 36)%R in
  let jj := ny p - 2 in
  exists s',
    accelerate_flow p s = (Ok tt, s')
    /\ tmp_cells s' = tmp_cells s /\ obstacles s' = obstacles s
    /\ length (cells s') = length (cells s)
    /\ (forall m, m < jj * nx p * NSPEEDS \/ (jj + 1) * nx p * NSPEEDS <= m ->
          load (cells s') m = load (cells s) m)
    /\ (forall i, 0 <= i < nx p -> accelerated a1 a2 (cells s) (cells s') (i + jj * nx p)).
Proof.
  intros Hnx Hny Hwo Hwc a1 a2 jj. unfold accelerate_flow. rewrite emit_then.
  cbn zeta. fold a1 a2 jj.
  pose (I := fun (ii : Z) (st : state) =>
    tmp_cells st = tmp_cells s /\ obstacles st = obstacles s
    /\ length (cells st) = length (cells s)
    /\ (forall m, m < jj * nx p * NSPEEDS \/ (ii + jj * nx p) * NSPEEDS <= m ->
          load (cells st) m = load (cells s) m)
    /\ (forall i, 0 <= i < ii -> accelerated a1 a2 (cells s) (cells st) (i + jj * nx p))).
  destruct (for_range_total I 0 (nx p) (fun ii => accelerate_cell p a1 a2 ii jj)
              (set_trace (trace s ++ [EvAccelerate]) s) Hnx) as (s' & Hrun & HI).
  - unfold I. cbn [tmp_cells obstacles cells set_trace]. repeat split; auto.
    intros i Hi. lia.
  - intros ii st Hii (Ht & Ho & Hl & Hrest & Hdone).
    assert (Hjj : 0 <= jj < ny p) by (subst jj; lia).
    assert (Hb := cell_index_bound (nx p) (ny p) ii jj Hii Hjj).
    destruct (written_upto_load (obstacles s) _ (ii + jj * nx p) Hwo Hb) as [o Hload].
    destruct (cell_holds_exists (cells s) (nx p * ny p) (ii + jj * nx p) Hwc Hb)
      as (v0 & v1 & v2 & v3 & v4 & v5 & v6 & v7 & v8 & Hc).
    assert (Hhere : forall k, 0 <= k < NSPEEDS ->
              load (cells st) (at_speed (ii + jj * nx p) k)
              = load (cells s) (at_speed (ii + jj * nx p) k)).
    { intros k Hk. apply Hrest. right. unfold at_speed, NSPEEDS in *. lia. }
    destruct (accelerate_cell_run p a1 a2 ii jj st o v0 v1 v2 v3 v4 v5 v6 v7 v8)
      as (st1 & Hcell & Ht1 & Ho1 & Hl1 & Hout & Hacc).
    { now rewrite Ho. }
    { intros k Hk. rewrite Hhere by exact Hk. now apply Hc. }
    { lia. }
    exists st1. split; [exact Hcell|]. unfold I.
    rewrite Ht1, Ho1, Hl1. repeat split; auto.
    + intros m Hm. rewrite Hout.
      * apply Hrest. unfold NSPEEDS in *. lia.
      * unfold NSPEEDS in *. lia.
    + intros i Hi.
      destruct (Z.eq_dec i ii) as [->|Hd].
      * apply (accelerated_ext a1 a2 (cells st) (cells st1)); auto.
        intros k Hk. symmetry. now apply Hhere.
      * apply (accelerated_ext a1 a2 (cells s) (cells st)); auto.
        -- intros k Hk. apply Hout. left. unfold at_speed, NSPEEDS in *. lia.
        -- apply Hdone. lia.
  - exists s'. destruct HI as (Ht & Ho & Hl & Hrest & Hdone).
    repeat split; auto.
    intros m Hm. apply Hrest. unfold NSPEEDS in *. lia.
Qed.

(** * initialise, phase by phase, with its failures *)

Lemma grid_empty (n lo hi : Z) (body : Z -> Z -> M unit) (s : state) :
  n <= 0 \/ hi <= lo ->
  for_range lo hi (fun jj => for_range 0 n (fun ii => body ii jj)) s = (Ok tt, s).
Proof.
  intros [Hn|Hh].
  - destruct (Z.le_gt_cases lo hi) as [Hle|Hgt].
    + destruct (for_range_total (fun _ st => st = s) lo hi
                  (fun jj => for_range 0 n (fun ii => body ii jj)) s Hle eq_refl)
        as (s' & Hrun & ->); [|exact Hrun].
      intros i st _ ->. exists s. split; [|reflexivity].
      unfold for_range. apply for_acc_empty. lia.
    + unfold for_range. apply for_acc_empty. lia.
  - unfold for_range. apply for_acc_empty. lia.
Qed.

Lemma allocate_outcome (p : t_param) (local_ny : Z) (s : state) :
  match allocate p local_ny s with
  | (Ok _, s1) => sizes_ok p local_ny /\ s1 = allocated p local_ny s
  | (Err e, _) => (exists msg, e = Die msg) /\ ~ sizes_ok p local_ny
  end.
Proof.
  unfold allocate, bind, put, alloc_or_die, malloc, sizes_ok, die, fail, ret.
  destruct (Z.ltb_spec ((local_ny + 2) * nx p) 0);
    [split; [eauto | lia]|].
  destruct (Z.ltb_spec (ny p * nx p) 0); [split; [eauto | lia]|].
  destruct (Z.ltb_spec (local_ny * nx p) 0); [split; [eauto | lia]|].
  destruct (Z.ltb_spec (maxIters p) 0); [split; [eauto | lia]|].
  split; [lia | reflexivity].
Qed.

Lemma init_cell_run (p : t_param) (a0 a1 a2 : R) (ii jj : Z) (st : state) :
  0 <= ii + jj * nx p ->
  (ii + jj * nx p + 1) * NSPEEDS <= Z.of_nat (length (cells st)) ->
  init_cell p a0 a1 a2 ii jj st
  = (Ok tt, set_cells (cell_with (cells st) (ii + jj * nx p) a0 a1 a1 a1 a1 a2 a2 a2 a2) st).
Proof.
  intros Hidx Hroom. unfold init_cell, bind, wr_cells.
  do 8 (rewrite store_ok by (rewrite ?length_insert; unfold at_speed, NSPEEDS in *; lia);
        cbn [cells set_cells]).
  rewrite store_ok by (rewrite ?length_insert; unfold at_speed, NSPEEDS in *; lia).
  reflexivity.
Qed.

(** [init_densities] stays inside a grid of [local_ny + 2] rows. *)
Lemma init_densities_run (p : t_param) (local_ny : Z) (s : state) :
  0 <= nx p -> 0 <= local_ny ->
  (local_ny + 2) * nx p * NSPEEDS <= Z.of_nat (length (cells s)) ->
  exists s', init_densities p local_ny s = (Ok tt, s')
             /\ s' = set_cells (cells s') s
             /\ length (cells s') = length (cells s).
Proof.
  intros Hnx Hl Hlen. unfold init_densities. cbn zeta.
  destruct (grid_total
              (fun _ st => length (cells st) = length (cells s)
                           /\ st = set_cells (cells st) s)
              (nx p) 1 (local_ny + 1)
              (fun ii jj => init_cell p (density p * 4 / 9) (density p / 9)
                              (density p / 36) ii jj) s Hnx ltac:(lia))
    as (s' & Hrun & Hl' & Hs').
  - split; [reflexivity | now destruct s].
  - intros ii jj st Hii Hjj [Hl' Hst].
    eexists. split.
    + apply init_cell_run; [nia|]. rewrite Hl'. unfold NSPEEDS in *. nia.
    + cbn [cells set_cells]. rewrite length_cell_with. split; [exact Hl'|].
      rewrite Hst at 2. reflexivity.
  - exists s'. split; [exact Hrun|]. split; [exact Hs' | exact Hl'].
Qed.

Lemma wr_obstacles_total_ok (idx v : Z) (st : state) :
  0 <= idx < Z.of_nat (length (obstacles_total st)) ->
  wr_obstacles_total idx v st
  = (Ok tt, set_obstacles_total (<[Z.to_nat idx := Some v]> (obstacles_total st)) st).
Proof. intros H. unfold wr_obstacles_total. now rewrite store_ok. Qed.

Lemma wr_obstacles_ok (idx v : Z) (st : state) :
  0 <= idx < Z.of_nat (length (obstacles st)) ->
  wr_obstacles idx v st
  = (Ok tt, set_obstacles (<[Z.to_nat idx := Some v]> (obstacles st)) st).
Proof. intros H. unfold wr_obstacles. now rewrite store_ok. Qed.

(** The zeroing loop writes 0 to each of the [ny * nx] entries. *)
Lemma zero_obstacles_total_run (p : t_param) (s : state) :
  0 <= nx p -> 0 <= ny p ->
  ny p * nx p <= Z.of_nat (length (obstacles_total s)) ->
  exists s', zero_obstacles_total p s = (Ok tt, s')
             /\ s' = set_obstacles_total (obstacles_total s') s
             /\ length (obstacles_total s') = length (obstacles_total s)
             /\ forall m, 0 <= m < ny p * nx p -> load (obstacles_total s') m = Ok 0.
Proof.
  intros Hnx Hny Hlen. unfold zero_obstacles_total.
  destruct (grid_total
              (fun n st => st = set_obstacles_total (obstacles_total st) s
                           /\ length (obstacles_total st) = length (obstacles_total s)
                           /\ forall m, 0 <= m < n -> load (obstacles_total st) m = Ok 0)
              (nx p) 0 (ny p)
              (fun ii jj => wr_obstacles_total (ii + jj * nx p) 0) s Hnx Hny)
    as (s' & Hrun & Hs' & Hl' & Hz).
  - split; [now destruct s|]. split; [reflexivity|]. intros m Hm. lia.
  - intros ii jj st Hii Hjj (Hst & Hl' & Hz).
    assert (Hb : 0 <= ii + jj * nx p < Z.of_nat (length (obstacles_total st))).
    { rewrite Hl'. nia. }
    eexists. split; [apply wr_obstacles_total_ok; exact Hb|].
    cbn [obstacles_total set_obstacles_total]. rewrite length_insert.
    split; [rewrite Hst at 2; reflexivity|]. split; [exact Hl'|].
    intros m Hm. rewrite load_insert by exact Hb.
    destruct (Z.eqb_spec m (ii + jj * nx p)); [reflexivity|]. apply Hz. lia.
  - exists s'. repeat split; auto.
Qed.

Lemma valid_lineb_spec (p : t_param) (xx yy blocked : Z) :
  valid_lineb p (Triple xx yy blocked) = true
  <-> 0 <= xx <= nx p - 1 /\ 0 <= yy <= ny p - 1 /\ blocked = 1.
Proof.
  unfold valid_lineb. rewrite !andb_true_iff, !Z.leb_le, Z.eqb_eq. tauto.
Qed.

(** Reading the obstacle file: it is accepted exactly when every line
    passes the checks; each accepted line sets its entry to 1. *)
Lemma read_obstacles_outcome (p : t_param) (lines : list obstacle_line) :
  forall s,
  ny p * nx p <= Z.of_nat (length (obstacles_total s)) ->
  match read_obstacles p lines s with
  | (Ok _, s') =>
      forallb (valid_lineb p) lines = true
      /\ s' = set_obstacles_total (obstacles_total s') s
      /\ length (obstacles_total s') = length (obstacles_total s)
      /\ forall x y, 0 <= x < nx p -> 0 <= y < ny p ->
           load (obstacles_total s') (x + y * nx p)
           = if listedb lines x y then Ok 1 else load (obstacles_total s) (x + y * nx p)
  | (Err e, _) =>
      forallb (valid_lineb p) lines = false /\ exists msg, e = Die msg
  end.
Proof.
  induction lines as [|[xx yy blocked|] rest IH]; intros s Hlen; cbn [read_obstacles].
  - cbn. split; [reflexivity|]. split; [now destruct s|]. auto.
  - cbn [forallb].
    destruct (valid_lineb p (Triple xx yy blocked)) eqn:Hv.
    + apply valid_lineb_spec in Hv. destruct Hv as (Hx & Hy & ->).
      destruct (Z.ltb_spec xx 0); [lia|]. destruct (Z.ltb_spec (nx p - 1) xx); [lia|].
      destruct (Z.ltb_spec yy 0); [lia|]. destruct (Z.ltb_spec (ny p - 1) yy); [lia|].
      cbn [orb negb Z.eqb Pos.eqb andb].
      assert (Hb : 0 <= xx + yy * nx p < Z.of_nat (length (obstacles_total s))) by nia.
      unfold bind. rewrite wr_obstacles_total_ok by exact Hb. cbv iota beta.
      specialize (IH (set_obstacles_total
                        (<[Z.to_nat (xx + yy * nx p) := Some 1]> (obstacles_total s)) s)).
      cbn [obstacles_total set_obstacles_total] in IH.
      rewrite length_insert in IH. specialize (IH Hlen).
      destruct (read_obstacles p rest _) as [[[]|e] s'].
      * destruct IH as (Hall & Hs' & Hl' & Hc).
        split; [exact Hall|]. split; [rewrite Hs' at 1; reflexivity|].
        split; [exact Hl'|].
        intros x y Hx' Hy'. rewrite (Hc x y Hx' Hy'). cbn [listedb existsb].
        fold (listedb rest x y). destruct (listedb rest x y).
        -- now rewrite orb_true_r.
        -- rewrite orb_false_r. rewrite load_insert by exact Hb.
           destruct (Z.eqb_spec xx x) as [->|Hne].
           ++ destruct (Z.eqb_spec yy y) as [->|Hne].
              ** now rewrite Z.eqb_refl.
              ** cbn [andb]. destruct (Z.eqb_spec (x + y * nx p) (x + yy * nx p)); [|reflexivity].
                 exfalso. nia.
           ++ cbn [andb].
              destruct (Z.eqb_spec (x + y * nx p) (xx + yy * nx p)) as [He|]; [|reflexivity].
              exfalso. apply Hne. symmetry.
              apply (cell_index_inj (nx p) x y xx yy); [lia|lia|exact He].
      * exact IH.
    + assert (Hn : ~ (0 <= xx <= nx p - 1 /\ 0 <= yy <= ny p - 1 /\ blocked = 1)).
      { rewrite <- valid_lineb_spec, Hv. discriminate. }
      unfold die, fail.
      destruct (Z.ltb_spec xx 0); [cbn; eauto|].
      destruct (Z.ltb_spec (nx p - 1) xx); [cbn; eauto|].
      destruct (Z.ltb_spec yy 0); [cbn; eauto|].
      destruct (Z.ltb_spec (ny p - 1) yy); [cbn; eauto|].
      destruct (Z.eqb_spec blocked 1); [lia|]. cbn. eauto.
  - cbn. eauto.
Qed.

(** The copy loop: the local mask receives entries [0, local_ny * nx) of
    the global one. *)
Lemma copy_local_obstacles_run (p : t_param) (local_ny : Z) (s : state) :
  0 <= nx p -> 0 <= local_ny ->
  local_ny * nx p <= Z.of_nat (length (obstacles s)) ->
  (forall m, 0 <= m < local_ny * nx p -> exists v, load (obstacles_total s) m = Ok v) ->
  exists s', copy_local_obstacles p local_ny s = (Ok tt, s')
             /\ s' = set_obstacles (obstacles s') s
             /\ length (obstacles s') = length (obstacles s)
             /\ forall m, 0 <= m < local_ny * nx p ->
                  load (obstacles s') m = load (obstacles_total s) m.
Proof.
  intros Hnx Hl Hlen Hread. unfold copy_local_obstacles.
  destruct (grid_total
              (fun n st => st = set_obstacles (obstacles st) s
                           /\ length (obstacles st) = length (obstacles s)
                           /\ forall m, 0 <= m < n ->
                                load (obstacles st) m = load (obstacles_total s) m)
              (nx p) 0 local_ny
              (fun ii jj => v <- rd_obstacles_total (ii + jj * nx p) ;;
                            wr_obstacles (ii + jj * nx p) v) s Hnx Hl)
    as (s' & Hrun & Hs' & Hl' & Hc).
  - split; [now destruct s|]. split; [reflexivity|]. intros m Hm. lia.
  - intros ii jj st Hii Hjj (Hst & Hl' & Hc).
    assert (Hidx : 0 <= ii + jj * nx p < local_ny * nx p) by nia.
    destruct (Hread _ Hidx) as [v Hv].
    assert (Hb : 0 <= ii + jj * nx p < Z.of_nat (length (obstacles st))).
    { rewrite Hl'. lia. }
    eexists. split.
    + unfold bind, rd_obstacles_total. rewrite Hst. cbn [obstacles_total set_obstacles].
      rewrite Hv. rewrite <- Hst. apply wr_obstacles_ok. exact Hb.
    + cbn [obstacles set_obstacles]. rewrite length_insert.
      split; [rewrite Hst at 2; reflexivity|]. split; [exact Hl'|].
      intros m Hm. rewrite load_insert by exact Hb.
      destruct (Z.eqb_spec m (ii + jj * nx p)) as [->|]; [now rewrite Hv|]. apply Hc. lia.
  - exists s'. repeat split; auto.
Qed.

Lemma load_params_cases (paramfile : option param_file) (s : state) :
  (exists p, load_params paramfile s = (Ok p, s))
  \/ exists msg, load_params paramfile s = (Err (Die msg), s).
Proof.
  pose proof (load_params_outcome paramfile s) as H.
  destruct paramfile as [[[a|] [b|] [c|] [d|] [e|] [f|] [g|]]|]; eauto.
Qed.

Lemma local_rows_bounds (n size : Z) :
  1 <= size -> 0 <= n -> 0 <= Z.quot n size <= n.
Proof.
  intros Hs Hn. split.
  - apply Z.quot_pos; lia.
  - apply Z.quot_le_upper_bound; nia.
Qed.

(** The obstacle phases of [initialise], from the state [s2] the
    allocations and the density loop leave. *)
Lemma obstacle_phases_outcome (p : t_param) (local_ny : Z) (lines : list obstacle_line)
    (s2 : state) :
  (0 < nx p -> 0 <= local_ny <= ny p) ->
  0 <= ny p * nx p ->
  length (obstacles_total s2) = Z.to_nat (ny p * nx p) ->
  length (obstacles s2) = Z.to_nat (local_ny * nx p) ->
  match (zero_obstacles_total p ;; read_obstacles p lines ;;
         copy_local_obstacles p local_ny ;; ret p)%m s2 with
  | (Ok p', st) =>
      p' = p /\ forallb (valid_lineb p) lines = true
      /\ st = set_obstacles (obstacles st) (set_obstacles_total (obstacles_total st) s2)
      /\ length (obstacles_total st) = length (obstacles_total s2)
      /\ length (obstacles st) = length (obstacles s2)
      /\ (forall x y, 0 <= x < nx p -> 0 <= y < ny p ->
            load (obstacles_total st) (x + y * nx p)
            = Ok (if listedb lines x y then 1 else 0))
      /\ (forall x y, 0 <= x < nx p -> 0 <= y < local_ny ->
            load (obstacles st) (x + y * nx p)
            = load (obstacles_total st) (x + y * nx p))
  | (Err e, _) =>
      forallb (valid_lineb p) lines = false /\ exists msg, e = Die msg
  end.
Proof.
  intros Hrows Hsz Hlt Hlo.
  assert (Hzero : exists s3,
            zero_obstacles_total p s2 = (Ok tt, s3)
            /\ s3 = set_obstacles_total (obstacles_total s3) s2
            /\ length (obstacles_total s3) = length (obstacles_total s2)
            /\ forall x y, 0 <= x < nx p -> 0 <= y < ny p ->
                 load (obstacles_total s3) (x + y * nx p) = Ok 0).
  { destruct (Z.le_gt_cases (nx p) 0) as [Hn|Hn].
    - exists s2. split; [apply grid_empty; auto|]. split; [now destruct s2|].
      split; [reflexivity|]. intros x y Hx. lia.
    - destruct (zero_obstacles_total_run p s2) as (s3 & Hrun & Hs3 & Hl3 & Hz); try lia.
      exists s3. repeat split; auto. intros x y Hx Hy. apply Hz. nia. }
  destruct Hzero as (s3 & Hrun3 & Hs3 & Hl3 & Hz).
  unfold bind at 1. rewrite Hrun3.
  pose proof (read_obstacles_outcome p lines s3 ltac:(lia)) as Hread.
  unfold bind at 1.
  destruct (read_obstacles p lines s3) as [[[]|e] s4]; [|exact Hread].
  destruct Hread as (Hall & Hs4 & Hl4 & Hc4).
  assert (Hcopy : exists st,
            copy_local_obstacles p local_ny s4 = (Ok tt, st)
            /\ st = set_obstacles (obstacles st) s4
            /\ length (obstacles st) = length (obstacles s4)
            /\ forall x y, 0 <= x < nx p -> 0 <= y < local_ny ->
                 load (obstacles st) (x + y * nx p)
                 = load (obstacles_total s4) (x + y * nx p)).
  { destruct (Z.le_gt_cases (nx p) 0) as [Hn|Hn].
    - exists s4. split; [apply grid_empty; auto|]. split; [now destruct s4|].
      split; [reflexivity|]. intros x y Hx. lia.
    - specialize (Hrows Hn).
      destruct (copy_local_obstacles_run p local_ny s4) as (st & Hrun & Hst & Hl & Hc);
        try lia.
      + rewrite Hs4, Hs3. cbn [obstacles set_obstacles_total]. rewrite Hlo. lia.
      + intros m Hm.
        assert (Hxy : m = m mod nx p + (m / nx p) * nx p).
        { rewrite (Z.div_mod m (nx p)) at 1 by lia. lia. }
        assert (Hx : 0 <= m mod nx p < nx p) by (apply Z.mod_pos_bound; lia).
        assert (Hy : 0 <= m / nx p < ny p).
        { split; [apply Z.div_pos; lia|]. apply Z.div_lt_upper_bound; nia. }
        rewrite Hxy, (Hc4 _ _ Hx Hy), (Hz _ _ Hx Hy).
        destruct (listedb lines _ _); eauto.
      + exists st. repeat split; auto. intros x y Hx Hy. apply Hc. nia. }
  destruct Hcopy as (st & Hrun5 & Hst & Hl5 & Hc5).
  unfold bind. rewrite Hrun5. cbn [ret].
  split; [reflexivity|]. split; [exact Hall|].
  assert (Hot : obstacles_total st = obstacles_total s4) by (rewrite Hst; reflexivity).
  assert (Ho4 : obstacles s4 = obstacles s2) by (rewrite Hs4, Hs3; reflexivity).
  split; [|split; [|split; [|split]]].
  - rewrite Hst at 1. rewrite Hs4 at 1. rewrite Hs3 at 1. rewrite Hot. reflexivity.
  - rewrite Hot, Hl4, Hl3. reflexivity.
  - rewrite Hl5, Ho4. reflexivity.
  - intros x y Hx Hy. rewrite Hot, (Hc4 _ _ Hx Hy), (Hz _ _ Hx Hy).
    now destruct (listedb lines x y).
  - intros x y Hx Hy. rewrite Hot. apply Hc5; auto.
Qed.

(** Every outcome of [initialise] among at least one process: it returns
    the parameters of the file with the masks filled in, or it has called
    [die]. *)
Lemma initialise_outcome (paramfile : option param_file)
    (obstaclefile : option (list obstacle_line)) (size : Z) (s : state) :
  1 <= size ->
  match initialise paramfile obstaclefile size s with
  | (Ok p, st) =>
      let local_ny := Z.quot (ny p) size in
      load_params paramfile s = (Ok p, s)
      /\ sizes_ok p local_ny
      /\ st = set_obstacles (obstacles st)
                (set_obstacles_total (obstacles_total st)
                   (set_cells (cells st) (allocated p local_ny s)))
      /\ length (cells st) = Z.to_nat ((local_ny + 2) * nx p * NSPEEDS)
      /\ length (obstacles_total st) = Z.to_nat (ny p * nx p)
      /\ length (obstacles st) = Z.to_nat (local_ny * nx p)
      /\ exists lines,
           obstaclefile = Some lines
           /\ forallb (valid_lineb p) lines = true
           /\ (forall x y, 0 <= x < nx p -> 0 <= y < ny p ->
                 load (obstacles_total st) (x + y * nx p)
                 = Ok (if listedb lines x y then 1 else 0))
           /\ (forall x y, 0 <= x < nx p -> 0 <= y < local_ny ->
                 load (obstacles st) (x + y * nx p)
                 = load (obstacles_total st) (x + y * nx p))
  | (Err e, _) =>
      (exists msg, e = Die msg)
      /\ forall p lines,
           load_params paramfile s = (Ok p, s) ->
           sizes_ok p (Z.quot (ny p) size) ->
           obstaclefile = Some lines ->
           forallb (valid_lineb p) lines = false
  end.
Proof.
  intros Hsize. unfold initialise. unfold bind at 1.
  destruct (load_params_cases paramfile s) as [[p Hp]|[msg Hp]]; rewrite Hp.
  2:{ split; [eauto|]. intros p lines [=]. }
  cbn zeta. set (local_ny := Z.quot (ny p) size).
  pose proof (allocate_outcome p local_ny s) as Ha.
  unfold bind at 1.
  destruct (allocate p local_ny s) as [[[]|e] s1].
  2:{ destruct Ha as [Hmsg Hno]. split; [exact Hmsg|].
      intros p' lines [= <-] Hok. contradiction. }
  destruct Ha as [Hok ->].
  assert (Hrows : 0 < nx p -> 0 <= local_ny <= ny p).
  { intros Hn. apply local_rows_bounds; [exact Hsize|]. unfold sizes_ok in Hok. nia. }
  assert (Hinit : exists s2,
            init_densities p local_ny (allocated p local_ny s) = (Ok tt, s2)
            /\ s2 = set_cells (cells s2) (allocated p local_ny s)
            /\ length (cells s2) = length (cells (allocated p local_ny s))).
  { destruct (Z.le_gt_cases (nx p) 0) as [Hn|Hn].
    - exists (allocated p local_ny s). split; [|split; reflexivity].
      unfold init_densities. cbn zeta. apply grid_empty. auto.
    - apply init_densities_run; try lia.
      cbn [cells allocated]. rewrite length_replicate. unfold NSPEEDS.
      specialize (Hrows Hn). nia. }
  destruct Hinit as (s2 & Hrun2 & Hs2 & Hlc).
  unfold bind at 1. rewrite Hrun2.
  destruct obstaclefile as [lines|].
  2:{ unfold bind.
      destruct (zero_obstacles_total p s2) as [[[]|e] s3] eqn:Ez.
      - cbn. split; [eauto|]. intros p' lines' _ _ [=].
      - exfalso.
        pose proof (obstacle_phases_outcome p local_ny [] s2 Hrows) as H.
        unfold bind at 1 in H. rewrite Ez in H.
        destruct H as [H _].
        + unfold sizes_ok in Hok. lia.
        + rewrite Hs2. cbn. rewrite length_replicate. f_equal. lia.
        + rewrite Hs2. cbn. rewrite length_replicate. f_equal. lia.
        + discriminate. }
  pose proof (obstacle_phases_outcome p local_ny lines s2 Hrows) as H.
  destruct ((zero_obstacles_total p ;; read_obstacles p lines ;;
             copy_local_obstacles p local_ny ;; ret p)%m s2) as [[p'|e] st].
  - destruct H as (-> & Hall & Hst & Hlt & Hlo & Hct & Hco).
    + unfold sizes_ok in Hok. lia.
    + rewrite Hs2. cbn. rewrite length_replicate. f_equal. lia.
    + rewrite Hs2. cbn. rewrite length_replicate. f_equal. lia.
    + split; [reflexivity|]. split; [exact Hok|].
      assert (Hcs : cells st = cells s2) by (rewrite Hst; reflexivity).
      split; [|split; [|split; [|split]]].
      * rewrite Hst at 1. rewrite Hs2 at 1. rewrite Hcs. reflexivity.
      * rewrite Hcs, Hlc. cbn. now rewrite length_replicate.
      * rewrite Hlt, Hs2. cbn. rewrite length_replicate. f_equal. lia.
      * rewrite Hlo, Hs2. cbn. rewrite length_replicate. f_equal. lia.
      * exists lines. repeat split; auto.
  - destruct H as [Hall Hmsg].
    + unfold sizes_ok in Hok. lia.
    + rewrite Hs2. cbn. rewrite length_replicate. f_equal. lia.
    + rewrite Hs2. cbn. rewrite length_replicate. f_equal. lia.
    + split; [exact Hmsg|]. intros p' lines' [= <-] _ [= <-]. exact Hall.
Qed.

Lemma load_beyond {A} (a : block A) (i : Z) :
  Z.of_nat (length a) <= i -> load a i = Err OutOfBounds.
Proof.
  intros H. unfold load. destruct (Z.ltb_spec i 0); [reflexivity|].
  rewrite (proj2 (lookup_ge_None a (Z.to_nat i))) by lia. reflexivity.
Qed.

(** * The kernels, value by value *)

Lemma written_upto_intro {A} (a : block A) (n : Z) :
  n <= Z.of_nat (length a) ->
  (forall m, 0 <= m < n -> exists v, load a m = Ok v) ->
  written_upto a n = true.
Proof.
  intros Hlen Hall. unfold written_upto. apply andb_true_intro. split.
  - now apply Z.leb_le.
  - apply forallb_forall. intros o Hin.
    apply list_elem_of_In, list_elem_of_lookup in Hin. destruct Hin as [i Hi].
    assert (Hlt : (i < Z.to_nat n)%nat).
    { apply lookup_lt_Some in Hi. rewrite length_take in Hi. lia. }
    rewrite lookup_take_lt in Hi by exact Hlt.
    destruct (Hall (Z.of_nat i) ltac:(lia)) as [v Hv].
    apply load_ok_iff in Hv. destruct Hv as [_ Hv].
    rewrite Nat2Z.id, Hi in Hv. now injection Hv as ->.
Qed.

Lemma val_ok (a : block R) (m : Z) (v : R) : load a m = Ok v -> val a m = v.
Proof. unfold val. now intros ->. Qed.

Lemma cell_holds_val (a : block R) (idx : Z) :
  (forall k, 0 <= k < NSPEEDS -> exists v, load a (at_speed idx k) = Ok v) ->
  cell_holds a idx (val a (at_speed idx 0)) (val a (at_speed idx 1))
    (val a (at_speed idx 2)) (val a (at_speed idx 3)) (val a (at_speed idx 4))
    (val a (at_speed idx 5)) (val a (at_speed idx 6)) (val a (at_speed idx 7))
    (val a (at_speed idx 8)).
Proof.
  intros H k Hk. destruct (H k Hk) as [v Hv].
  destruct (nine_cases k Hk) as [->|[->|[->|[->|[->|[->|[->|[->| ->]]]]]]]];
    cbn [pick9]; rewrite (val_ok _ _ _ Hv); exact Hv.
Qed.

Lemma written_cell (a : block R) (n idx : Z) :
  written_upto a (n * NSPEEDS) = true -> 0 <= idx < n ->
  forall k, 0 <= k < NSPEEDS -> exists v, load a (at_speed idx k) = Ok v.
Proof.
  intros Hw Hidx k Hk. apply (written_upto_load a (n * NSPEEDS)); [exact Hw|].
  apply at_speed_bound; assumption.
Qed.

(** A double loop over the grid whose body rewrites, at most, the cell it
    is at: what it establishes for each cell holds for all at the end. *)
Lemma grid_cellwise (p : t_param) (body : Z -> Z -> M unit) (s0 : state)
    (Q : Z -> block R -> Prop) :
  0 <= nx p -> 0 <= ny p ->
  (forall idx c c',
     (forall k, 0 <= k < NSPEEDS -> load c' (at_speed idx k) = load c (at_speed idx k)) ->
     Q idx c -> Q idx c') ->
  (forall ii jj st, 0 <= ii < nx p -> 0 <= jj < ny p ->
     tmp_cells st = tmp_cells s0 -> obstacles st = obstacles s0 ->
     length (cells st) = length (cells s0) ->
     (forall k, 0 <= k < NSPEEDS ->
        load (cells st) (at_speed (ii + jj * nx p) k)
        = load (cells s0) (at_speed (ii + jj * nx p) k)) ->
     exists st',
       body ii jj st = (Ok tt, st')
       /\ tmp_cells st' = tmp_cells st /\ obstacles st' = obstacles st
       /\ length (cells st') = length (cells st)
       /\ (forall m, m < (ii + jj * nx p) * NSPEEDS
                     \/ (ii + jj * nx p + 1) * NSPEEDS <= m ->
             load (cells st') m = load (cells st) m)
       /\ Q (ii + jj * nx p) (cells st')) ->
  exists s',
    for_range 0 (ny p) (fun jj => for_range 0 (nx p) (fun ii => body ii jj)) s0
    = (Ok tt, s')
    /\ tmp_cells s' = tmp_cells s0 /\ obstacles s' = obstacles s0
    /\ length (cells s') = length (cells s0)
    /\ (forall m, nx p * ny p * NSPEEDS <= m -> load (cells s') m = load (cells s0) m)
    /\ forall idx, 0 <= idx < nx p * ny p -> Q idx (cells s').
Proof.
  intros Hnx Hny Hext Hbody.
  pose (I := fun (n : Z) (st : state) =>
    tmp_cells st = tmp_cells s0 /\ obstacles st = obstacles s0
    /\ length (cells st) = length (cells s0)
    /\ (forall m, n * NSPEEDS <= m -> load (cells st) m = load (cells s0) m)
    /\ forall idx, 0 <= idx < n -> Q idx (cells st)).
  destruct (grid_total I (nx p) 0 (ny p) body s0 Hnx Hny) as (s' & Hrun & HI).
  - unfold I. repeat split; auto. intros idx Hidx. lia.
  - intros ii jj st Hii Hjj (Ht & Ho & Hl & Hrest & Hdone).
    destruct (Hbody ii jj st Hii Hjj Ht Ho Hl) as (st' & Hrun & Ht' & Ho' & Hl' & Hout & HQ).
    { intros k Hk. apply Hrest. unfold at_speed, NSPEEDS in *. lia. }
    exists st'. split; [exact Hrun|]. unfold I.
    rewrite Ht', Ho', Hl'. repeat split; auto.
    + intros m Hm. rewrite Hout by (unfold NSPEEDS in *; lia).
      apply Hrest. unfold NSPEEDS in *. lia.
    + intros idx Hidx.
      destruct (Z.eq_dec idx (ii + jj * nx p)) as [->|Hd]; [exact HQ|].
      apply (Hext idx (cells st)); [|apply Hdone; lia].
      intros k Hk. apply Hout. unfold at_speed, NSPEEDS in *. lia.
  - destruct HI as (Ht & Ho & Hl & Hrest & Hdone).
    exists s'. repeat split; auto.
    + intros m Hm. apply Hrest. lia.
    + intros idx Hidx. apply Hdone. lia.
Qed.

(** [collision] cell by cell: a fluid cell receives the relaxed populations
    of the scratch grid, an obstacle cell is left as it is. *)
Lemma collision_values (p : t_param) (s : state) :
  0 <= nx p -> 0 <= ny p ->
  written_upto (obstacles s) (nx p * ny p) = true ->
  written_upto (tmp_cells s) (nx p * ny p * NSPEEDS) = true ->
  nx p * ny p * NSPEEDS <= Z.of_nat (length (cells s)) ->
  (forall idx, 0 <= idx < nx p * ny p -> is_fluid (obstacles s) idx ->
     cell_sum (tmp_cells s) idx <> 0%R) ->
  exists s',
    collision p s = (Ok tt, s')
    /\ tmp_cells s' = tmp_cells s /\ obstacles s' = obstacles s
    /\ length (cells s') = length (cells s)
    /\ (forall m, nx p * ny p * NSPEEDS <= m -> load (cells s') m = load (cells s) m)
    /\ forall idx, 0 <= idx < nx p * ny p ->
       forall k, 0 <= k < NSPEEDS ->
         load (cells s') (at_speed idx k)
         = if fluidb (obstacles s) idx
           then Ok (collided (omega p) (tmp_cells s) idx k)
           else load (cells s) (at_speed idx k).
Proof.
  intros Hnx Hny Hwo Hwt Hlen Hrho. unfold collision. rewrite emit_then.
  set (s0 := set_trace (trace s ++ [EvCollision]) s).
  apply (grid_cellwise p (collision_cell p) s0
           (fun idx c => forall k, 0 <= k < NSPEEDS ->
              load c (at_speed idx k)
              = if fluidb (obstacles s) idx
                then Ok (collided (omega p) (tmp_cells s) idx k)
                else load (cells s) (at_speed idx k)) Hnx Hny).
  - intros idx c c' Heq HQ k Hk. rewrite Heq by exact Hk. now apply HQ.
  - intros ii jj st Hii Hjj Ht Ho Hl Hhere.
    cbn [tmp_cells obstacles cells set_trace s0] in Ht, Ho, Hl, Hhere.
    assert (Hb := cell_index_bound (nx p) (ny p) ii jj Hii Hjj).
    destruct (written_upto_load (obstacles s) _ (ii + jj * nx p) Hwo Hb) as [o Hload].
    destruct (Z.eq_dec o 0) as [->|Hne].
    + pose proof (cell_holds_val (tmp_cells s) (ii + jj * nx p)
                    (written_cell _ _ _ Hwt Hb)) as Hc.
      assert (Hroom : (ii + jj * nx p + 1) * NSPEEDS <= Z.of_nat (length (cells st))).
      { rewrite Hl. unfold NSPEEDS in *. nia. }
      eexists. split.
      * eapply collision_cell_fluid;
          [ now rewrite Ho | rewrite Ht; exact Hc
          | change (cell_sum (tmp_cells s) (ii + jj * nx p) <> 0%R); now apply Hrho
          | lia | exact Hroom ].
      * cbn [tmp_cells obstacles cells set_cells]. rewrite length_cell_with.
        repeat split; auto.
        -- intros m Hm. now rewrite load_cell_with_other by slot_side.
        -- intros k Hk. rewrite (proj2 (fluidb_true _ _) Hload).
           rewrite load_cell_with by slot_side. f_equal.
           destruct (nine_cases k Hk) as [->|[->|[->|[->|[->|[->|[->|[->| ->]]]]]]]];
             reflexivity.
    + exists st. split.
      * apply (collision_cell_obstacle p ii jj st o); [now rewrite Ho | exact Hne].
      * repeat split; auto. intros k Hk.
        rewrite (fluidb_false _ _ o Hload Hne). now apply Hhere.
Qed.

(** [accelerate_flow] on one cell, with the test it makes. *)
Lemma accelerate_cell_exact (p : t_param) (a1 a2 : R) (ii jj : Z) (st : state) (o : Z) :
  load (obstacles st) (ii + jj * nx p) = Ok o ->
  (forall k, 0 <= k < NSPEEDS ->
     exists v, load (cells st) (at_speed (ii + jj * nx p) k) = Ok v) ->
  0 <= ii + jj * nx p ->
  exists st1,
    accelerate_cell p a1 a2 ii jj st = (Ok tt, st1)
    /\ tmp_cells st1 = tmp_cells st /\ obstacles st1 = obstacles st
    /\ length (cells st1) = length (cells st)
    /\ (forall m, m < (ii + jj * nx p) * NSPEEDS \/ (ii + jj * nx p + 1) * NSPEEDS <= m ->
          load (cells st1) m = load (cells st) m)
    /\ forall k, 0 <= k < NSPEEDS ->
         load (cells st1) (at_speed (ii + jj * nx p) k)
         = Ok (if pushes a1 a2 (obstacles st) (cells st) (ii + jj * nx p)
               then pushed a1 a2 k (val (cells st) (at_speed (ii + jj * nx p) k))
               else val (cells st) (at_speed (ii + jj * nx p) k)).
Proof.
  intros Ho Hw Hidx.
  pose proof (cell_holds_val (cells st) (ii + jj * nx p) Hw) as Hc.
  assert (Hroom : (ii + jj * nx p + 1) * NSPEEDS <= Z.of_nat (length (cells st))).
  { pose proof (load_ok_bounds _ _ _ (Hc 8 ltac:(unfold NSPEEDS; lia))) as Hb.
    unfold at_speed, NSPEEDS in *. lia. }
  assert (Hval : forall k, 0 <= k < NSPEEDS ->
            load (cells st) (at_speed (ii + jj * nx p) k)
            = Ok (val (cells st) (at_speed (ii + jj * nx p) k))).
  { intros k Hk. destruct (Hw k Hk) as [v Hv]. now rewrite (val_ok _ _ _ Hv). }
  assert (Hsame : pushes a1 a2 (obstacles st) (cells st) (ii + jj * nx p) = false ->
            exists st1 : state,
            (Ok tt, st) = (Ok tt, st1)
            /\ tmp_cells st1 = tmp_cells st /\ obstacles st1 = obstacles st
            /\ length (cells st1) = length (cells st)
            /\ (forall m, m < (ii + jj * nx p) * NSPEEDS
                          \/ (ii + jj * nx p + 1) * NSPEEDS <= m ->
                  load (cells st1) m = load (cells st) m)
            /\ forall k, 0 <= k < NSPEEDS ->
                 load (cells st1) (at_speed (ii + jj * nx p) k)
                 = Ok (if pushes a1 a2 (obstacles st) (cells st) (ii + jj * nx p)
                       then pushed a1 a2 k (val (cells st) (at_speed (ii + jj * nx p) k))
                       else val (cells st) (at_speed (ii + jj * nx p) k))).
  { intros ->. exists st. repeat split; auto. }
  unfold accelerate_cell. unfold bind at 1. unfold rd_obstacles. rewrite Ho.
  destruct (Z.eqb_spec o 0) as [->|Hne]; cbn [negb].
  2:{ apply Hsame. unfold pushes. now rewrite (fluidb_false _ _ o Ho Hne). }
  assert (Hfl : fluidb (obstacles st) (ii + jj * nx p) = true)
    by now apply fluidb_true.
  unfold pushes in *. rewrite Hfl in *. cbn [andb] in *.
  unfold bind at 1. unfold rd_cells at 1. rewrite (Hc 3) by slot_side. cbn [pick9].
  destruct (Rgt_dec (val (cells st) (at_speed (ii + jj * nx p) 3) - a1) 0);
    [|apply Hsame; reflexivity].
  unfold bind at 1. unfold rd_cells at 1. rewrite (Hc 6) by slot_side. cbn [pick9].
  destruct (Rgt_dec (val (cells st) (at_speed (ii + jj * nx p) 6) - a2) 0);
    [|apply Hsame; reflexivity].
  unfold bind at 1. unfold rd_cells at 1. rewrite (Hc 7) by slot_side. cbn [pick9].
  destruct (Rgt_dec (val (cells st) (at_speed (ii + jj * nx p) 7) - a2) 0);
    [|apply Hsame; reflexivity].
  clear Hsame. cbn [andb].
  unfold bind, rd_cells, wr_cells.
  rewrite (Hval 1), store_ok by slot_side. cbn [cells set_cells].
  rewrite !load_insert_ne by (rewrite ?length_insert; slot_side).
  rewrite (Hval 5), store_ok by (rewrite ?length_insert; slot_side).
  cbn [cells set_cells].
  rewrite !load_insert_ne by (rewrite ?length_insert; slot_side).
  rewrite (Hval 8), store_ok by (rewrite ?length_insert; slot_side).
  cbn [cells set_cells].
  rewrite !load_insert_ne by (rewrite ?length_insert; slot_side).
  rewrite (Hval 3), store_ok by (rewrite ?length_insert; slot_side).
  cbn [cells set_cells].
  rewrite !load_insert_ne by (rewrite ?length_insert; slot_side).
  rewrite (Hval 6), store_ok by (rewrite ?length_insert; slot_side).
  cbn [cells set_cells].
  rewrite !load_insert_ne by (rewrite ?length_insert; slot_side).
  rewrite (Hval 7), store_ok by (rewrite ?length_insert; slot_side).
  eexists. split; [reflexivity|].
  cbn [cells tmp_cells obstacles set_cells]. rewrite !length_insert.
  repeat split; auto.
  - intros m Hm. rewrite !load_insert_ne by (rewrite ?length_insert; slot_side).
    reflexivity.
  - intros k Hk.
    destruct (nine_cases k Hk) as [->|[->|[->|[->|[->|[->|[->|[->| ->]]]]]]]];
      cbn [pushed];
      first [ rewrite !load_insert_ne by (rewrite ?length_insert; slot_side);
              apply (Hval _ Hk)
            | rewrite ?load_insert_ne by (rewrite ?length_insert; slot_side);
              apply load_insert_eq; rewrite ?length_insert; slot_side ].
Qed.

(** [accelerate_flow] on its row: the cells that pass the test are pushed,
    every other slot of the grid is as it was. *)
Lemma accelerate_flow_exact (p : t_param) (s : state) :
  0 <= nx p -> 2 <= ny p ->
  written_upto (obstacles s) (nx p * ny p) = true ->
  written_upto (cells s) (nx p * ny p * NSPEEDS) = true ->
  let a1 := (density p * accel p / 9)%R in
  let a2 := (density p * accel p / 36)%R in
  let jj := ny p - 2 in
  exists s',
    accelerate_flow p s = (Ok tt, s')
    /\ tmp_cells s' = tmp_cells s /\ obstacles s' = obstacles s
    /\ length (cells s') = length (cells s)
    /\ (forall m, m < jj * nx p * NSPEEDS \/ (jj + 1) * nx p * NSPEEDS <= m ->
          load (cells s') m = load (cells s) m)
    /\ (forall i k, 0 <= i < nx p -> 0 <= k < NSPEEDS ->
          load (cells s') (at_speed (i + jj * nx p) k)
          = Ok (if pushes a1 a2 (obstacles s) (cells s) (i + jj * nx p)
                then pushed a1 a2 k (val (cells s) (at_speed (i + jj * nx p) k))
                else val (cells s) (at_speed (i + jj * nx p) k))).
Proof.
  intros Hnx Hny Hwo Hwc a1 a2 jj. unfold accelerate_flow. rewrite emit_then.
  cbn zeta. fold a1 a2 jj.
  pose (I := fun (ii : Z) (st : state) =>
    tmp_cells st = tmp_cells s /\ obstacles st = obstacles s
    /\ length (cells st) = length (cells s)
    /\ (forall m, m < jj * nx p * NSPEEDS \/ (ii + jj * nx p) * NSPEEDS <= m ->
          load (cells st) m = load (cells s) m)
    /\ (forall i k, 0 <= i < ii -> 0 <= k < NSPEEDS ->
          load (cells st) (at_speed (i + jj * nx p) k)
          = Ok (if pushes a1 a2 (obstacles s) (cells s) (i + jj * nx p)
                then pushed a1 a2 k (val (cells s) (at_speed (i + jj * nx p) k))
                else val (cells s) (at_speed (i + jj * nx p) k)))).
  destruct (for_range_total I 0 (nx p) (fun ii => accelerate_cell p a1 a2 ii jj)
              (set_trace (trace s ++ [EvAccelerate]) s) Hnx) as (s' & Hrun & HI).
  - unfold I. cbn [tmp_cells obstacles cells set_trace]. repeat split; auto.
    intros i k Hi. lia.
  - intros ii st Hii (Ht & Ho & Hl & Hrest & Hdone).
    assert (Hjj : 0 <= jj < ny p) by (subst jj; lia).
    assert (Hb := cell_index_bound (nx p) (ny p) ii jj Hii Hjj).
    destruct (written_upto_load (obstacles s) _ (ii + jj * nx p) Hwo Hb) as [o Hload].
    assert (Hhere : forall k, 0 <= k < NSPEEDS ->
              load (cells st) (at_speed (ii + jj * nx p) k)
              = load (cells s) (at_speed (ii + jj * nx p) k)).
    { intros k Hk. apply Hrest. right. unfold at_speed, NSPEEDS in *. lia. }
    destruct (accelerate_cell_exact p a1 a2 ii jj st o)
      as (st1 & Hcell & Ht1 & Ho1 & Hl1 & Hout & Hacc).
    { now rewrite Ho. }
    { intros k Hk. rewrite Hhere by exact Hk. now apply (written_cell _ _ _ Hwc Hb). }
    { lia. }
    exists st1. split; [exact Hcell|]. unfold I.
    rewrite Ht1, Ho1, Hl1. repeat split; auto.
    + intros m Hm. rewrite Hout.
      * apply Hrest. unfold NSPEEDS in *. lia.
      * unfold NSPEEDS in *. lia.
    + intros i k Hi Hk.
      destruct (Z.eq_dec i ii) as [->|Hd].
      * rewrite (Hacc k Hk), Ho.
        assert (Hv : forall k', 0 <= k' < NSPEEDS ->
                  val (cells st) (at_speed (ii + jj * nx p) k')
                  = val (cells s) (at_speed (ii + jj * nx p) k')).
        { intros k' Hk'. unfold val. now rewrite Hhere by exact Hk'. }
        unfold pushes. rewrite !Hv by slot_side. reflexivity.
      * rewrite Hout by (left; unfold at_speed, NSPEEDS in *; lia).
        apply Hdone; [lia | exact Hk].
  - exists s'. destruct HI as (Ht & Ho & Hl & Hrest & Hdone).
    repeat split; auto.
    intros m Hm. apply Hrest. unfold NSPEEDS in *. lia.
Qed.

Lemma positive_written (a : block R) (n : Z) :
  positive_upto a n -> written_upto a n = true.
Proof.
  intros Hp. apply written_upto_intro.
  - destruct (Z.le_gt_cases n 0) as [|Hn]; [lia|].
    destruct (Hp (n - 1) ltac:(lia)) as (v & Hv & _).
    apply load_ok_bounds in Hv. lia.
  - intros m Hm. destruct (Hp m Hm) as (v & Hv & _). eauto.
Qed.

Lemma positive_val (a : block R) (n m : Z) :
  positive_upto a n -> 0 <= m < n -> load a m = Ok (val a m) /\ (0 < val a m)%R.
Proof.
  intros Hp Hm. destruct (Hp m Hm) as (v & Hv & Hpos).
  now rewrite (val_ok _ _ _ Hv).
Qed.

Lemma positive_cell_sum (a : block R) (n idx : Z) :
  positive_upto a (n * NSPEEDS) -> 0 <= idx < n -> (0 < cell_sum a idx)%R.
Proof.
  intros Hp Hidx.
  assert (H : forall k, 0 <= k < NSPEEDS -> (0 < val a (at_speed idx k))%R).
  { intros k Hk. apply (positive_val a (n * NSPEEDS)); [exact Hp|].
    now apply at_speed_bound. }
  unfold cell_sum, sum9.
  pose proof (H 0 ltac:(slot_side)). pose proof (H 1 ltac:(slot_side)).
  pose proof (H 2 ltac:(slot_side)). pose proof (H 3 ltac:(slot_side)).
  pose proof (H 4 ltac:(slot_side)). pose proof (H 5 ltac:(slot_side)).
  pose proof (H 6 ltac:(slot_side)). pose proof (H 7 ltac:(slot_side)).
  pose proof (H 8 ltac:(slot_side)). lra.
Qed.

Lemma load_replicate_Some {A} (n m : Z) (v : A) :
  0 <= m < n -> load (replicate (Z.to_nat n) (Some v)) m = Ok v.
Proof.
  intros Hm. unfold load. destruct (Z.ltb_spec m 0); [lia|].
  rewrite lookup_replicate_2 by lia. reflexivity.
Qed.

(** Cell numbers and coordinates. *)
Lemma cell_coordinates (n m idx : Z) :
  0 <= n -> 0 <= idx < n * m ->
  exists i j, 0 <= i < n /\ 0 <= j < m /\ idx = i + j * n.
Proof.
  intros Hn0 Hidx.
  assert (Hn : 0 < n).
  { destruct (Z.eq_dec n 0) as [->|]; [rewrite Z.mul_0_l in Hidx|]; lia. }
  exists (idx mod n), (idx / n).
  split; [apply Z.mod_pos_bound; lia|]. split.
  - split; [apply Z.div_pos; lia|]. apply Z.div_lt_upper_bound; nia.
  - rewrite (Z.div_mod idx n) at 1 by lia. lia.
Qed.

(** The example grid of two by two cells. *)
Lemma square_cells_positive :
  positive_upto (cells square_state) (nx square_params * ny square_params * NSPEEDS).
Proof.
  intros m Hm. exists 1%R. split; [|lra].
  apply (load_replicate_Some 36 m). exact Hm.
Qed.

Lemma square_scratch_positive :
  positive_upto (tmp_cells square_state)
    (nx square_params * ny square_params * NSPEEDS).
Proof.
  intros m Hm. exists 1%R. split; [|lra].
  apply (load_replicate_Some 36 m). exact Hm.
Qed.

(** * total_density *)

Lemma sum_upto_succ (j : Z) (f : Z -> R) :
  0 <= j -> sum_upto (Z.to_nat (j + 1)) f = (sum_upto (Z.to_nat j) f + f j)%R.
Proof.
  intros Hj. replace (Z.to_nat (j + 1)) with (S (Z.to_nat j)) by lia.
  cbn [sum_upto]. now rewrite Z2Nat.id by exact Hj.
Qed.

Lemma total_density_cell (idx : Z) (total : R) (st : state) :
  (forall k, 0 <= k < NSPEEDS -> exists v, load (cells st) (at_speed idx k) = Ok v) ->
  for_acc 0 NSPEEDS (fun kk total => v <- rd_cells idx kk ;; ret (total + v)%R) total st
  = (Ok (total + cell_sum (cells st) idx)%R, st).
Proof.
  intros Hw. pose proof (rd_cells_holds st idx _ _ _ _ _ _ _ _ _ (cell_holds_val _ _ Hw)) as Hrd.
  unfold for_acc. change (Z.to_nat (NSPEEDS - 0)) with 9%nat.
  cbn [for_from]. unfold bind.
  rewrite (Hrd 0) by slot_side. cbv beta iota. unfold ret at 1. cbv beta iota.
  change (0 + 1) with 1.
  rewrite (Hrd 1) by slot_side. cbv beta iota. unfold ret at 1. cbv beta iota.
  change (1 + 1) with 2.
  rewrite (Hrd 2) by slot_side. cbv beta iota. unfold ret at 1. cbv beta iota.
  change (2 + 1) with 3.
  rewrite (Hrd 3) by slot_side. cbv beta iota. unfold ret at 1. cbv beta iota.
  change (3 + 1) with 4.
  rewrite (Hrd 4) by slot_side. cbv beta iota. unfold ret at 1. cbv beta iota.
  change (4 + 1) with 5.
  rewrite (Hrd 5) by slot_side. cbv beta iota. unfold ret at 1. cbv beta iota.
  change (5 + 1) with 6.
  rewrite (Hrd 6) by slot_side. cbv beta iota. unfold ret at 1. cbv beta iota.
  change (6 + 1) with 7.
  rewrite (Hrd 7) by slot_side. cbv beta iota. unfold ret at 1. cbv beta iota.
  change (7 + 1) with 8.
  rewrite (Hrd 8) by slot_side. cbv beta iota. unfold ret at 1. cbv beta iota.
  change (8 + 1) with 9.
  unfold ret. apply (f_equal (fun v : R => (Ok v, st))). unfold cell_sum, sum9. cbn [pick9]. lra.
Qed.

(** [total_density] adds up every population of the grid and changes
    nothing. *)
Lemma total_density_run (p : t_param) (s : state) :
  0 <= nx p -> 0 <= ny p ->
  written_upto (cells s) (nx p * ny p * NSPEEDS) = true ->
  total_density p s = (Ok (total_mass p (cells s)), s).
Proof.
  intros Hnx Hny Hw. unfold total_density, total_mass, grid_sum.
  set (row := fun j => sum_upto (Z.to_nat (nx p))
                         (fun i => cell_sum (cells s) (i + j * nx p))).
  destruct (for_acc_total
              (fun jj total =>
                 for_acc 0 (nx p) (fun ii total =>
                   for_acc 0 NSPEEDS (fun kk total =>
                     v <- rd_cells (ii + jj * nx p) kk ;; ret (total + v)%R) total) total)
              (fun j total st => st = s /\ total = sum_upto (Z.to_nat j) row)
              0 (ny p) 0%R s Hny) as (total & s' & Hrun & -> & ->).
  - split; reflexivity.
  - intros j total st Hj [-> ->].
    destruct (for_acc_total
                (fun ii total =>
                   for_acc 0 NSPEEDS (fun kk total =>
                     v <- rd_cells (ii + j * nx p) kk ;; ret (total + v)%R) total)
                (fun i total st =>
                   st = s
                   /\ total = (sum_upto (Z.to_nat j) row
                               + sum_upto (Z.to_nat i)
                                   (fun i' => cell_sum (cells s) (i' + j * nx p)))%R)
                0 (nx p) (sum_upto (Z.to_nat j) row) s Hnx)
      as (total & s' & Hrun & -> & ->).
    + split; [reflexivity|]. change (Z.to_nat 0) with 0%nat. cbn [sum_upto]. lra.
    + intros i total st Hi [-> ->].
      eexists _, s. split.
      * apply total_density_cell.
        apply (written_cell _ (nx p * ny p)); [exact Hw|].
        now apply cell_index_bound.
      * split; [reflexivity|]. rewrite sum_upto_succ by lia. lra.
    + exists (sum_upto (Z.to_nat j) row
              + sum_upto (Z.to_nat (nx p))
                  (fun i' => cell_sum (cells s) (i' + j * nx p)))%R, s.
      split; [exact Hrun|]. split; [reflexivity|].
      rewrite sum_upto_succ by lia. reflexivity.
  - exact Hrun.
Qed.

(** * timestep *)

Lemma slot_coordinates (n m : Z) :
  0 <= m < n * NSPEEDS ->
  exists idx k, 0 <= idx < n /\ 0 <= k < NSPEEDS /\ m = at_speed idx k.
Proof.
  intros Hm. exists (m / NSPEEDS), (m mod NSPEEDS). unfold at_speed, NSPEEDS in *.
  split; [|split].
  - split; [apply Z.div_pos; lia|]. apply Z.div_lt_upper_bound; lia.
  - apply Z.mod_pos_bound. lia.
  - rewrite (Z.div_mod m 9) at 1 by lia. lia.
Qed.

Lemma val_ext (a b : block R) (m m' : Z) : load a m = load b m' -> val a m = val b m'.
Proof. unfold val. now intros ->. Qed.

(** [accelerate_flow] on a grid of positive populations. *)
Lemma accelerate_flow_positive (p : t_param) (s : state) :
  0 <= nx p -> 2 <= ny p ->
  written_upto (obstacles s) (nx p * ny p) = true ->
  positive_upto (cells s) (nx p * ny p * NSPEEDS) ->
  (0 <= density p * accel p)%R ->
  exists s',
    accelerate_flow p s = (Ok tt, s')
    /\ tmp_cells s' = tmp_cells s /\ obstacles s' = obstacles s
    /\ length (cells s') = length (cells s)
    /\ positive_upto (cells s') (nx p * ny p * NSPEEDS)
    /\ (forall idx, 0 <= idx < nx p * ny p ->
          cell_sum (cells s') idx = cell_sum (cells s) idx)
    /\ (forall idx, 0 <= idx < nx p * ny p ->
          load (cells s') (at_speed idx 0) = load (cells s) (at_speed idx 0)).
Proof.
  intros Hnx Hny Hwo Hpos Ha.
  destruct (accelerate_flow_exact p s Hnx Hny Hwo (positive_written _ _ Hpos))
    as (s' & Hrun & Ht & Ho & Hl & Hout & Hrow).
  assert (Hcell : forall idx k, 0 <= idx < nx p * ny p -> 0 <= k < NSPEEDS ->
            (load (cells s') (at_speed idx k) = load (cells s) (at_speed idx k))
            \/ ((ny p - 2) * nx p <= idx < (ny p - 2 + 1) * nx p
                /\ load (cells s') (at_speed idx k)
                   = Ok (if pushes (density p * accel p / 9) (density p * accel p / 36)
                              (obstacles s) (cells s) idx
                         then pushed (density p * accel p / 9) (density p * accel p / 36) k
                                (val (cells s) (at_speed idx k))
                         else val (cells s) (at_speed idx k)))).
  { intros idx k Hidx Hk.
    destruct (Z.lt_ge_cases idx ((ny p - 2) * nx p)) as [Hlo|Hlo];
      [left; apply Hout; left; unfold at_speed, NSPEEDS in *; lia|].
    destruct (Z.le_gt_cases ((ny p - 2 + 1) * nx p) idx) as [Hhi|Hhi];
      [left; apply Hout; right; unfold at_speed, NSPEEDS in *; lia|].
    right. split; [lia|].
    replace idx with ((idx - (ny p - 2) * nx p) + (ny p - 2) * nx p) by lia.
    apply Hrow; [lia | exact Hk]. }
  assert (Hc : forall idx k, 0 <= idx < nx p * ny p -> 0 <= k < NSPEEDS ->
            load (cells s) (at_speed idx k) = Ok (val (cells s) (at_speed idx k))
            /\ (0 < val (cells s) (at_speed idx k))%R).
  { intros idx k Hidx Hk. apply (positive_val _ _ _ Hpos). now apply at_speed_bound. }
  exists s'. split; [exact Hrun|]. split; [exact Ht|]. split; [exact Ho|].
  split; [exact Hl|]. split; [|split].
  - intros m Hm. destruct (slot_coordinates _ _ Hm) as (idx & k & Hidx & Hk & ->).
    destruct (Hcell idx k Hidx Hk) as [->|[_ ->]].
    + destruct (Hc idx k Hidx Hk). eauto.
    + eexists. split; [reflexivity|].
      unfold pushes.
      destruct (fluidb _ _); cbn [andb]; [|now apply Hc].
      destruct (Rgt_dec _ _) as [H3|]; cbn [andb]; [|now apply Hc].
      destruct (Rgt_dec _ _) as [H6|]; cbn [andb]; [|now apply Hc].
      destruct (Rgt_dec _ _) as [H7|]; cbn [andb]; [|now apply Hc].
      destruct (Hc idx k Hidx Hk) as [_ Hv].
      destruct (nine_cases k Hk) as [->|[->|[->|[->|[->|[->|[->|[->| ->]]]]]]]];
        cbn [pushed]; lra.
  - intros idx Hidx.
    destruct (Hcell idx 0 Hidx ltac:(slot_side)) as [_|[Hin _]].
    + destruct (Z.lt_ge_cases idx ((ny p - 2) * nx p)) as [Hlo|Hlo];
        [apply cell_sum_ext; intros k Hk; apply Hout; left;
         unfold at_speed, NSPEEDS in *; lia|].
      destruct (Z.le_gt_cases ((ny p - 2 + 1) * nx p) idx) as [Hhi|Hhi];
        [apply cell_sum_ext; intros k Hk; apply Hout; right;
         unfold at_speed, NSPEEDS in *; lia|].
      assert (Hv : forall k, 0 <= k < NSPEEDS ->
                val (cells s') (at_speed idx k)
                = if pushes (density p * accel p / 9) (density p * accel p / 36)
                       (obstacles s) (cells s) idx
                  then pushed (density p * accel p / 9) (density p * accel p / 36) k
                         (val (cells s) (at_speed idx k))
                  else val (cells s) (at_speed idx k)).
      { intros k Hk. apply val_ok.
        replace idx with ((idx - (ny p - 2) * nx p) + (ny p - 2) * nx p) by lia.
        apply Hrow; [lia | exact Hk]. }
      unfold cell_sum, sum9. rewrite !Hv by slot_side.
      destruct (pushes _ _ _ _ idx); cbn [pushed]; lra.
    + assert (Hv : forall k, 0 <= k < NSPEEDS ->
                val (cells s') (at_speed idx k)
                = if pushes (density p * accel p / 9) (density p * accel p / 36)
                       (obstacles s) (cells s) idx
                  then pushed (density p * accel p / 9) (density p * accel p / 36) k
                         (val (cells s) (at_speed idx k))
                  else val (cells s) (at_speed idx k)).
      { intros k Hk. apply val_ok.
        replace idx with ((idx - (ny p - 2) * nx p) + (ny p - 2) * nx p) by lia.
        apply Hrow; [lia | exact Hk]. }
      unfold cell_sum, sum9. rewrite !Hv by slot_side.
      destruct (pushes _ _ _ _ idx); cbn [pushed]; lra.
  - intros idx Hidx.
    destruct (Hcell idx 0 Hidx ltac:(slot_side)) as [H|[_ H]]; [exact H|].
    rewrite H. destruct (Hc idx 0 Hidx ltac:(slot_side)) as [-> _].
    now destruct (pushes _ _ _ _ idx).
Qed.

(** One time step on a grid of positive populations: it completes, and the
    populations of each cell add up to what the scratch grid holds for the
    cell after [propagate]. *)
Lemma timestep_mass (p : t_param) (s : state) :
  0 <= nx p -> 2 <= ny p ->
  written_upto (obstacles s) (nx p * ny p) = true ->
  positive_upto (cells s) (nx p * ny p * NSPEEDS) ->
  nx p * ny p * NSPEEDS <= Z.of_nat (length (tmp_cells s)) ->
  (0 <= density p * accel p)%R ->
  exists s',
    timestep p s = (Ok tt, s')
    /\ obstacles s' = obstacles s
    /\ length (cells s') = length (cells s)
    /\ length (tmp_cells s') = length (tmp_cells s)
    /\ written_upto (cells s') (nx p * ny p * NSPEEDS) = true
    /\ total_mass p (cells s') = total_mass p (cells s).
Proof.
  intros Hnx Hny Hwo Hpos Hlt Ha.
  assert (Hny0 : 0 <= ny p) by lia.
  (* accelerate_flow *)
  destruct (accelerate_flow_positive p s Hnx Hny Hwo Hpos Ha)
    as (s1 & R1 & Ht1 & Ho1 & Hl1 & Hpos1 & Hsum1 & _).
  (* propagate *)
  destruct (propagate_run p s1 Hnx Hny0 (positive_written _ _ Hpos1))
    as (s2 & R2 & Hc2 & Ho2 & _ & Hl2 & Hpull); [rewrite Ht1; exact Hlt|].
  assert (Hpos2 : positive_upto (tmp_cells s2) (nx p * ny p * NSPEEDS)).
  { intros m Hm. destruct (slot_coordinates _ _ Hm) as (idx & k & Hidx & Hk & ->).
    destruct (cell_coordinates _ _ _ Hnx Hidx) as (i & j & Hi & Hj & ->).
    rewrite (Hpull i j k Hi Hj ltac:(nia) Hk).
    destruct (upstream_in_range p k i j Hi Hj) as [Hu Hv].
    apply Hpos1. apply at_speed_bound; [|exact Hk].
    now apply cell_index_bound. }
  assert (Hw2 : written_upto (tmp_cells s2) (nx p * ny p * NSPEEDS) = true)
    by now apply positive_written.
  assert (Hlc : nx p * ny p * NSPEEDS <= Z.of_nat (length (cells s))).
  { apply written_upto_length. now apply positive_written. }
  (* rebound *)
  destruct (rebound_run p s2 Hnx Hny0) as (s3 & R3 & Ht3 & Ho3 & Hl3 & Hreb).
  { now rewrite Ho2, Ho1. }
  { exact Hw2. }
  { rewrite Hc2, Hl1. exact Hlc. }
  (* collision *)
  destruct (collision_run p s3 Hnx Hny0) as (s4 & R4 & Ht4 & Ho4 & Hl4 & Hcol).
  { now rewrite Ho3, Ho2, Ho1. }
  { now rewrite Ht3. }
  { rewrite Hl3, Hc2, Hl1. exact Hlc. }
  { intros idx Hidx _. rewrite Ht3. apply Rgt_not_eq.
    now apply (positive_cell_sum _ (nx p * ny p)). }
  assert (Hos : obstacles s3 = obstacles s2) by exact Ho3.
  (* each cell of the result *)
  assert (Hcell : forall idx, 0 <= idx < nx p * ny p ->
            (forall k, 0 <= k < NSPEEDS ->
               exists v, load (cells s4) (at_speed idx k) = Ok v)
            /\ cell_sum (cells s4) idx = cell_sum (tmp_cells s2) idx).
  { intros idx Hidx. specialize (Hcol idx Hidx). specialize (Hreb idx Hidx).
    unfold rebounded in Hreb. rewrite Ho3 in Hcol.
    destruct (fluidb (obstacles s2) idx).
    - destruct Hcol as [Hv Hs]. split; [exact Hv|]. now rewrite Hs, Ht3.
    - destruct Hreb as [H0 H8].
      destruct (cell_coordinates _ _ _ Hnx Hidx) as (i & j & Hi & Hj & Hij).
      assert (H0' : load (cells s3) (at_speed idx 0) = load (tmp_cells s2) (at_speed idx 0)).
      { rewrite H0, Hc2, Hij.
        rewrite (Hpull i j 0 Hi Hj ltac:(nia) ltac:(slot_side)). reflexivity. }
      assert (Hop : forall k, 0 <= k < NSPEEDS -> 0 <= opposite k < NSPEEDS).
      { intros k Hk.
        destruct (nine_cases k Hk) as [->|[->|[->|[->|[->|[->|[->|[->| ->]]]]]]]];
          cbn [opposite]; unfold NSPEEDS; lia. }
      assert (Hld : forall k, 0 <= k < NSPEEDS ->
                load (cells s4) (at_speed idx k)
                = load (tmp_cells s2) (at_speed idx (opposite k))).
      { intros k Hk. rewrite (Hcol k Hk).
        destruct (Z.eq_dec k 0) as [->|Hk0]; [exact H0'|].
        apply H8. lia. }
      split.
      + intros k Hk. rewrite (Hld k Hk).
        apply (written_cell _ _ _ Hw2 Hidx). now apply Hop.
      + unfold cell_sum.
        rewrite (val_ext _ _ _ _ (Hld 0 ltac:(slot_side))),
                (val_ext _ _ _ _ (Hld 1 ltac:(slot_side))),
                (val_ext _ _ _ _ (Hld 2 ltac:(slot_side))),
                (val_ext _ _ _ _ (Hld 3 ltac:(slot_side))),
                (val_ext _ _ _ _ (Hld 4 ltac:(slot_side))),
                (val_ext _ _ _ _ (Hld 5 ltac:(slot_side))),
                (val_ext _ _ _ _ (Hld 6 ltac:(slot_side))),
                (val_ext _ _ _ _ (Hld 7 ltac:(slot_side))),
                (val_ext _ _ _ _ (Hld 8 ltac:(slot_side))).
        cbn [opposite]. unfold sum9. lra. }
  exists s4. split.
  { unfold timestep, bind. now rewrite R1, R2, R3, R4. }
  split; [now rewrite Ho4, Ho3, Ho2, Ho1|].
  split; [now rewrite Hl4, Hl3, Hc2, Hl1|].
  split; [now rewrite Ht4, Ht3, Hl2, Ht1|].
  split.
  - apply written_upto_intro; [rewrite Hl4, Hl3, Hc2, Hl1; exact Hlc|].
    intros m Hm. destruct (slot_coordinates _ _ Hm) as (idx & k & Hidx & Hk & ->).
    now apply (proj1 (Hcell idx Hidx)).
  - transitivity (total_mass p (tmp_cells s2)).
    + unfold total_mass. apply grid_sum_ext. intros i j Hi Hj.
      apply Hcell. now apply cell_index_bound.
    + rewrite (pulled_total_mass p (cells s1) (tmp_cells s2) Hnx Hny0 Hpull).
      unfold total_mass. apply grid_sum_ext. intros i j Hi Hj.
      apply Hsum1. now apply cell_index_bound.
Qed.

(** * A fluid at rest *)

Lemma at_rest_written (p : t_param) (d : R) (c : block R) :
  at_rest p d c -> written_upto c (nx p * ny p * NSPEEDS) = true.
Proof.
  intros Hr.
  assert (Hall : forall m, 0 <= m < nx p * ny p * NSPEEDS -> exists v, load c m = Ok v).
  { intros m Hm. destruct (slot_coordinates _ _ Hm) as (idx & k & Hidx & Hk & ->).
    eexists. now apply Hr. }
  apply written_upto_intro; [|exact Hall].
  destruct (Z.le_gt_cases (nx p * ny p * NSPEEDS) 0) as [|Hn]; [lia|].
  destruct (Hall (nx p * ny p * NSPEEDS - 1) ltac:(lia)) as [v Hv].
  apply load_ok_bounds in Hv. lia.
Qed.

Lemma at_rest_val (p : t_param) (d : R) (c : block R) (idx k : Z) :
  at_rest p d c -> 0 <= idx < nx p * ny p -> 0 <= k < NSPEEDS ->
  val c (at_speed idx k) = rest d k.
Proof. intros Hr Hidx Hk. apply val_ok. now apply Hr. Qed.

Lemma at_rest_cell_sum (p : t_param) (d : R) (c : block R) (idx : Z) :
  at_rest p d c -> 0 <= idx < nx p * ny p -> cell_sum c idx = d.
Proof.
  intros Hr Hidx. unfold cell_sum.
  rewrite !(at_rest_val p d c idx) by slot_side.
  unfold rest, sum9. cbn [pick9]. field.
Qed.

Lemma at_rest_momentum (p : t_param) (d : R) (c : block R) (idx : Z) :
  at_rest p d c -> 0 <= idx < nx p * ny p ->
  momentum_x c idx = 0%R /\ momentum_y c idx = 0%R.
Proof.
  intros Hr Hidx. unfold momentum_x, momentum_y.
  rewrite !(at_rest_val p d c idx) by slot_side.
  unfold rest. cbn [pick9]. split; field.
Qed.

Lemma rest_opposite (d : R) (k : Z) :
  0 <= k < NSPEEDS -> rest d (opposite k) = rest d k.
Proof.
  intros Hk.
  destruct (nine_cases k Hk) as [->|[->|[->|[->|[->|[->|[->|[->| ->]]]]]]]]; reflexivity.
Qed.

(** The equilibrium of a cell at rest is the cell itself. *)
Lemma collided_rest (om d : R) (p : t_param) (t : block R) (idx k : Z) :
  at_rest p d t -> d <> 0%R -> 0 <= idx < nx p * ny p -> 0 <= k < NSPEEDS ->
  collided om t idx k = rest d k.
Proof.
  intros Hr Hd Hidx Hk. unfold collided.
  rewrite (at_rest_cell_sum p d t idx Hr Hidx).
  destruct (at_rest_momentum p d t idx Hr Hidx) as [-> ->].
  rewrite (at_rest_val p d t idx k Hr Hidx Hk).
  destruct (nine_cases k Hk) as [->|[->|[->|[->|[->|[->|[->|[->| ->]]]]]]]];
    unfold relaxed, d_equ, u_dir, rest, w0, w1, w2, c_sq; cbn [pick9];
    field; exact Hd.
Qed.

(** Without acceleration a time step leaves a fluid at rest as it is. *)
Lemma timestep_rest (p : t_param) (d : R) (s : state) :
  0 <= nx p -> 2 <= ny p ->
  written_upto (obstacles s) (nx p * ny p) = true ->
  at_rest p d (cells s) ->
  nx p * ny p * NSPEEDS <= Z.of_nat (length (tmp_cells s)) ->
  accel p = 0%R -> d <> 0%R ->
  exists s',
    timestep p s = (Ok tt, s')
    /\ at_rest p d (cells s')
    /\ length (tmp_cells s') = length (tmp_cells s).
Proof.
  intros Hnx Hny Hwo Hr Hlt Hacc Hd.
  assert (Hny0 : 0 <= ny p) by lia.
  pose proof (at_rest_written p d _ Hr) as Hwc.
  (* accelerate_flow *)
  destruct (accelerate_flow_exact p s Hnx Hny Hwo Hwc)
    as (s1 & R1 & Ht1 & Ho1 & Hl1 & Hout & Hrow).
  assert (Hr1 : at_rest p d (cells s1)).
  { intros idx k Hidx Hk.
    destruct (Z.lt_ge_cases idx ((ny p - 2) * nx p)) as [Hlo|Hlo];
      [rewrite Hout by (left; unfold at_speed, NSPEEDS in *; lia); now apply Hr|].
    destruct (Z.le_gt_cases ((ny p - 2 + 1) * nx p) idx) as [Hhi|Hhi];
      [rewrite Hout by (right; unfold at_speed, NSPEEDS in *; lia); now apply Hr|].
    replace idx with ((idx - (ny p - 2) * nx p) + (ny p - 2) * nx p) by lia.
    rewrite Hrow by (try lia; exact Hk).
    replace (idx - (ny p - 2) * nx p + (ny p - 2) * nx p) with idx by lia.
    rewrite (at_rest_val p d _ idx k Hr Hidx Hk), Hacc. f_equal.
    destruct (pushes _ _ _ _ idx); [|reflexivity].
    destruct (nine_cases k Hk) as [->|[->|[->|[->|[->|[->|[->|[->| ->]]]]]]]];
      cbn [pushed]; lra. }
  (* propagate *)
  destruct (propagate_run p s1 Hnx Hny0 (at_rest_written p d _ Hr1))
    as (s2 & R2 & Hc2 & Ho2 & _ & Hl2 & Hpull); [rewrite Ht1; exact Hlt|].
  assert (Hr2 : at_rest p d (tmp_cells s2)).
  { intros idx k Hidx Hk.
    destruct (cell_coordinates _ _ _ Hnx Hidx) as (i & j & Hi & Hj & ->).
    rewrite (Hpull i j k Hi Hj ltac:(nia) Hk).
    destruct (upstream_in_range p k i j Hi Hj) as [Hu Hv].
    apply Hr1; [now apply cell_index_bound | exact Hk]. }
  assert (Hlc : nx p * ny p * NSPEEDS <= Z.of_nat (length (cells s)))
    by now apply written_upto_length.
  (* rebound *)
  destruct (rebound_run p s2 Hnx Hny0) as (s3 & R3 & Ht3 & Ho3 & Hl3 & Hreb).
  { now rewrite Ho2, Ho1. }
  { exact (at_rest_written p d _ Hr2). }
  { rewrite Hc2, Hl1. exact Hlc. }
  assert (Hr3 : at_rest p d (cells s3)).
  { intros idx k Hidx Hk. specialize (Hreb idx Hidx). unfold rebounded in Hreb.
    destruct (fluidb (obstacles s2) idx).
    - rewrite (Hreb k Hk), Hc2. now apply Hr1.
    - destruct Hreb as [H0 H8].
      destruct (Z.eq_dec k 0) as [->|Hk0].
      + rewrite H0, Hc2. now apply Hr1.
      + rewrite H8 by lia. rewrite <- (rest_opposite d k Hk).
        apply Hr2; [exact Hidx|].
        destruct (nine_cases k Hk) as [->|[->|[->|[->|[->|[->|[->|[->| ->]]]]]]]];
          cbn [opposite]; unfold NSPEEDS; lia. }
  (* collision *)
  destruct (collision_values p s3 Hnx Hny0) as (s4 & R4 & Ht4 & Ho4 & Hl4 & _ & Hcol).
  { now rewrite Ho3, Ho2, Ho1. }
  { rewrite Ht3. exact (at_rest_written p d _ Hr2). }
  { rewrite Hl3, Hc2, Hl1. exact Hlc. }
  { intros idx Hidx _. rewrite Ht3, (at_rest_cell_sum p d _ idx Hr2 Hidx). exact Hd. }
  exists s4. split.
  { unfold timestep, bind. now rewrite R1, R2, R3, R4. }
  split; [|now rewrite Ht4, Ht3, Hl2, Ht1].
  intros idx k Hidx Hk. rewrite (Hcol idx Hidx k Hk).
  destruct (fluidb (obstacles s3) idx).
  - rewrite Ht3. f_equal. now apply (collided_rest _ d p).
  - now apply Hr3.
Qed.

(** * av_velocity, value by value *)

Lemma av_velocity_cell_exact (p : t_param) (ii jj : Z) (acc : R * Z) (st : state) :
  load (obstacles st) (ii + jj * nx p) = Ok 0 ->
  (forall k, 0 <= k < NSPEEDS ->
     exists v, load (cells st) (at_speed (ii + jj * nx p) k) = Ok v) ->
  cell_sum (cells st) (ii + jj * nx p) <> 0%R ->
  let u_x := (momentum_x (cells st) (ii + jj * nx p)
              / cell_sum (cells st) (ii + jj * nx p))%R in
  let u_y := (momentum_y (cells st) (ii + jj * nx p)
              / cell_sum (cells st) (ii + jj * nx p))%R in
  av_velocity_cell p ii jj acc st
  = (Ok ((fst acc + sqrt (u_x * u_x + u_y * u_y))%R, snd acc + 1), st).
Proof.
  intros Ho Hw Hsum u_x u_y. unfold av_velocity_cell.
  unfold cell_sum in Hsum.
  unfold bind at 1. unfold rd_obstacles. rewrite Ho. cbn [Z.eqb negb].
  pose proof (rd_cells_holds st _ _ _ _ _ _ _ _ _ _ (cell_holds_val _ _ Hw)) as Hrd.
  unfold bind.
  rewrite (cell_density_run rd_cells _ st _ _ _ _ _ _ _ _ _ Hrd).
  rewrite (cell_u_x_run rd_cells _ st _ _ _ _ _ _ _ _ _ Hrd _ Hsum).
  rewrite (cell_u_y_run rd_cells _ st _ _ _ _ _ _ _ _ _ Hrd _ Hsum).
  reflexivity.
Qed.

(** The average velocity of a fluid at rest is 0. *)
Lemma av_velocity_rest (p : t_param) (d : R) (s : state) :
  0 <= nx p -> 0 <= ny p ->
  written_upto (obstacles s) (nx p * ny p) = true ->
  at_rest p d (cells s) -> d <> 0%R ->
  (exists idx, 0 <= idx < nx p * ny p /\ load (obstacles s) idx = Ok 0) ->
  av_velocity p s = (Ok 0%R, set_trace (trace s ++ [EvAvVelocity]) s).
Proof.
  intros Hnx Hny Hwo Hr Hd Hfl. unfold av_velocity. rewrite emit_then.
  set (s0 := set_trace (trace s ++ [EvAvVelocity]) s).
  unfold av_velocity_sums.
  destruct (grid_acc_total
              (fun n (a : R * Z) st =>
                 st = s0 /\ fst a = 0%R /\ 0 <= snd a
                 /\ ((exists idx, 0 <= idx < n /\ load (obstacles s) idx = Ok 0) ->
                     0 < snd a))
              (nx p) 0 (ny p) (av_velocity_cell p) (0%R, 0) s0 Hnx Hny)
    as ([tu tc] & s' & Hrun & -> & Htu & Htc & Hpos).
  - cbn [fst snd]. repeat split; try lia. intros (idx & Hidx & _). lia.
  - intros ii jj a st Hii Hjj (-> & Hu & Hc & Hpos).
    assert (Hb := cell_index_bound (nx p) (ny p) ii jj Hii Hjj).
    destruct (written_upto_load (obstacles s) _ (ii + jj * nx p) Hwo Hb) as [o Ho].
    destruct (Z.eq_dec o 0) as [->|Hne].
    + eexists _, s0. split.
      * apply av_velocity_cell_exact.
        -- exact Ho.
        -- intros k Hk. eexists. now apply Hr.
        -- change (cells s0) with (cells s).
           rewrite (at_rest_cell_sum p d _ _ Hr Hb). exact Hd.
      * cbn [fst snd]. change (cells s0) with (cells s).
        destruct (at_rest_momentum p d _ _ Hr Hb) as [-> ->].
        split; [reflexivity|]. split; [|split; [lia|intros _; lia]].
        rewrite Hu. unfold Rdiv. rewrite !Rmult_0_l, !Rplus_0_l, sqrt_0. reflexivity.
    + exists a, s0. split.
      * apply (av_velocity_cell_obstacle p ii jj a s0 o); [exact Ho | exact Hne].
      * split; [reflexivity|]. split; [exact Hu|]. split; [exact Hc|].
        intros (idx & Hidx & Hl). apply Hpos.
        destruct (Z.eq_dec idx (ii + jj * nx p)) as [->|Hd'].
        -- rewrite Ho in Hl. injection Hl as ->. contradiction.
        -- exists idx. split; [lia | exact Hl].
  - unfold bind. rewrite Hrun. cbn [fst snd] in *. subst tu.
    assert (H0 : 0 < tc).
    { apply Hpos. destruct Hfl as (idx & Hidx & Hl). exists idx. split; [lia | exact Hl]. }
    rewrite rdiv_ok by (apply not_0_IZR; lia).
    unfold Rdiv. now rewrite Rmult_0_l.
Qed.

Lemma wr_av_vels_ok (idx : Z) (v : R) (st : state) :
  0 <= idx < Z.of_nat (length (av_vels st)) ->
  wr_av_vels idx v st
  = (Ok tt, set_av_vels (<[Z.to_nat idx := Some v]> (av_vels st)) st).
Proof. intros H. unfold wr_av_vels. now rewrite store_ok. Qed.

(** The main loop on a fluid at rest, without acceleration. *)
Lemma main_loop_rest (p : t_param) (d : R) (s : state) :
  0 <= nx p -> 2 <= ny p ->
  written_upto (obstacles s) (nx p * ny p) = true ->
  at_rest p d (cells s) ->
  nx p * ny p * NSPEEDS <= Z.of_nat (length (tmp_cells s)) ->
  accel p = 0%R -> d <> 0%R ->
  (exists idx, 0 <= idx < nx p * ny p /\ load (obstacles s) idx = Ok 0) ->
  0 <= maxIters p <= Z.of_nat (length (av_vels s)) ->
  exists s',
    main_loop p s = (Ok tt, s')
    /\ at_rest p d (cells s')
    /\ obstacles s' = obstacles s
    /\ forall tt, 0 <= tt < maxIters p -> load (av_vels s') tt = Ok 0%R.
Proof.
  intros Hnx Hny Hwo Hr Hlt Hacc Hd Hfl Hit. unfold main_loop.
  destruct (for_range_total
              (fun n st =>
                 obstacles st = obstacles s /\ at_rest p d (cells st)
                 /\ length (tmp_cells st) = length (tmp_cells s)
                 /\ length (av_vels st) = length (av_vels s)
                 /\ forall i, 0 <= i < n -> load (av_vels st) i = Ok 0%R)
              0 (maxIters p)
              (fun tt => timestep p ;; av <- av_velocity p ;; wr_av_vels tt av)
              s (proj1 Hit))
    as (s' & Hrun & Ho & Hr' & _ & _ & Hav).
  - repeat split; auto. intros i Hi. lia.
  - intros tt st Htt (Ho & Hrs & Hlt' & Hla & Hav).
    destruct (timestep_rest p d st Hnx Hny) as (s1 & R1 & Hr1 & Hl1); auto.
    { now rewrite Ho. }
    { now rewrite Hlt'. }
    pose proof (timestep_keeps_obstacles p (obstacles st) (av_vels st) st
                  (conj eq_refl eq_refl)) as K.
    rewrite R1 in K. cbn [snd] in K. destruct K as [Ho1 Ha1].
    assert (R2 := av_velocity_rest p d s1 Hnx ltac:(lia)).
    rewrite Ho1, Ho in R2. specialize (R2 Hwo Hr1 Hd Hfl).
    eexists. split.
    + unfold bind. rewrite R1, R2. apply wr_av_vels_ok.
      cbn [av_vels set_trace]. rewrite Ha1, Hla. lia.
    + cbn [obstacles cells tmp_cells av_vels set_av_vels set_trace].
      rewrite length_insert, Ho1, Ha1, Hl1.
      repeat split; auto.
      intros i Hi. rewrite load_insert by (rewrite Hla; lia).
      destruct (Z.eqb_spec i tt); [reflexivity|]. apply Hav. lia.
  - exists s'. repeat split; auto.
Qed.

(** The example of a fluid at rest. *)
Lemma still_state_at_rest : at_rest still_params (1 / 10) (cells still_state).
Proof.
  intros idx k Hidx Hk. unfold still_params in Hidx. cbn [nx ny] in Hidx.
  assert (Hc : idx = 0 \/ idx = 1 \/ idx = 2 \/ idx = 3) by lia.
  destruct Hc as [->|[->|[->| ->]]];
    destruct (nine_cases k Hk) as [->|[->|[->|[->|[->|[->|[->|[->| ->]]]]]]]];
    reflexivity.
Qed.

(** * The outputs *)

Lemma av_velocity_cell_grows (p : t_param) (ii jj : Z) (a a1 : R * Z) (st st1 : state) :
  av_velocity_cell p ii jj a st = (Ok a1, st1) ->
  st1 = st /\ (fst a <= fst a1)%R /\ snd a <= snd a1.
Proof.
  unfold av_velocity_cell, bind, rd_obstacles.
  destruct (load (obstacles st) (ii + jj * nx p)) as [o|e]; [|discriminate].
  destruct (negb (o =? 0)).
  - intros [= <- <-]. split; [reflexivity|]. split; [lra | lia].
  - destruct (cell_density rd_cells (ii + jj * nx p) st) as [[ld|e] s1] eqn:E1; [|discriminate].
    apply pure_cell_density in E1; [|intros; apply keeps_rd_cells]. subst s1.
    destruct (cell_u_x rd_cells (ii + jj * nx p) ld st) as [[ux|e] s2] eqn:E2; [|discriminate].
    apply pure_cell_u_x in E2; [|intros; apply keeps_rd_cells]. subst s2.
    destruct (cell_u_y rd_cells (ii + jj * nx p) ld st) as [[uy|e] s3] eqn:E3; [|discriminate].
    apply pure_cell_u_y in E3; [|intros; apply keeps_rd_cells]. subst s3.
    intros [= <- <-]. cbn [fst snd]. split; [reflexivity|].
    pose proof (sqrt_pos (ux * ux + uy * uy)). split; [lra | lia].
Qed.

Lemma av_velocity_sums_empty (p : t_param) (s : state) :
  nx p <= 0 \/ ny p <= 0 -> av_velocity_sums p s = (Ok (0%R, 0), s).
Proof.
  intros H. unfold av_velocity_sums.
  destruct (Z.le_gt_cases (ny p) 0) as [Hy|Hy]; [now apply for_acc_empty|].
  destruct H as [Hx|]; [|lia].
  destruct (for_acc_total
              (fun jj acc => for_acc 0 (nx p)
                               (fun ii acc => av_velocity_cell p ii jj acc) acc)
              (fun _ a st => a = (0%R, 0) /\ st = s) 0 (ny p) (0%R, 0) s ltac:(lia))
    as (a & s' & Hrun & -> & ->); [auto| |exact Hrun].
  intros j a st _ [-> ->]. exists (0%R, 0), s. split; [|auto].
  apply for_acc_empty. lia.
Qed.

(** What [av_velocity] returns, when it returns. *)
Lemma av_velocity_inv (p : t_param) (s s' : state) (v : R) :
  av_velocity p s = (Ok v, s') ->
  s' = set_trace (trace s ++ [EvAvVelocity]) s /\ (0 <= v)%R.
Proof.
  unfold av_velocity. rewrite emit_then. unfold bind.
  set (s0 := set_trace (trace s ++ [EvAvVelocity]) s).
  destruct (Z.le_gt_cases (nx p) 0) as [Hnx|Hnx];
    [rewrite av_velocity_sums_empty by auto; cbn [fst snd]; rewrite rdiv_zero; discriminate|].
  destruct (Z.le_gt_cases (ny p) 0) as [Hny|Hny];
    [rewrite av_velocity_sums_empty by auto; cbn [fst snd]; rewrite rdiv_zero; discriminate|].
  destruct (av_velocity_sums p s0) as [[[tu tc]|e] s1] eqn:E; [|discriminate].
  assert (HI : s1 = s0 /\ (0 <= tu)%R /\ 0 <= tc).
  { unfold av_velocity_sums in E.
    apply (grid_acc_partial
             (fun _ (a : R * Z) st => st = s0 /\ (0 <= fst a)%R /\ 0 <= snd a)
             (nx p) 0 (ny p) (av_velocity_cell p) (0%R, 0) s0 (tu, tc) s1
             ltac:(lia) ltac:(lia) E).
    - cbn [fst snd]. split; [reflexivity|]. split; [lra | lia].
    - intros ii jj a st a1 st1 _ _ (-> & Hu & Hc) Hb.
      apply av_velocity_cell_grows in Hb. destruct Hb as (-> & Hu1 & Hc1).
      split; [reflexivity|]. split; [lra | lia]. }
  destruct HI as (-> & Hu & Hc). cbn [fst snd].
  intros Hd. apply rdiv_inv in Hd. destruct Hd as (Hne & -> & <-).
  split; [reflexivity|].
  assert (Hpos : (0 < IZR tc)%R).
  { apply IZR_lt. assert (tc <> 0) by (intros ->; apply Hne; reflexivity). lia. }
  apply Rmult_le_pos; [exact Hu|]. left. now apply Rinv_0_lt_compat.
Qed.


(** A completed main loop has recorded an average velocity, not negative,
    for each iteration. *)
Lemma main_loop_records (p : t_param) (s s' : state) :
  main_loop p s = (Ok tt, s') ->
  length (av_vels s') = length (av_vels s)
  /\ forall tt, 0 <= tt < maxIters p ->
       exists v, load (av_vels s') tt = Ok v /\ (0 <= v)%R.
Proof.
  intros Hrun. unfold main_loop in Hrun.
  destruct (Z.le_gt_cases 0 (maxIters p)) as [Hit|Hit].
  2:{ unfold for_range in Hrun. rewrite for_acc_empty in Hrun by lia.
      injection Hrun as <-. split; [reflexivity|]. intros tt Htt. lia. }
  apply (for_range_partial
           (fun n st => length (av_vels st) = length (av_vels s)
                        /\ forall tt, 0 <= tt < n ->
                             exists v, load (av_vels st) tt = Ok v /\ (0 <= v)%R)
           0 (maxIters p) _ s s' Hit Hrun).
  - split; [reflexivity|]. intros tt Htt. lia.
  - intros tt st st1 Htt [Hl Hdone] Hb. unfold bind in Hb.
    destruct (timestep p st) as [[[]|e] s1] eqn:E1; [|discriminate].
    pose proof (timestep_keeps_obstacles p (obstacles st) (av_vels st) st
                  (conj eq_refl eq_refl)) as K.
    rewrite E1 in K. cbn [snd] in K. destruct K as [_ Ha1].
    destruct (av_velocity p s1) as [[av|e] s2] eqn:E2; [|discriminate].
    apply av_velocity_inv in E2. destruct E2 as [-> Hav].
    unfold wr_av_vels in Hb. cbn [av_vels set_trace] in Hb.
    destruct (store (av_vels s1) tt av) as [c|e] eqn:E3; [|discriminate].
    apply store_inv in E3. destruct E3 as [Hbd ->]. injection Hb as <-.
    cbn [av_vels set_av_vels]. rewrite length_insert, Ha1.
    split; [exact Hl|].
    intros i Hi. rewrite load_insert by (rewrite <- Ha1; exact Hbd).
    destruct (Z.eqb_spec i tt) as [->|Hne]; [eauto|].
    apply Hdone. lia.
Qed.

(** [write_av_vels] lists the recorded values in order. *)
Lemma write_av_vels_run (p : t_param) (s : state) :
  (forall tt, 0 <= tt < maxIters p -> exists v, load (av_vels s) tt = Ok v) ->
  exists avs,
    write_av_vels p s = (Ok avs, s)
    /\ length avs = Z.to_nat (maxIters p)
    /\ forall tt, 0 <= tt < maxIters p ->
         exists v, load (av_vels s) tt = Ok v /\ avs !! Z.to_nat tt = Some (tt, v).
Proof.
  intros Hw. unfold write_av_vels.
  destruct (Z.le_gt_cases 0 (maxIters p)) as [Hit|Hit].
  2:{ exists []. rewrite for_acc_empty by lia. split; [reflexivity|].
      split; [cbn; lia|]. intros tt Htt. lia. }
  destruct (for_acc_total
              (fun ii out => v <- rd_av_vels ii ;; ret (out ++ [(ii, v)]))
              (fun n (out : list (Z * R)) st =>
                 st = s /\ length out = Z.to_nat n
                 /\ forall tt, 0 <= tt < n ->
                      exists v, load (av_vels s) tt = Ok v
                                /\ out !! Z.to_nat tt = Some (tt, v))
              0 (maxIters p) [] s Hit)
    as (avs & s' & Hrun & -> & Hlen & Hlines).
  - split; [reflexivity|]. split; [reflexivity|]. intros tt Htt. lia.
  - intros i out st Hi (-> & Hlen & Hlines).
    destruct (Hw i Hi) as [v Hv].
    exists (out ++ [(i, v)]), s. split.
    + unfold bind, rd_av_vels. now rewrite Hv.
    + split; [reflexivity|]. split; [rewrite length_app; cbn [length]; lia|].
      intros tt Htt. destruct (Z.eq_dec tt i) as [->|Hne].
      * exists v. split; [exact Hv|]. rewrite lookup_app_r by lia.
        replace (Z.to_nat i - length out)%nat with O by lia. reflexivity.
      * destruct (Hlines tt ltac:(lia)) as (v' & Hv' & Hl).
        exists v'. split; [exact Hv'|]. rewrite lookup_app_l by lia. exact Hl.
  - exists avs. repeat split; auto.
Qed.

Lemma write_final_state_cell_inv (p : t_param) (ii jj : Z) (out out1 : list state_line)
    (st st1 : state) :
  write_final_state_cell p ii jj out st = (Ok out1, st1) ->
  st1 = st /\ exists flag, load (obstacles st) (ii * nx p + jj) = Ok flag.
Proof.
  unfold write_final_state_cell. unfold bind at 1. unfold rd_obstacles at 1.
  destruct (load (obstacles st) (ii + jj * nx p)) as [o|e]; [|discriminate].
  unfold bind at 1.
  assert (Hfields : forall r s1,
            (if negb (o =? 0)
             then ret (0, 0, 0, density p * c_sq)%R
             else (local_density <- cell_density rd_cells (ii + jj * nx p) ;;
                   u_x <- cell_u_x rd_cells (ii + jj * nx p) local_density ;;
                   u_y <- cell_u_y rd_cells (ii + jj * nx p) local_density ;;
                   ret (u_x, u_y, sqrt (u_x * u_x + u_y * u_y), local_density * c_sq)%R)%m)
              st = (r, s1) -> s1 = st).
  { intros r s1. destruct (negb (o =? 0)); [now intros [= _ <-]|].
    unfold bind.
    destruct (cell_density rd_cells (ii + jj * nx p) st) as [[ld|e] s2] eqn:E1.
    2:{ apply pure_cell_density in E1; [|intros; apply keeps_rd_cells].
        now intros [= _ <-]. }
    apply pure_cell_density in E1; [|intros; apply keeps_rd_cells]. subst s2.
    destruct (cell_u_x rd_cells (ii + jj * nx p) ld st) as [[ux|e] s2] eqn:E2.
    2:{ apply pure_cell_u_x in E2; [|intros; apply keeps_rd_cells].
        now intros [= _ <-]. }
    apply pure_cell_u_x in E2; [|intros; apply keeps_rd_cells]. subst s2.
    destruct (cell_u_y rd_cells (ii + jj * nx p) ld st) as [[uy|e] s2] eqn:E3.
    2:{ apply pure_cell_u_y in E3; [|intros; apply keeps_rd_cells].
        now intros [= _ <-]. }
    apply pure_cell_u_y in E3; [|intros; apply keeps_rd_cells]. subst s2.
    now intros [= _ <-]. }
  match goal with
  | |- context [match ?m st with _ => _ end] =>
      pose proof (Hfields (fst (m st)) (snd (m st))) as Hf; clear Hfields;
      destruct (m st) as [[fields|e] s1]; [|discriminate]
  end.
  specialize (Hf eq_refl). cbn [snd] in Hf. subst s1.
  unfold bind, rd_obstacles.
  destruct (load (obstacles st) (ii * nx p + jj)) as [flag|e]; [|discriminate].
  intros [= _ <-]. split; [reflexivity|]. eauto.
Qed.

(** [write_final_state] reads the mask at [ii * nx + jj] for every cell
    of the grid. *)
Lemma write_final_state_reads (p : t_param) (s s' : state) (out : list state_line) :
  0 <= nx p -> 0 <= ny p ->
  write_final_state p s = (Ok out, s') ->
  forall ii jj, 0 <= ii < nx p -> 0 <= jj < ny p ->
    exists flag, load (obstacles s) (ii * nx p + jj) = Ok flag.
Proof.
  intros Hnx Hny Hrun ii jj Hii Hjj. unfold write_final_state in Hrun.
  assert (HI : s' = s /\ (ii + jj * nx p < ny p * nx p ->
                          exists flag, load (obstacles s) (ii * nx p + jj) = Ok flag)).
  { apply (grid_acc_partial
             (fun m (_ : list state_line) st =>
                st = s /\ (ii + jj * nx p < m ->
                           exists flag, load (obstacles s) (ii * nx p + jj) = Ok flag))
             (nx p) 0 (ny p) (write_final_state_cell p) [] s out s' Hnx Hny Hrun).
    - split; [reflexivity|]. intros Hlt. exfalso. nia.
    - intros i j a st a1 st1 Hi Hj [-> IH] Hb.
      apply write_final_state_cell_inv in Hb. destruct Hb as [-> Hflag].
      split; [reflexivity|]. intros Hlt.
      destruct (Z.eq_dec (i + j * nx p) (ii + jj * nx p)) as [Heq|Hne].
      + destruct (cell_index_inj (nx p) i j ii jj Hi Hii Heq) as [-> ->]. exact Hflag.
      + apply IH. lia. }
  apply (proj2 HI). nia.
Qed.

Lemma write_final_state_cell_exact (p : t_param) (ii jj : Z) (out : list state_line)
    (st : state) (o flag : Z) :
  load (obstacles st) (ii + jj * nx p) = Ok o ->
  load (obstacles st) (ii * nx p + jj) = Ok flag ->
  (o = 0 -> (forall k, 0 <= k < NSPEEDS ->
               exists v, load (cells st) (at_speed (ii + jj * nx p) k) = Ok v)
            /\ cell_sum (cells st) (ii + jj * nx p) <> 0%R) ->
  write_final_state_cell p ii jj out st
  = (Ok (out ++ [line_of p st ii jj flag]), st).
Proof.
  intros Ho Hf Hfluid. unfold write_final_state_cell, line_of. cbn zeta.
  unfold bind at 1. unfold rd_obstacles at 1. rewrite Ho.
  destruct (Z.eqb_spec o 0) as [Hz|Hnz]; cbn [negb].
  - subst o. rewrite (proj2 (fluidb_true _ _) Ho).
    destruct (Hfluid eq_refl) as [Hw Hsum]. unfold cell_sum in Hsum.
    pose proof (rd_cells_holds st _ _ _ _ _ _ _ _ _ _ (cell_holds_val _ _ Hw)) as Hrd.
    unfold bind.
    rewrite (cell_density_run rd_cells _ st _ _ _ _ _ _ _ _ _ Hrd).
    rewrite (cell_u_x_run rd_cells _ st _ _ _ _ _ _ _ _ _ Hrd _ Hsum).
    rewrite (cell_u_y_run rd_cells _ st _ _ _ _ _ _ _ _ _ Hrd _ Hsum).
    cbn [ret]. unfold rd_obstacles. rewrite Hf. cbn [fst snd]. reflexivity.
  - rewrite (fluidb_false _ _ o Ho Hnz).
    unfold bind. cbn [ret]. unfold rd_obstacles. rewrite Hf. cbn [fst snd]. reflexivity.
Qed.

(** [write_final_state] line by line, on a mask of [N] entries that covers
    the indices it reads. *)
Lemma write_final_state_lines (p : t_param) (s : state) (N : Z) :
  0 <= nx p -> 0 <= ny p ->
  written_upto (obstacles s) N = true ->
  nx p * ny p <= N ->
  (forall i j, 0 <= i < nx p -> 0 <= j < ny p -> i * nx p + j < N) ->
  written_upto (cells s) (nx p * ny p * NSPEEDS) = true ->
  (forall idx, 0 <= idx < nx p * ny p -> is_fluid (obstacles s) idx ->
     cell_sum (cells s) idx <> 0%R) ->
  exists final_state,
    write_final_state p s = (Ok final_state, s)
    /\ Z.of_nat (length final_state) = nx p * ny p
    /\ forall i j, 0 <= i < nx p -> 0 <= j < ny p ->
       exists flag, load (obstacles s) (i * nx p + j) = Ok flag
                    /\ final_state !! Z.to_nat (i + j * nx p)
                       = Some (line_of p s i j flag).
Proof.
  intros Hnx Hny Hwo HN Htr Hwc Hrho. unfold write_final_state.
  pose (I := fun (n : Z) (out : list state_line) (st : state) =>
    st = s /\ Z.of_nat (length out) = n
    /\ forall i j, 0 <= i < nx p -> 0 <= j < ny p -> i + j * nx p < n ->
       exists flag, load (obstacles s) (i * nx p + j) = Ok flag
                    /\ out !! Z.to_nat (i + j * nx p) = Some (line_of p s i j flag)).
  destruct (grid_acc_total I (nx p) 0 (ny p) (write_final_state_cell p) [] s Hnx Hny)
    as (out & s' & Hrun & -> & Hlen & Hlines).
  - unfold I. repeat split. intros i j Hi Hj Hlt. exfalso. nia.
  - intros ii jj out st Hii Hjj (-> & Hlen & Hlines).
    assert (Hb := cell_index_bound (nx p) (ny p) ii jj Hii Hjj).
    destruct (written_upto_load (obstacles s) N (ii + jj * nx p) Hwo) as [o Ho]; [lia|].
    destruct (written_upto_load (obstacles s) N (ii * nx p + jj) Hwo) as [flag Hf].
    { split; [nia | now apply Htr]. }
    eexists _, s. split.
    + apply (write_final_state_cell_exact p ii jj out s o flag Ho Hf).
      intros ->. split.
      * now apply (written_cell _ (nx p * ny p)).
      * apply Hrho; [exact Hb | exact Ho].
    + unfold I. split; [reflexivity|]. split; [rewrite length_app; cbn [length]; lia|].
      intros i j Hi Hj Hlt.
      destruct (Z.eq_dec (i + j * nx p) (ii + jj * nx p)) as [Heq|Hne].
      * destruct (cell_index_inj (nx p) i j ii jj Hi Hii Heq) as [-> ->].
        exists flag. split; [exact Hf|].
        rewrite lookup_app_r by lia.
        replace (Z.to_nat (ii + jj * nx p) - length out)%nat with O by lia. reflexivity.
      * destruct (Hlines i j Hi Hj ltac:(lia)) as (fl & Hfl & Hl).
        exists fl. split; [exact Hfl|].
        rewrite lookup_app_l; [exact Hl|]. apply lookup_lt_Some in Hl. exact Hl.
  - exists out. split; [exact Hrun|]. split; [lia|].
    intros i j Hi Hj. apply Hlines; auto.
    assert (Hb := cell_index_bound (nx p) (ny p) i j Hi Hj). lia.
Qed.

(** * What the main loop leaves alone *)

Lemma keeps_for_range_bounded (P : state -> Prop) (lo hi : Z) (body : Z -> M unit) :
  (forall i, lo <= i < hi -> keeps P (body i)) -> keeps P (for_range lo hi body).
Proof.
  intros Hb s Hs.
  destruct (Z.le_gt_cases lo hi) as [Hle|Hgt].
  - pose proof (for_range_outcome body (fun _ => P) P lo hi s Hle Hs) as H.
    destruct (for_range lo hi body s) as [[[]|e] s']; cbn [snd]; apply H;
      intros i st Hi Hst; specialize (Hb i Hi st Hst);
      destruct (body i st) as [[[]|e'] st']; exact Hb.
  - unfold for_range. rewrite for_acc_empty by lia. exact Hs.
Qed.

Lemma keeps_beyond_wr_cells (n : Z) (C T : block R) (idx k : Z) (v : R) :
  at_speed idx k < n -> keeps (same_beyond n C T) (wr_cells idx k v).
Proof.
  intros Hlt s H. unfold wr_cells.
  destruct (store (cells s) (at_speed idx k) v) as [c|e] eqn:E; [|exact H].
  apply store_inv in E. destruct E as [Hb ->]. cbn [snd].
  intros m Hm. cbn [cells tmp_cells set_cells].
  rewrite load_insert_ne by (try exact Hb; lia). now apply H.
Qed.

Lemma keeps_beyond_wr_tmp_cells (n : Z) (C T : block R) (idx k : Z) (v : R) :
  at_speed idx k < n -> keeps (same_beyond n C T) (wr_tmp_cells idx k v).
Proof.
  intros Hlt s H. unfold wr_tmp_cells.
  destruct (store (tmp_cells s) (at_speed idx k) v) as [c|e] eqn:E; [|exact H].
  apply store_inv in E. destruct E as [Hb ->]. cbn [snd].
  intros m Hm. cbn [cells tmp_cells set_tmp_cells].
  rewrite load_insert_ne by (try exact Hb; lia). now apply H.
Qed.

Ltac keeps_beyond :=
  repeat first
    [ apply keeps_beyond_wr_cells; unfold at_speed, NSPEEDS in *; nia
    | apply keeps_beyond_wr_tmp_cells; unfold at_speed, NSPEEDS in *; nia
    | apply keeps_emit; intros ? ? ?; assumption
    | apply keeps_wr_av_vels; intros ? ? ?; assumption
    | apply keeps_for_range_bounded; intros ? ?
    | keeps_step ].

(** The kernels, the average and its record write no slot of the two grids
    from cell [nx * ny] on. *)
Lemma timestep_keeps_beyond (p : t_param) (C T : block R) :
  keeps (same_beyond (nx p * ny p * NSPEEDS) C T) (timestep p).
Proof.
  unfold timestep, accelerate_flow, propagate, rebound, collision,
    accelerate_cell, propagate_cell, rebound_cell, collision_cell.
  cbn zeta. keeps_beyond.
Qed.

Lemma main_loop_keeps_beyond (p : t_param) (C T : block R) :
  keeps (same_beyond (nx p * ny p * NSPEEDS) C T) (main_loop p).
Proof.
  unfold main_loop. apply keeps_for_range. intros tt.
  apply keeps_bind; [apply timestep_keeps_beyond|]. intros _.
  unfold av_velocity, av_velocity_sums, av_velocity_cell. keeps_beyond.
Qed.

(** * main *)



(** * The claims *)

(** C1.  On a grid whose primary cells have all been written, [propagate]
    returns and every scratch cell [(i, j)] then holds the pull-scheme
    populations: speed 0 of the same cell, speed 1 of the west neighbour,
    speed 2 of the south neighbour, speed 3 of the east neighbour, speed 4 of
    the north neighbour, speed 5 of the south-west, speed 6 of the
    south-east, speed 7 of the north-east and speed 8 of the north-west
    neighbour, the neighbours taken with periodic wrap in both axes; the
    primary grid is the same block after [propagate] as before. *)
Theorem propagate_pull_scheme (p : t_param) (s : state) :
  0 <= nx p -> 0 <= ny p ->
  written_upto (cells s) (nx p * ny p * NSPEEDS) = true ->
  nx p * ny p * NSPEEDS <= Z.of_nat (length (tmp_cells s)) ->
  exists s',
    propagate p s = (Ok tt, s')
    /\ cells s' = cells s
    /\ forall i j, 0 <= i < nx p -> 0 <= j < ny p ->
       let from x y k := load (cells s) (at_speed (x + y * nx p) k) in
       let to k := load (tmp_cells s') (at_speed (i + j * nx p) k) in
       to 0 = from i j 0
       /\ to 1 = from (west p i) j 1
       /\ to 2 = from i (south p j) 2
       /\ to 3 = from (east p i) j 3
       /\ to 4 = from i (north p j) 4
       /\ to 5 = from (west p i) (south p j) 5
       /\ to 6 = from (east p i) (south p j) 6
       /\ to 7 = from (east p i) (north p j) 7
       /\ to 8 = from (west p i) (north p j) 8
       /\ forall k, 0 <= k < NSPEEDS -> exists v, to k = Ok v.
Proof.
  intros Hnx Hny Hw Hlen.
  destruct (propagate_run p s Hnx Hny Hw Hlen) as (s' & Hrun & Hc & _ & _ & _ & Hp).
  exists s'. split; [exact Hrun|]. split; [exact Hc|].
  intros i j Hi Hj from to.
  assert (Hlt : i + j * nx p < nx p * ny p) by (apply cell_index_bound; assumption).
  assert (Nine : forall k, k = 0 \/ k = 1 \/ k = 2 \/ k = 3 \/ k = 4 \/ k = 5
                              \/ k = 6 \/ k = 7 \/ k = 8 -> 0 <= k < NSPEEDS)
    by (unfold NSPEEDS; lia).
  split; [exact (Hp i j 0 Hi Hj Hlt (Nine 0 ltac:(tauto)))|].
  split; [exact (Hp i j 1 Hi Hj Hlt (Nine 1 ltac:(tauto)))|].
  split; [exact (Hp i j 2 Hi Hj Hlt (Nine 2 ltac:(tauto)))|].
  split; [exact (Hp i j 3 Hi Hj Hlt (Nine 3 ltac:(tauto)))|].
  split; [exact (Hp i j 4 Hi Hj Hlt (Nine 4 ltac:(tauto)))|].
  split; [exact (Hp i j 5 Hi Hj Hlt (Nine 5 ltac:(tauto)))|].
  split; [exact (Hp i j 6 Hi Hj Hlt (Nine 6 ltac:(tauto)))|].
  split; [exact (Hp i j 7 Hi Hj Hlt (Nine 7 ltac:(tauto)))|].
  split; [exact (Hp i j 8 Hi Hj Hlt (Nine 8 ltac:(tauto)))|].
  intros k Hk. unfold to. rewrite (Hp i j k Hi Hj Hlt Hk).
  destruct (upstream_in_range p k i j Hi Hj) as [Hx Hy].
  now apply grid_slot_readable.
Qed.

Lemma propagate_pull_scheme_witness :
  (0 <= nx strip_params /\ 0 <= ny strip_params
   /\ written_upto (cells strip_state) (nx strip_params * ny strip_params * NSPEEDS) = true
   /\ nx strip_params * ny strip_params * NSPEEDS
      <= Z.of_nat (length (tmp_cells strip_state)))
  /\ exists s',
       propagate strip_params strip_state = (Ok tt, s')
       /\ cells s' = cells strip_state
       /\ load (tmp_cells s') (at_speed (1 + 0 * 2) 0) = Ok 0%R
       /\ load (tmp_cells s') (at_speed (1 + 0 * 2) 1) = Ok 1%R
       /\ load (tmp_cells s') (at_speed (1 + 0 * 2) 3) = Ok 1%R.
Proof.
  assert (H : 0 <= nx strip_params /\ 0 <= ny strip_params
   /\ written_upto (cells strip_state) (nx strip_params * ny strip_params * NSPEEDS) = true
   /\ nx strip_params * ny strip_params * NSPEEDS
      <= Z.of_nat (length (tmp_cells strip_state))).
  { repeat split; try reflexivity; vm_compute; discriminate. }
  split; [exact H|].
  destruct H as (H1 & H2 & H3 & H4).
  destruct (propagate_pull_scheme strip_params strip_state H1 H2 H3 H4)
    as (s' & Hrun & Hc & Hpull).
  exists s'. split; [exact Hrun|]. split; [exact Hc|].
  destruct (Hpull 1 0) as (P0 & P1 & _ & P3 & _);
    [vm_compute; split; [discriminate | reflexivity]
    |vm_compute; split; [discriminate | reflexivity]|].
  cbn zeta in P0, P1, P3.
  split; [|split].
  - etransitivity; [exact P0 | reflexivity].
  - etransitivity; [exact P1 | reflexivity].
  - etransitivity; [exact P3 | reflexivity].
Defined.

(** C2.  What the main loop does: whatever the parameters and the state it
    starts from, the substeps it has performed when it stops are an initial
    segment of the rounds accelerate, propagate, rebound, collision,
    av_velocity, all [maxIters] rounds when it runs to completion; no
    exchange of ghost rows occurs anywhere in it, so the sequence with a
    halo exchange between accelerate and propagate is never produced. *)
Theorem main_loop_never_exchanges_halos (p : t_param) (s : state) :
  let rounds := concat (replicate (Z.to_nat (maxIters p)) iteration_events) in
  exists k,
    trace (snd (main_loop p s)) = trace s ++ firstn k rounds
    /\ (forall u, fst (main_loop p s) = Ok u ->
          trace (snd (main_loop p s)) = trace s ++ rounds)
    /\ ~ In EvHaloExchange (firstn k rounds).
Proof.
  intros rounds. pose proof (main_loop_trace p s) as H. cbn zeta in H.
  fold rounds in H.
  assert (Hno : forall k, ~ In EvHaloExchange (firstn k rounds)).
  { intros k Hin. apply in_firstn_rounds in Hin.
    unfold iteration_events in Hin. cbn [In] in Hin.
    repeat (destruct Hin as [Hin|Hin]; [discriminate|]). exact Hin. }
  destruct (main_loop p s) as [[[]|e] s'] eqn:Hrun; cbn [fst snd].
  - exists (length rounds). rewrite firstn_all. repeat split; auto.
    rewrite <- (firstn_all rounds). apply Hno.
  - destruct H as [k Hk]. exists k. repeat split; auto.
    intros u Hu. discriminate.
Qed.

(** C3 (as amended).  In exact real arithmetic, on a grid of at least two
    rows whose mask and grids have been written and whose fluid cells have a
    nonzero scratch density, each kernel returns and:
    - [propagate] leaves the primary grid as it is and makes the sum of all
      populations over all cells of the scratch grid equal to that sum over
      the primary grid;
    - [rebound] leaves the scratch grid and every fluid cell of the primary
      grid as they are, so the sum over the fluid cells of the primary grid
      is unchanged;
    - [collision] leaves the scratch grid as it is and gives every fluid
      cell of the primary grid the nine-population sum of the same cell of
      the scratch grid, so the sum over the fluid cells of the primary grid
      after it is that sum over the scratch grid;
    - [accelerate_flow] changes no slot outside the driven row [ny - 2],
      and a cell of that row is either unchanged or has [w1] added to speed
      1 and [w2] to speeds 5 and 8 and the same subtracted from speeds 3, 6
      and 7, its nine-population sum being the same in both cases. *)
Theorem kernels_conserve_mass (p : t_param) (s : state) :
  0 <= nx p -> 2 <= ny p ->
  written_upto (obstacles s) (nx p * ny p) = true ->
  written_upto (cells s) (nx p * ny p * NSPEEDS) = true ->
  written_upto (tmp_cells s) (nx p * ny p * NSPEEDS) = true ->
  (forall idx, 0 <= idx < nx p * ny p -> is_fluid (obstacles s) idx ->
     cell_sum (tmp_cells s) idx <> 0%R) ->
  (exists s1,
     propagate p s = (Ok tt, s1)
     /\ cells s1 = cells s
     /\ total_mass p (tmp_cells s1) = total_mass p (cells s))
  /\ (exists s2,
        rebound p s = (Ok tt, s2)
        /\ tmp_cells s2 = tmp_cells s
        /\ (forall idx k, 0 <= idx < nx p * ny p -> is_fluid (obstacles s) idx ->
              0 <= k < NSPEEDS ->
              load (cells s2) (at_speed idx k) = load (cells s) (at_speed idx k))
        /\ fluid_mass p (obstacles s) (cells s2) = fluid_mass p (obstacles s) (cells s))
  /\ (exists s3,
        collision p s = (Ok tt, s3)
        /\ tmp_cells s3 = tmp_cells s
        /\ (forall idx, 0 <= idx < nx p * ny p -> is_fluid (obstacles s) idx ->
              cell_sum (cells s3) idx = cell_sum (tmp_cells s) idx)
        /\ fluid_mass p (obstacles s) (cells s3)
           = fluid_mass p (obstacles s) (tmp_cells s))
  /\ (exists s4,
        accelerate_flow p s = (Ok tt, s4)
        /\ (forall m, m < (ny p - 2) * nx p * NSPEEDS \/ (ny p - 1) * nx p * NSPEEDS <= m ->
              load (cells s4) m = load (cells s) m)
        /\ (forall i, 0 <= i < nx p ->
              accelerated (density p * accel p / 9) (density p * accel p / 36)
                          (cells s) (cells s4) (i + (ny p - 2) * nx p)
              /\ cell_sum (cells s4) (i + (ny p - 2) * nx p)
                 = cell_sum (cells s) (i + (ny p - 2) * nx p))).
Proof.
  intros Hnx Hny Hwo Hwc Hwt Hrho.
  assert (Hny0 : 0 <= ny p) by lia.
  pose proof (written_upto_length _ _ Hwc) as Hlc.
  pose proof (written_upto_length _ _ Hwt) as Hlt.
  split; [|split; [|split]].
  - destruct (propagate_run p s Hnx Hny0 Hwc Hlt) as (s1 & Hrun & Hc & _ & _ & _ & Hp).
    exists s1. split; [exact Hrun|]. split; [exact Hc|].
    now apply pulled_total_mass.
  - destruct (rebound_run p s Hnx Hny0 Hwo Hwt Hlc) as (s2 & Hrun & Ht & _ & _ & Hreb).
    exists s2. split; [exact Hrun|]. split; [exact Ht|]. split.
    + intros idx k Hidx Hf Hk. specialize (Hreb idx Hidx). unfold rebounded in Hreb.
      rewrite (proj2 (fluidb_true _ _) Hf) in Hreb. now apply Hreb.
    + now apply rebound_fluid_mass.
  - destruct (collision_run p s Hnx Hny0 Hwo Hwt Hlc Hrho) as (s3 & Hrun & Ht & _ & _ & Hcol).
    exists s3. split; [exact Hrun|]. split; [exact Ht|].
    assert (Hsum : forall idx, 0 <= idx < nx p * ny p -> fluidb (obstacles s) idx = true ->
                   cell_sum (cells s3) idx = cell_sum (tmp_cells s) idx).
    { intros idx Hidx Hf. specialize (Hcol idx Hidx). rewrite Hf in Hcol. apply Hcol. }
    split.
    + intros idx Hidx Hf. apply Hsum; [exact Hidx | now apply fluidb_true].
    + now apply collision_fluid_mass.
  - destruct (accelerate_flow_run p s Hnx Hny Hwo Hwc) as (s4 & Hrun & _ & _ & _ & Hout & Hacc).
    exists s4. split; [exact Hrun|]. split.
    + intros m Hm. apply Hout. replace (ny p - 2 + 1) with (ny p - 1) by lia. exact Hm.
    + intros i Hi. split; [now apply Hacc|].
      apply (accelerated_cell_sum _ _ _ _ _ (Hacc i Hi)).
Qed.

(** C3, the claim as stated fails for [propagate]: on the strip whose cell 0
    is an obstacle, [propagate] returns, and the sum over the fluid cells is
    0 in the primary grid before it and 6 in the scratch grid after it: the
    fluid cell has pulled six populations out of the obstacle cell. *)
Lemma propagate_changes_fluid_mass :
  exists s',
    propagate strip_params strip_state = (Ok tt, s')
    /\ fluid_mass strip_params (obstacles strip_state) (cells strip_state) = 0%R
    /\ fluid_mass strip_params (obstacles strip_state) (tmp_cells s') = 6%R
    /\ fluid_mass strip_params (obstacles strip_state) (tmp_cells s')
       <> fluid_mass strip_params (obstacles strip_state) (cells strip_state).
Proof.
  eexists. split; [eval_reals; reflexivity|].
  assert (H0 : fluid_mass strip_params (obstacles strip_state) (cells strip_state) = 0%R)
    by (eval_reals; lra).
  split; [exact H0|]. rewrite H0.
  assert (H6 : forall x, x = 6%R -> x = 6%R /\ x <> 0%R) by (intros x ->; split; lra).
  apply H6. eval_reals. lra.
Qed.

Lemma square_scratch_density (idx : Z) :
  0 <= idx < nx square_params * ny square_params ->
  is_fluid (obstacles square_state) idx ->
  cell_sum (tmp_cells square_state) idx <> 0%R.
Proof.
  intros Hidx _. unfold square_params in Hidx. cbn [nx ny] in Hidx.
  assert (Hc : idx = 0 \/ idx = 1 \/ idx = 2 \/ idx = 3) by lia.
  destruct Hc as [->|[->|[->| ->]]]; eval_reals; lra.
Qed.

Lemma kernels_conserve_mass_witness :
  (0 <= nx square_params /\ 2 <= ny square_params
   /\ written_upto (obstacles square_state) (nx square_params * ny square_params) = true
   /\ written_upto (cells square_state)
        (nx square_params * ny square_params * NSPEEDS) = true
   /\ written_upto (tmp_cells square_state)
        (nx square_params * ny square_params * NSPEEDS) = true)
  /\ (exists s1,
        propagate square_params square_state = (Ok tt, s1)
        /\ total_mass square_params (tmp_cells s1)
           = total_mass square_params (cells square_state))
  /\ (exists s2,
        rebound square_params square_state = (Ok tt, s2)
        /\ fluid_mass square_params (obstacles square_state) (cells s2)
           = fluid_mass square_params (obstacles square_state) (cells square_state))
  /\ (exists s3,
        collision square_params square_state = (Ok tt, s3)
        /\ fluid_mass square_params (obstacles square_state) (cells s3)
           = fluid_mass square_params (obstacles square_state) (tmp_cells square_state))
  /\ (exists s4,
        accelerate_flow square_params square_state = (Ok tt, s4)
        /\ cell_sum (cells s4) (1 + (2 - 2) * 2) = cell_sum (cells square_state) (1 + (2 - 2) * 2)).
Proof.
  assert (H : 0 <= nx square_params /\ 2 <= ny square_params
   /\ written_upto (obstacles square_state) (nx square_params * ny square_params) = true
   /\ written_upto (cells square_state)
        (nx square_params * ny square_params * NSPEEDS) = true
   /\ written_upto (tmp_cells square_state)
        (nx square_params * ny square_params * NSPEEDS) = true).
  { repeat split; try reflexivity; vm_compute; discriminate. }
  split; [exact H|].
  destruct H as (H1 & H2 & H3 & H4 & H5).
  destruct (kernels_conserve_mass square_params square_state H1 H2 H3 H4 H5
              square_scratch_density)
    as ((s1 & R1 & _ & M1) & (s2 & R2 & _ & _ & M2) & (s3 & R3 & _ & _ & M3)
        & (s4 & R4 & _ & M4)).
  split; [exists s1; split; assumption|].
  split; [exists s2; split; assumption|].
  split; [exists s3; split; assumption|].
  exists s4. split; [exact R4|].
  apply (M4 1). vm_compute. split; [discriminate | reflexivity].
Defined.

(** C4.  For every density and velocity, in particular for every positive
    density and the velocity [collision] computes from it, the nine
    equilibrium populations [d_equ] of [collision] add up to the density,
    in exact real arithmetic. *)
Theorem equilibrium_populations_sum_to_density (local_density u_x u_y : R) :
  (d_equ local_density u_x u_y 0 + d_equ local_density u_x u_y 1
   + d_equ local_density u_x u_y 2 + d_equ local_density u_x u_y 3
   + d_equ local_density u_x u_y 4 + d_equ local_density u_x u_y 5
   + d_equ local_density u_x u_y 6 + d_equ local_density u_x u_y 7
   + d_equ local_density u_x u_y 8 = local_density)%R.
Proof.
  unfold d_equ, u_dir, w0, w1, w2, c_sq. field.
Qed.

(** C5 (as amended).  After [initialise] returns, every interior row
    [j] in [1, local_ny] of the local primary grid holds the rest
    equilibrium at the density of the parameter file: speed 0 is
    [density * 4 / 9], speeds 1 to 4 are [density / 9], speeds 5 to 8 are
    [density / 36].  The two ghost rows, row 0 and row [local_ny + 1], are
    allocated and left unwritten. *)
Theorem initialise_rest_equilibrium (paramfile : option param_file)
    (obstaclefile : option (list obstacle_line)) (size : Z) (s st : state) (p : t_param) :
  initialise paramfile obstaclefile size s = (Ok p, st) ->
  let local_ny := Z.quot (ny p) size in
  (forall i j, 0 <= i < nx p -> 1 <= j <= local_ny ->
     load (cells st) (at_speed (i + j * nx p) 0) = Ok (density p * 4 / 9)%R
     /\ (forall k, 1 <= k <= 4 ->
           load (cells st) (at_speed (i + j * nx p) k) = Ok (density p / 9)%R)
     /\ (forall k, 5 <= k <= 8 ->
           load (cells st) (at_speed (i + j * nx p) k) = Ok (density p / 36)%R))
  /\ (forall i k, 0 <= i < nx p -> 0 <= k < NSPEEDS ->
        load (cells st) (at_speed (i + 0 * nx p) k) = Err Uninitialised
        /\ load (cells st) (at_speed (i + (local_ny + 1) * nx p) k) = Err Uninitialised).
Proof.
  intros Hrun local_ny. split.
  - intros i j Hi Hj.
    destruct (initialise_cells _ _ _ _ _ _ Hrun ltac:(lia)) as (_ & _ & _ & _ & Hin).
    specialize (Hin i j Hi Hj). split; [|split].
    + apply (Hin 0). unfold NSPEEDS. lia.
    + intros k Hk. rewrite (Hin k) by (unfold NSPEEDS; lia).
      assert (Hc : k = 1 \/ k = 2 \/ k = 3 \/ k = 4) by lia.
      destruct Hc as [->|[->|[->| ->]]]; reflexivity.
    + intros k Hk. rewrite (Hin k) by (unfold NSPEEDS; lia).
      assert (Hc : k = 5 \/ k = 6 \/ k = 7 \/ k = 8) by lia.
      destruct Hc as [->|[->|[->| ->]]]; reflexivity.
  - intros i k Hi Hk.
    destruct (initialise_cells _ _ _ _ _ _ Hrun ltac:(lia)) as (Hl & _ & _ & Hout & _).
    fold local_ny in Hl, Hout.
    split; apply Hout; unfold at_speed, NSPEEDS in *; nia.
Qed.

(** C5, the claim as stated fails: after [initialise] on the two-rank
    input, speed 0 of the first cell of ghost row 0 is not zero; it has
    never been written. *)
Lemma ghost_rows_are_not_zeroed :
  initialise (Some two_rank_params) (Some two_rank_obstacles) 2 null_state
  = (Ok two_rank_loaded, two_rank_initialised)
  /\ load (cells two_rank_initialised) (at_speed (0 + 0 * 1) 0) = Err Uninitialised
  /\ load (cells two_rank_initialised) (at_speed (0 + 0 * 1) 0) <> Ok 0%R.
Proof.
  split; [vm_compute; reflexivity|].
  split; [reflexivity|]. vm_compute. discriminate.
Qed.

Lemma initialise_rest_equilibrium_witness :
  initialise (Some two_rank_params) (Some two_rank_obstacles) 2 null_state
  = (Ok two_rank_loaded, two_rank_initialised)
  /\ load (cells two_rank_initialised) (at_speed (0 + 1 * 1) 0) = Ok (1 / 10 * 4 / 9)%R
  /\ load (cells two_rank_initialised) (at_speed (0 + 1 * 1) 1) = Ok (1 / 10 / 9)%R
  /\ load (cells two_rank_initialised) (at_speed (0 + 1 * 1) 5) = Ok (1 / 10 / 36)%R
  /\ load (cells two_rank_initialised) (at_speed (0 + 0 * 1) 0) = Err Uninitialised
  /\ load (cells two_rank_initialised) (at_speed (0 + (1 + 1) * 1) 0) = Err Uninitialised.
Proof.
  assert (Hrun : initialise (Some two_rank_params) (Some two_rank_obstacles) 2 null_state
                 = (Ok two_rank_loaded, two_rank_initialised))
    by (vm_compute; reflexivity).
  split; [exact Hrun|].
  destruct (initialise_rest_equilibrium (Some two_rank_params) (Some two_rank_obstacles) 2
              null_state two_rank_initialised two_rank_loaded Hrun)
    as [Hin Hghost].
  destruct (Hin 0 1) as (I0 & I1 & I5);
    [vm_compute; split; [discriminate | reflexivity]
    |vm_compute; split; discriminate|].
  destruct (Hghost 0 0) as (G0 & G1);
    [vm_compute; split; [discriminate | reflexivity]
    |vm_compute; split; [discriminate | reflexivity]|].
  split; [exact I0|].
  split; [apply (I1 1); lia|].
  split; [apply (I5 5); lia|].
  split; [exact G0 | exact G1].
Defined.

(** C6.  [initialise] at a two-rank input: the grid has one column and two
    rows, the obstacle file lists the cell of the upper row.  Every rank
    runs the same [initialise], which has no rank among its arguments; its
    local mask is row 0 of the global mask, the slab of rank 0, whereas the
    slab of rank 1 is row 1, which holds the obstacle. *)
Theorem local_obstacles_are_the_first_slab :
  initialise (Some two_rank_params) (Some two_rank_obstacles) 2 null_state
  = (Ok two_rank_loaded, two_rank_initialised)
  /\ obstacles_total two_rank_initialised = [Some 0; Some 1]
  /\ obstacles two_rank_initialised = [Some 0]
  /\ obstacles two_rank_initialised = rank_slab (obstacles_total two_rank_initialised) 1 1 0
  /\ rank_slab (obstacles_total two_rank_initialised) 1 1 1 = [Some 1]
  /\ obstacles two_rank_initialised <> rank_slab (obstacles_total two_rank_initialised) 1 1 1.
Proof.
  split; [vm_compute; reflexivity|].
  repeat split; try reflexivity.
  vm_compute. discriminate.
Qed.

(** C7 (as amended).  Parameter loading fails fatally exactly when the
    parameter file cannot be opened or one of its seven values cannot be
    read; a file whose seven values are readable is accepted with these
    values as they are, without any check of sign, of divisibility of [ny]
    by the number of ranks or of the range of [omega]. *)
Theorem load_params_checks_readability_only (paramfile : option param_file) (s : state) :
  match paramfile with
  | Some (mk_param_file (Scanned a) (Scanned b) (Scanned c) (Scanned d)
                        (Scanned e) (Scanned f) (Scanned g)) =>
      load_params paramfile s = (Ok (mk_param a b c d e f g), s)
  | _ => exists message, load_params paramfile s = (Err (Die message), s)
  end.
Proof. exact (load_params_outcome paramfile s). Qed.

(** C7, the claim as stated fails: a parameter file with a negative density
    and acceleration, [omega = 3] and [ny = 3] rows for two ranks is loaded,
    and [initialise] as a whole returns with it. *)
Lemma unchecked_params_are_accepted :
  (exists p s, load_params (Some unchecked_params) null_state = (Ok p, s)
               /\ ~ (0 < density p)%R /\ ~ (0 < accel p)%R
               /\ ~ (0 < omega p < 2)%R /\ ny p mod 2 <> 0)
  /\ exists p s, initialise (Some unchecked_params) (Some []) 2 null_state = (Ok p, s).
Proof.
  split.
  - exists (mk_param 1 3 1 1 (-1) (-1) 3), null_state.
    split; [reflexivity|]. cbn [density accel omega ny].
    repeat split; try lra. discriminate.
  - eexists _, _. vm_compute. reflexivity.
Qed.

(** C8.  [write_values] on the two-by-two grid with its one obstacle at
    column 1 of row 0: the files are written, and the line of cell
    [(i, j) = (1, 0)] carries the flag 0, the mask entry at index
    [i * nx + j = 2], whereas the mask entry of that cell, at index
    [i + j * nx = 1], is 1. *)
Theorem final_state_flag_is_transposed :
  exists final_state avs line,
    write_values square_params true square_state
    = (Ok (final_state, avs), square_state)
    /\ final_state !! 1%nat = Some line
    /\ l_ii line = 1 /\ l_jj line = 0
    /\ l_obstacle line = 0
    /\ load (obstacles square_state) (1 + 0 * nx square_params) = Ok 1.
Proof.
  destruct (write_final_state_flags square_params square_state 4)
    as (final_state & Hrun & _ & Hlines);
    try reflexivity; try (cbn; lia).
  - intros idx Hidx _. unfold square_params in Hidx. cbn [nx ny] in Hidx.
    assert (Hc : idx = 0 \/ idx = 1 \/ idx = 2 \/ idx = 3) by lia.
    destruct Hc as [->|[->|[->| ->]]]; eval_reals; lra.
  - destruct (Hlines 1 0) as (line & Hl & Hi & Hj & Hflag);
      [unfold square_params; cbn [nx ny]; lia | unfold square_params; cbn [nx ny]; lia |].
    exists final_state, [(0, 0%R)], line.
    split.
    + unfold write_values. cbn [negb]. unfold bind. rewrite Hrun. reflexivity.
    + repeat split; auto.
      cbv -[l_obstacle] in Hflag. now injection Hflag.
Qed.

(** C9.  After [initialise] has returned for a grid with at least one
    column and one row, ghost row 0 of the primary grid is unwritten, and
    the first [propagate] stops on the read of an unwritten slot: directly
    on the state [initialise] leaves, and equally after the
    [accelerate_flow] that precedes it in [timestep], which stores to no
    speed 0.  So the first [timestep] never completes, and a main loop of at
    least one iteration stops on an error. *)
Theorem first_propagate_reads_unwritten_row (paramfile : option param_file)
    (obstaclefile : option (list obstacle_line)) (size : Z) (s st : state) (p : t_param) :
  initialise paramfile obstaclefile size s = (Ok p, st) ->
  0 < nx p -> 0 < ny p ->
  (forall i k, 0 <= i < nx p -> 0 <= k < NSPEEDS ->
     load (cells st) (at_speed (i + 0 * nx p) k) = Err Uninitialised)
  /\ fst (propagate p st) = Err Uninitialised
  /\ (forall st1, accelerate_flow p st = (Ok tt, st1) ->
        fst (propagate p st1) = Err Uninitialised)
  /\ (forall st2, timestep p st <> (Ok tt, st2))
  /\ (0 < maxIters p -> exists e, fst (main_loop p st) = Err e).
Proof.
  intros Hrun Hnx Hny.
  destruct (initialise_cells _ _ _ _ _ _ Hrun Hnx) as (Hl & _ & _ & Hout & _).
  assert (H0 : load (cells st) 0 = Err Uninitialised).
  { apply Hout. unfold NSPEEDS. lia. }
  assert (Hacc : forall st1, accelerate_flow p st = (Ok tt, st1) ->
                 fst (propagate p st1) = Err Uninitialised).
  { intros st1 Ha. apply propagate_reads_slot_0; auto.
    pose proof (accelerate_flow_keeps_slot_0 p st H0) as K. now rewrite Ha in K. }
  assert (Hts : forall st2, timestep p st <> (Ok tt, st2)).
  { intros st2 Ht. unfold timestep, bind in Ht.
    destruct (accelerate_flow p st) as [[[]|e] st1] eqn:Ea; [|discriminate].
    specialize (Hacc st1 eq_refl).
    destruct (propagate p st1) as [[[]|e] st3]; cbn [fst] in Hacc; discriminate. }
  split; [|split; [|split; [|split]]]; auto.
  - intros i k Hi Hk. apply Hout. unfold at_speed, NSPEEDS in *. lia.
  - now apply propagate_reads_slot_0.
  - intros Hit. unfold main_loop.
    destruct (timestep p st) as [[[]|e] st2] eqn:Et; [exfalso; exact (Hts st2 eq_refl)|].
    exists e. apply for_range_first_fails; [exact Hit|].
    unfold bind at 1. now rewrite Et.
Qed.

Lemma first_propagate_reads_unwritten_row_witness :
  initialise (Some two_rank_params) (Some two_rank_obstacles) 2 null_state
  = (Ok two_rank_loaded, two_rank_initialised)
  /\ 0 < nx two_rank_loaded /\ 0 < ny two_rank_loaded
  /\ load (cells two_rank_initialised) (at_speed (0 + 0 * nx two_rank_loaded) 2)
     = Err Uninitialised
  /\ fst (propagate two_rank_loaded two_rank_initialised) = Err Uninitialised
  /\ (forall st2, timestep two_rank_loaded two_rank_initialised <> (Ok tt, st2))
  /\ exists e, fst (main_loop two_rank_loaded two_rank_initialised) = Err e.
Proof.
  assert (Hrun : initialise (Some two_rank_params) (Some two_rank_obstacles) 2 null_state
                 = (Ok two_rank_loaded, two_rank_initialised))
    by (vm_compute; reflexivity).
  assert (Hnx : 0 < nx two_rank_loaded) by reflexivity.
  assert (Hny : 0 < ny two_rank_loaded) by reflexivity.
  destruct (first_propagate_reads_unwritten_row (Some two_rank_params)
              (Some two_rank_obstacles) 2 null_state two_rank_initialised
              two_rank_loaded Hrun Hnx Hny)
    as (Hrow & Hprop & _ & Hts & Hmain).
  split; [exact Hrun|]. split; [exact Hnx|]. split; [exact Hny|].
  split.
  { apply (Hrow 0 2); [split; [discriminate | reflexivity]
                      |split; [discriminate | reflexivity]]. }
  split; [exact Hprop|]. split; [exact Hts|].
  apply Hmain. reflexivity.
Defined.

(** C10.  On a grid whose obstacle mask is readable: if every cell is an
    obstacle, the loops of [av_velocity] leave [tot_u = 0] and
    [tot_cells = 0], the quotient of [av_velocity] has a zero divisor, and
    so has the Reynolds number; a main loop of at least one iteration then
    stops on an error without recording an average.  The count [tot_cells]
    is positive exactly when some cell is not an obstacle, and
    [av_velocity] returns a value only in that case; it does return one
    when, in addition, the primary grid has been written and no fluid cell
    has density zero. *)
Theorem av_velocity_needs_a_fluid_cell (p : t_param) (s : state) :
  0 <= nx p -> 0 <= ny p ->
  written_upto (obstacles s) (nx p * ny p) = true ->
  ((forall idx, 0 <= idx < nx p * ny p -> load (obstacles s) idx <> Ok 0) ->
     av_velocity_sums p s = (Ok (0%R, 0), s)
     /\ fst (av_velocity p s) = Err DivByZero
     /\ fst (calc_reynolds p s) = Err DivByZero
     /\ (0 < maxIters p ->
           (exists e, fst (main_loop p s) = Err e)
           /\ av_vels (snd (main_loop p s)) = av_vels s))
  /\ (forall tot_u tot_cells s',
        av_velocity_sums p s = (Ok (tot_u, tot_cells), s') ->
        0 <= tot_cells
        /\ (0 < tot_cells <->
            exists idx, 0 <= idx < nx p * ny p /\ load (obstacles s) idx = Ok 0))
  /\ (forall v s', av_velocity p s = (Ok v, s') ->
        exists idx, 0 <= idx < nx p * ny p /\ load (obstacles s) idx = Ok 0)
  /\ (written_upto (cells s) (nx p * ny p * NSPEEDS) = true ->
      (forall idx, 0 <= idx < nx p * ny p -> is_fluid (obstacles s) idx ->
         cell_sum (cells s) idx <> 0%R) ->
      (exists idx, 0 <= idx < nx p * ny p /\ load (obstacles s) idx = Ok 0) ->
      exists v s', av_velocity p s = (Ok v, s')).
Proof.
  intros Hnx Hny Hw. split; [|split; [|split]].
  - intros Hall. split; [|split; [|split]].
    + now apply av_velocity_sums_all_obstacles.
    + now apply av_velocity_all_obstacles.
    + now apply calc_reynolds_all_obstacles.
    + intros Hit. now apply main_loop_all_obstacles.
  - intros tot_u tot_cells s' Hrun.
    now destruct (av_velocity_sums_count p s s' tot_u tot_cells Hnx Hny Hrun) as (_ & H1 & H2).
  - intros v s' Hrun. now apply (av_velocity_ok_fluid p s s' v).
  - intros Hwc Hrho Hfl.
    destruct (av_velocity_run p s Hnx Hny Hw Hwc Hrho Hfl) as [v Hv]. eauto.
Qed.

Lemma square_primary_density (idx : Z) :
  0 <= idx < nx square_params * ny square_params ->
  is_fluid (obstacles square_state) idx ->
  cell_sum (cells square_state) idx <> 0%R.
Proof.
  intros Hidx _. unfold square_params in Hidx. cbn [nx ny] in Hidx.
  assert (Hc : idx = 0 \/ idx = 1 \/ idx = 2 \/ idx = 3) by lia.
  destruct Hc as [->|[->|[->| ->]]]; eval_reals; lra.
Qed.

Lemma blocked_everywhere (idx : Z) :
  0 <= idx < nx square_params * ny square_params ->
  load (obstacles blocked_state) idx <> Ok 0.
Proof.
  intros Hidx. unfold square_params in Hidx. cbn [nx ny] in Hidx.
  assert (Hc : idx = 0 \/ idx = 1 \/ idx = 2 \/ idx = 3) by lia.
  destruct Hc as [->|[->|[->| ->]]]; vm_compute; discriminate.
Qed.

Lemma av_velocity_needs_a_fluid_cell_witness :
  (0 <= nx square_params /\ 0 <= ny square_params
   /\ written_upto (obstacles blocked_state) (nx square_params * ny square_params) = true
   /\ written_upto (obstacles square_state) (nx square_params * ny square_params) = true)
  /\ av_velocity_sums square_params blocked_state = (Ok (0%R, 0), blocked_state)
  /\ fst (av_velocity square_params blocked_state) = Err DivByZero
  /\ fst (calc_reynolds square_params blocked_state) = Err DivByZero
  /\ (exists e, fst (main_loop square_params blocked_state) = Err e)
  /\ exists v s', av_velocity square_params square_state = (Ok v, s').
Proof.
  assert (H : 0 <= nx square_params /\ 0 <= ny square_params
   /\ written_upto (obstacles blocked_state) (nx square_params * ny square_params) = true
   /\ written_upto (obstacles square_state) (nx square_params * ny square_params) = true).
  { repeat split; try reflexivity; vm_compute; discriminate. }
  split; [exact H|].
  destruct H as (H1 & H2 & H3 & H4).
  destruct (av_velocity_needs_a_fluid_cell square_params blocked_state H1 H2 H3)
    as (Hall & _).
  destruct (Hall blocked_everywhere) as (B1 & B2 & B3 & B4).
  destruct (av_velocity_needs_a_fluid_cell square_params square_state H1 H2 H4)
    as (_ & _ & _ & Hrun).
  split; [exact B1|]. split; [exact B2|]. split; [exact B3|].
  split; [apply B4; reflexivity|].
  apply Hrun.
  - reflexivity.
  - exact square_primary_density.
  - exists 0. split; [vm_compute; split; [discriminate | reflexivity] | reflexivity].
Defined.

(** * Further properties of the program *)

(** X1.  The neighbour ranks computed in [main] arrange the processes in a
    ring: for a rank among [size] processes, the rank above and the rank
    below are ranks of the job, the rank below the rank above is the rank
    itself, and so is the rank above the rank below. *)
Theorem neighbour_ranks_form_a_ring (rank size : Z) :
  0 <= rank < size ->
  0 <= rank_up rank size < size
  /\ 0 <= rank_dn rank size < size
  /\ rank_dn (rank_up rank size) size = rank
  /\ rank_up (rank_dn rank size) size = rank.
Proof.
  intros Hr.
  assert (Hdn : forall r, 0 <= r < size ->
            rank_dn r size = if r + 1 =? size then 0 else r + 1).
  { intros r Hr'. unfold rank_dn. rewrite Z.rem_mod_nonneg by lia.
    destruct (Z.eqb_spec (r + 1) size) as [->|Hne].
    - apply Z.mod_same; lia.
    - apply Z.mod_small; lia. }
  assert (Hup : 0 <= rank_up rank size < size).
  { unfold rank_up, MASTER. destruct (Z.eqb_spec rank 0); lia. }
  rewrite (Hdn _ Hup), (Hdn _ Hr).
  unfold rank_up, MASTER in *.
  destruct (Z.eqb_spec rank 0), (Z.eqb_spec (rank + 1) size);
    repeat match goal with
           | |- context [?a =? ?b] => destruct (Z.eqb_spec a b)
           end; lia.
Qed.

Lemma neighbour_ranks_form_a_ring_witness :
  0 <= 0 < 3
  /\ rank_up 0 3 = 2 /\ rank_dn 0 3 = 1
  /\ rank_dn (rank_up 0 3) 3 = 0 /\ rank_up (rank_dn 0 3) 3 = 0.
Proof.
  assert (H : 0 <= 0 < 3) by lia.
  split; [exact H|].
  destruct (neighbour_ranks_form_a_ring 0 3 H) as (_ & _ & H1 & H2).
  split; [reflexivity|]. split; [reflexivity|]. split; [exact H1 | exact H2].
Defined.





(** X4.  After [initialise] the global obstacle mask holds, for every cell
    of the [nx] by [ny] grid, 1 when a line of the obstacle file names the
    cell and 0 otherwise. *)
Theorem initialise_marks_listed_cells (paramfile : option param_file)
    (lines : list obstacle_line) (size : Z) (s st : state) (p : t_param) :
  1 <= size ->
  initialise paramfile (Some lines) size s = (Ok p, st) ->
  forall x y, 0 <= x < nx p -> 0 <= y < ny p ->
    load (obstacles_total st) (x + y * nx p) = Ok (if listedb lines x y then 1 else 0).
Proof.
  intros Hsize Hrun.
  pose proof (initialise_outcome paramfile (Some lines) size s Hsize) as H.
  rewrite Hrun in H. cbn zeta in H.
  destruct H as (_ & _ & _ & _ & _ & _ & lines' & [= <-] & _ & Hc & _).
  exact Hc.
Qed.

Lemma initialise_marks_listed_cells_witness :
  load (obstacles_total two_rank_initialised) (0 + 0 * 1) = Ok 0
  /\ load (obstacles_total two_rank_initialised) (0 + 1 * 1) = Ok 1.
Proof.
  assert (Hrun : initialise (Some two_rank_params) (Some two_rank_obstacles) 2 null_state
                 = (Ok two_rank_loaded, two_rank_initialised))
    by (vm_compute; reflexivity).
  pose proof (initialise_marks_listed_cells (Some two_rank_params) two_rank_obstacles 2
                null_state two_rank_initialised two_rank_loaded ltac:(lia) Hrun) as H.
  split.
  - apply (H 0 0); cbn; lia.
  - apply (H 0 1); cbn; lia.
Defined.

(** X5.  [initialise] fills the local obstacle mask without looking at the
    rank: on every process it has [local_ny] rows, and its row [y] is row
    [y] of the global mask, that is 1 where the obstacle file names the cell
    [(x, y)] and 0 elsewhere, for [y] below [local_ny = ny / size]. *)
Theorem local_mask_is_rows_from_zero (paramfile : option param_file)
    (lines : list obstacle_line) (size : Z) (s st : state) (p : t_param) :
  1 <= size ->
  initialise paramfile (Some lines) size s = (Ok p, st) ->
  let local_ny := Z.quot (ny p) size in
  Z.of_nat (length (obstacles st)) = local_ny * nx p
  /\ forall x y, 0 <= x < nx p -> 0 <= y < local_ny ->
       load (obstacles st) (x + y * nx p) = Ok (if listedb lines x y then 1 else 0).
Proof.
  intros Hsize Hrun local_ny.
  pose proof (initialise_outcome paramfile (Some lines) size s Hsize) as H.
  rewrite Hrun in H. cbn zeta in H. fold local_ny in H.
  destruct H as (_ & Hok & _ & _ & _ & Hlo & lines' & [= <-] & _ & Hct & Hco).
  unfold sizes_ok in Hok. split; [rewrite Hlo; lia|].
  intros x y Hx Hy. rewrite (Hco x y Hx Hy). apply Hct; [exact Hx|].
  assert (Hny : 0 <= ny p) by nia.
  pose proof (local_rows_bounds (ny p) size Hsize Hny). fold local_ny in H. lia.
Qed.

Lemma local_mask_is_rows_from_zero_witness :
  Z.of_nat (length (obstacles two_rank_initialised)) = 1
  /\ load (obstacles two_rank_initialised) (0 + 0 * 1) = Ok 0.
Proof.
  assert (Hrun : initialise (Some two_rank_params) (Some two_rank_obstacles) 2 null_state
                 = (Ok two_rank_loaded, two_rank_initialised))
    by (vm_compute; reflexivity).
  destruct (local_mask_is_rows_from_zero (Some two_rank_params) two_rank_obstacles 2
              null_state two_rank_initialised two_rank_loaded ltac:(lia) Hrun)
    as [Hlen Hc].
  split; [exact Hlen|].
  apply (Hc 0 0); (split; [discriminate | reflexivity]).
Defined.

(** X6.  With the rows split among two or more processes, the first time
    step reads the local obstacle mask out of bounds: [initialise] gives the
    mask [local_ny = ny / size] rows, and [accelerate_flow] starts by
    reading it at row [ny - 2].  So on a grid of at least three rows and one
    column neither [accelerate_flow], nor [timestep], nor the main loop gets
    past that read. *)
Theorem first_timestep_overruns_local_mask (paramfile : option param_file)
    (obstaclefile : option (list obstacle_line)) (size : Z) (s st : state) (p : t_param) :
  2 <= size ->
  initialise paramfile obstaclefile size s = (Ok p, st) ->
  0 < nx p -> 3 <= ny p ->
  load (obstacles st) (0 + (ny p - 2) * nx p) = Err OutOfBounds
  /\ fst (accelerate_flow p st) = Err OutOfBounds
  /\ fst (timestep p st) = Err OutOfBounds
  /\ (0 < maxIters p -> fst (main_loop p st) = Err OutOfBounds).
Proof.
  intros Hsize Hrun Hnx Hny.
  pose proof (initialise_outcome paramfile obstaclefile size s ltac:(lia)) as H.
  rewrite Hrun in H. cbn zeta in H.
  destruct H as (_ & Hok & _ & _ & _ & Hlo & _).
  assert (Hq : Z.quot (ny p) size < ny p - 1)
    by (apply Z.quot_lt_upper_bound; nia).
  assert (Hload : load (obstacles st) (0 + (ny p - 2) * nx p) = Err OutOfBounds).
  { apply load_beyond. rewrite Hlo. unfold sizes_ok in Hok. nia. }
  assert (Hacc : fst (accelerate_flow p st) = Err OutOfBounds).
  { unfold accelerate_flow. rewrite emit_then. cbn zeta.
    apply for_range_first_fails; [exact Hnx|].
    unfold accelerate_cell, bind, rd_obstacles. cbn [obstacles set_trace].
    now rewrite Hload. }
  assert (Hts : fst (timestep p st) = Err OutOfBounds).
  { unfold timestep. unfold bind at 1.
    destruct (accelerate_flow p st) as [[[]|e] s1]; cbn [fst] in *;
      [discriminate | exact Hacc]. }
  split; [exact Hload|]. split; [exact Hacc|]. split; [exact Hts|].
  intros Hit. unfold main_loop. apply for_range_first_fails; [exact Hit|].
  unfold bind at 1. destruct (timestep p st) as [[[]|e] s1]; cbn [fst] in *;
    [discriminate | exact Hts].
Qed.

Lemma first_timestep_overruns_local_mask_witness :
  initialise (Some three_row_params) (Some []) 2 null_state
  = (Ok three_row_loaded, three_row_initialised)
  /\ load (obstacles three_row_initialised) (0 + (3 - 2) * 1) = Err OutOfBounds
  /\ fst (timestep three_row_loaded three_row_initialised) = Err OutOfBounds
  /\ fst (main_loop three_row_loaded three_row_initialised) = Err OutOfBounds.
Proof.
  assert (Hrun : initialise (Some three_row_params) (Some []) 2 null_state
                 = (Ok three_row_loaded, three_row_initialised))
    by (vm_compute; reflexivity).
  destruct (first_timestep_overruns_local_mask (Some three_row_params) (Some []) 2
              null_state three_row_initialised three_row_loaded)
    as (Hload & _ & Hts & Hmain); [lia | exact Hrun | reflexivity | cbn; lia |].
  split; [exact Hrun|]. split; [exact Hload|]. split; [exact Hts|].
  apply Hmain. reflexivity.
Defined.

(** X7.  [accelerate_flow] pushes a cell of row [ny - 2] exactly when the
    cell is free and its populations of speeds 3, 6 and 7 stay positive
    after the amounts [density * accel / 9] and [density * accel / 36] are
    taken off.  The momentum along x of such a cell grows by
    [density * accel / 3]; the momentum of every other cell of the row, and
    the momentum along y of every cell of the row, are unchanged. *)
Theorem accelerate_flow_adds_momentum (p : t_param) (s : state) :
  0 <= nx p -> 2 <= ny p ->
  written_upto (obstacles s) (nx p * ny p) = true ->
  written_upto (cells s) (nx p * ny p * NSPEEDS) = true ->
  exists s',
    accelerate_flow p s = (Ok tt, s')
    /\ forall i, 0 <= i < nx p ->
       let idx := i + (ny p - 2) * nx p in
       momentum_x (cells s') idx
       = (momentum_x (cells s) idx
          + if pushes (density p * accel p / 9) (density p * accel p / 36)
                 (obstacles s) (cells s) idx
            then density p * accel p / 3 else 0)%R
       /\ momentum_y (cells s') idx = momentum_y (cells s) idx.
Proof.
  intros Hnx Hny Hwo Hwc.
  destruct (accelerate_flow_exact p s Hnx Hny Hwo Hwc)
    as (s' & Hrun & _ & _ & _ & _ & Hrow).
  exists s'. split; [exact Hrun|]. intros i Hi idx.
  assert (Hv : forall k, 0 <= k < NSPEEDS ->
            val (cells s') (at_speed idx k)
            = if pushes (density p * accel p / 9) (density p * accel p / 36)
                   (obstacles s) (cells s) idx
              then pushed (density p * accel p / 9) (density p * accel p / 36) k
                     (val (cells s) (at_speed idx k))
              else val (cells s) (at_speed idx k)).
  { intros k Hk. apply val_ok. apply Hrow; assumption. }
  unfold momentum_x, momentum_y.
  rewrite !Hv by slot_side.
  destruct (pushes _ _ _ _ idx); cbn [pushed]; split; lra.
Qed.

Lemma accelerate_flow_adds_momentum_witness :
  exists s',
    accelerate_flow square_params square_state = (Ok tt, s')
    /\ momentum_x (cells s') (0 + (2 - 2) * 2) = (1 / 10 * (5 / 1000) / 3)%R
    /\ momentum_x (cells s') (1 + (2 - 2) * 2) = 0%R.
Proof.
  destruct (accelerate_flow_adds_momentum square_params square_state)
    as (s' & Hrun & Hrow);
    [cbn; lia | cbn; lia | reflexivity | reflexivity |].
  exists s'. split; [exact Hrun|]. split.
  - destruct (Hrow 0) as [Hx _]; [cbn; lia|].
    cbn zeta in Hx. etransitivity; [exact Hx|].
    unfold pushes. eval_reals.
    repeat match goal with
           | |- context [Rgt_dec ?a ?b] =>
               destruct (Rgt_dec a b) as [_|Hn]; [|exfalso; apply Hn; lra]
           end.
    lra.
  - destruct (Hrow 1) as [Hx _]; [cbn; lia|].
    cbn zeta in Hx. etransitivity; [exact Hx|].
    eval_reals. lra.
Defined.

(** X8.  [accelerate_flow] keeps the populations positive: on a grid whose
    populations are all positive, with [density * accel] not negative, it
    returns and every population of the grid is still positive. *)
Theorem accelerate_flow_keeps_positive (p : t_param) (s : state) :
  0 <= nx p -> 2 <= ny p ->
  written_upto (obstacles s) (nx p * ny p) = true ->
  positive_upto (cells s) (nx p * ny p * NSPEEDS) ->
  (0 <= density p * accel p)%R ->
  exists s',
    accelerate_flow p s = (Ok tt, s')
    /\ positive_upto (cells s') (nx p * ny p * NSPEEDS).
Proof.
  intros Hnx Hny Hwo Hpos Ha.
  destruct (accelerate_flow_exact p s Hnx Hny Hwo (positive_written _ _ Hpos))
    as (s' & Hrun & _ & _ & _ & Hout & Hrow).
  exists s'. split; [exact Hrun|]. intros m Hm.
  destruct (Z.lt_ge_cases m ((ny p - 2) * nx p * NSPEEDS)) as [Hlo|Hlo];
    [rewrite Hout by (left; exact Hlo); now apply Hpos|].
  destruct (Z.le_gt_cases ((ny p - 2 + 1) * nx p * NSPEEDS) m) as [Hhi|Hhi];
    [rewrite Hout by (right; exact Hhi); now apply Hpos|].
  set (idx := m / NSPEEDS). set (k := m mod NSPEEDS).
  assert (Hmk : m = at_speed idx k).
  { unfold at_speed, idx, k. rewrite (Z.div_mod m NSPEEDS) at 1 by discriminate. lia. }
  assert (Hk : 0 <= k < NSPEEDS) by (apply Z.mod_pos_bound; reflexivity).
  assert (Hidx : (ny p - 2) * nx p <= idx < (ny p - 2 + 1) * nx p).
  { unfold idx, NSPEEDS in *. split.
    - apply Z.div_le_lower_bound; lia.
    - apply Z.div_lt_upper_bound; lia. }
  set (i := idx - (ny p - 2) * nx p).
  assert (Hi : 0 <= i < nx p) by (unfold i; lia).
  replace idx with (i + (ny p - 2) * nx p) in Hmk by (unfold i; lia).
  rewrite Hmk, (Hrow i k Hi Hk). eexists. split; [reflexivity|].
  assert (Hc : forall k', 0 <= k' < NSPEEDS ->
            (0 < val (cells s) (at_speed (i + (ny p - 2) * nx p) k'))%R).
  { intros k' Hk'. apply (positive_val _ _ _ Hpos).
    apply at_speed_bound; [nia | exact Hk']. }
  unfold pushes.
  destruct (fluidb _ _); cbn [andb]; [|now apply Hc].
  destruct (Rgt_dec _ _) as [H3|]; cbn [andb]; [|now apply Hc].
  destruct (Rgt_dec _ _) as [H6|]; cbn [andb]; [|now apply Hc].
  destruct (Rgt_dec _ _) as [H7|]; cbn [andb]; [|now apply Hc].
  pose proof (Hc k Hk) as Hv.
  destruct (nine_cases k Hk) as [->|[->|[->|[->|[->|[->|[->|[->| ->]]]]]]]];
    cbn [pushed]; lra.
Qed.

Lemma accelerate_flow_keeps_positive_witness :
  exists s',
    accelerate_flow square_params square_state = (Ok tt, s')
    /\ positive_upto (cells s') 36.
Proof.
  apply (accelerate_flow_keeps_positive square_params square_state);
    [cbn; lia | cbn; lia | reflexivity | exact square_cells_positive
    | eval_reals; lra].
Defined.

(** X9.  [collision] conserves the momentum of every fluid cell: after it,
    the momentum along x and along y of a free cell of the primary grid is
    that of the same cell of the scratch grid, whatever the relaxation
    rate. *)
Theorem collision_conserves_momentum (p : t_param) (s : state) :
  0 <= nx p -> 0 <= ny p ->
  written_upto (obstacles s) (nx p * ny p) = true ->
  written_upto (tmp_cells s) (nx p * ny p * NSPEEDS) = true ->
  nx p * ny p * NSPEEDS <= Z.of_nat (length (cells s)) ->
  (forall idx, 0 <= idx < nx p * ny p -> is_fluid (obstacles s) idx ->
     cell_sum (tmp_cells s) idx <> 0%R) ->
  exists s',
    collision p s = (Ok tt, s')
    /\ forall idx, 0 <= idx < nx p * ny p -> is_fluid (obstacles s) idx ->
         momentum_x (cells s') idx = momentum_x (tmp_cells s) idx
         /\ momentum_y (cells s') idx = momentum_y (tmp_cells s) idx.
Proof.
  intros Hnx Hny Hwo Hwt Hlen Hrho.
  destruct (collision_values p s Hnx Hny Hwo Hwt Hlen Hrho)
    as (s' & Hrun & _ & _ & _ & _ & Hval).
  exists s'. split; [exact Hrun|]. intros idx Hidx Hfl.
  assert (Hv : forall k, 0 <= k < NSPEEDS ->
            val (cells s') (at_speed idx k) = collided (omega p) (tmp_cells s) idx k).
  { intros k Hk. apply val_ok. rewrite (Hval idx Hidx k Hk).
    now rewrite (proj2 (fluidb_true _ _) Hfl). }
  specialize (Hrho idx Hidx Hfl).
  unfold momentum_x at 1, momentum_y at 1. rewrite !Hv by slot_side.
  unfold collided, relaxed.
  set (rho := cell_sum (tmp_cells s) idx) in *.
  unfold momentum_x, momentum_y.
  unfold d_equ, u_dir, c_sq, w1, w2. split; field; exact Hrho.
Qed.

Lemma collision_conserves_momentum_witness :
  exists s',
    collision square_params square_state = (Ok tt, s')
    /\ momentum_x (cells s') 0 = momentum_x (tmp_cells square_state) 0
    /\ momentum_y (cells s') 0 = momentum_y (tmp_cells square_state) 0.
Proof.
  destruct (collision_conserves_momentum square_params square_state)
    as (s' & Hrun & Hm);
    [cbn; lia | cbn; lia | reflexivity | reflexivity | vm_compute; discriminate | |].
  - intros idx Hidx _. apply Rgt_not_eq.
    apply (positive_cell_sum _ (nx square_params * ny square_params));
      [exact square_scratch_positive | exact Hidx].
  - exists s'. split; [exact Hrun|]. apply (Hm 0); [cbn; lia | reflexivity].
Defined.

(** X10.  A time step conserves the total density.  On a grid of at least
    two rows whose populations are all positive, with [density * accel] not
    negative, [timestep] completes (no division by zero, no access out of
    range), and [total_density] returns the same sum after it as before it:
    what [accelerate_flow] moves, what [propagate] carries across the
    periodic boundaries, what [rebound] reflects and what [collision]
    relaxes all stay in the grid. *)
Theorem timestep_conserves_total_density (p : t_param) (s : state) :
  0 <= nx p -> 2 <= ny p ->
  written_upto (obstacles s) (nx p * ny p) = true ->
  positive_upto (cells s) (nx p * ny p * NSPEEDS) ->
  nx p * ny p * NSPEEDS <= Z.of_nat (length (tmp_cells s)) ->
  (0 <= density p * accel p)%R ->
  exists s' m,
    timestep p s = (Ok tt, s')
    /\ total_density p s = (Ok m, s)
    /\ total_density p s' = (Ok m, s').
Proof.
  intros Hnx Hny Hwo Hpos Hlt Ha.
  destruct (timestep_mass p s Hnx Hny Hwo Hpos Hlt Ha)
    as (s' & Hrun & _ & _ & _ & Hw' & Hm).
  exists s', (total_mass p (cells s)). split; [exact Hrun|]. split.
  - apply total_density_run; [exact Hnx | lia | now apply positive_written].
  - rewrite <- Hm. apply total_density_run; [exact Hnx | lia | exact Hw'].
Qed.

Lemma timestep_conserves_total_density_witness :
  exists s' m,
    timestep square_params square_state = (Ok tt, s')
    /\ total_density square_params square_state = (Ok m, square_state)
    /\ total_density square_params s' = (Ok m, s').
Proof.
  apply (timestep_conserves_total_density square_params square_state);
    [cbn; lia | cbn; lia | reflexivity | exact square_cells_positive
    | vm_compute; discriminate | eval_reals; lra].
Defined.

(** X11.  [total_density] returns the sum of the nine populations of every
    cell of the [nx] by [ny] grid, and leaves the state as it is, whenever
    those populations have all been written. *)
Theorem total_density_adds_all_populations (p : t_param) (s : state) :
  0 <= nx p -> 0 <= ny p ->
  written_upto (cells s) (nx p * ny p * NSPEEDS) = true ->
  total_density p s = (Ok (total_mass p (cells s)), s).
Proof. exact (total_density_run p s). Qed.

Lemma total_density_adds_all_populations_witness :
  total_density square_params square_state = (Ok 36%R, square_state).
Proof.
  rewrite (total_density_adds_all_populations square_params square_state);
    [|cbn; lia|cbn; lia|reflexivity].
  apply (f_equal (fun v : R => (Ok v, square_state))). eval_reals. lra.
Defined.

(** X12.  A fluid at rest is a fixed point of the time step when there is
    no acceleration: if every cell of the grid holds the populations
    [4/9 d], [d/9] and [d/36] of a density [d] other than 0, obstacles
    included, and [accel] is 0, then [timestep] completes and every cell
    holds the same populations again, whatever the relaxation rate. *)
Theorem rest_is_a_fixed_point_of_timestep (p : t_param) (d : R) (s : state) :
  0 <= nx p -> 2 <= ny p ->
  written_upto (obstacles s) (nx p * ny p) = true ->
  at_rest p d (cells s) ->
  nx p * ny p * NSPEEDS <= Z.of_nat (length (tmp_cells s)) ->
  accel p = 0%R -> d <> 0%R ->
  exists s',
    timestep p s = (Ok tt, s')
    /\ at_rest p d (cells s').
Proof.
  intros Hnx Hny Hwo Hr Hlt Hacc Hd.
  destruct (timestep_rest p d s Hnx Hny Hwo Hr Hlt Hacc Hd) as (s' & Hrun & Hr' & _).
  exists s'. split; [exact Hrun | exact Hr'].
Qed.

Lemma rest_is_a_fixed_point_of_timestep_witness :
  exists s',
    timestep still_params still_state = (Ok tt, s')
    /\ load (cells s') (at_speed 3 0) = Ok (1 / 10 * 4 / 9)%R
    /\ load (cells s') (at_speed 1 5) = Ok (1 / 10 / 36)%R.
Proof.
  destruct (rest_is_a_fixed_point_of_timestep still_params (1 / 10) still_state)
    as (s' & Hrun & Hr);
    [cbn; lia | cbn; lia | reflexivity | exact still_state_at_rest
    | vm_compute; discriminate | reflexivity | lra |].
  exists s'. split; [exact Hrun|]. split.
  - apply (Hr 3 0); [cbn; lia | unfold NSPEEDS; lia].
  - apply (Hr 1 5); [cbn; lia | unfold NSPEEDS; lia].
Defined.



(** X14.  The average velocity is never negative, and computing it changes
    nothing: when [av_velocity] returns, its result is at least 0 and the
    grids, the masks and the recorded averages are as before. *)
Theorem av_velocity_is_not_negative (p : t_param) (s s' : state) (v : R) :
  av_velocity p s = (Ok v, s') ->
  (0 <= v)%R
  /\ cells s' = cells s /\ tmp_cells s' = tmp_cells s
  /\ obstacles s' = obstacles s /\ av_vels s' = av_vels s.
Proof.
  intros Hrun. apply av_velocity_inv in Hrun. destruct Hrun as [-> Hv].
  repeat split; auto.
Qed.

Lemma av_velocity_is_not_negative_witness :
  exists v s',
    av_velocity square_params square_state = (Ok v, s') /\ (0 <= v)%R.
Proof.
  destruct (av_velocity_run square_params square_state) as [v Hrun];
    [cbn; lia | cbn; lia | reflexivity | reflexivity | | |].
  - intros idx Hidx _. apply Rgt_not_eq.
    apply (positive_cell_sum _ (nx square_params * ny square_params));
      [exact square_cells_positive | exact Hidx].
  - exists 0. split; [cbn; lia | reflexivity].
  - exists v, (set_trace (trace square_state ++ [EvAvVelocity]) square_state).
    split; [exact Hrun|].
    exact (proj1 (av_velocity_is_not_negative square_params square_state _ v Hrun)).
Defined.


(** X16.  After a completed main loop the file of average velocities can
    be written: [write_av_vels] returns [maxIters] lines, line [tt] holding
    the number [tt] and the average velocity recorded in iteration [tt],
    which is not negative. *)
Theorem completed_loop_fills_av_vels (p : t_param) (s s' : state) :
  main_loop p s = (Ok tt, s') ->
  exists avs,
    write_av_vels p s' = (Ok avs, s')
    /\ length avs = Z.to_nat (maxIters p)
    /\ forall tt, 0 <= tt < maxIters p ->
         exists v, avs !! Z.to_nat tt = Some (tt, v)
                   /\ load (av_vels s') tt = Ok v /\ (0 <= v)%R.
Proof.
  intros Hrun. apply main_loop_records in Hrun. destruct Hrun as [_ Hrec].
  destruct (write_av_vels_run p s') as (avs & Hw & Hlen & Hlines).
  { intros tt Htt. destruct (Hrec tt Htt) as (v & Hv & _). eauto. }
  exists avs. split; [exact Hw|]. split; [exact Hlen|].
  intros tt Htt. destruct (Hlines tt Htt) as (v & Hv & Hl).
  exists v. split; [exact Hl|]. split; [exact Hv|].
  destruct (Hrec tt Htt) as (v' & Hv' & Hpos). rewrite Hv in Hv'.
  now injection Hv' as ->.
Qed.

Lemma completed_loop_fills_av_vels_witness :
  exists s' avs,
    main_loop still_params still_state = (Ok tt, s')
    /\ write_av_vels still_params s' = (Ok avs, s')
    /\ length avs = 2%nat.
Proof.
  destruct (main_loop_rest still_params (1 / 10) still_state)
    as (s' & Hrun & _);
    [cbn; lia | cbn; lia | reflexivity | exact still_state_at_rest
    | vm_compute; discriminate | reflexivity | lra
    | exists 0; split; [cbn; lia | reflexivity] | cbn; lia |].
  destruct (completed_loop_fills_av_vels still_params still_state s' Hrun)
    as (avs & Hw & Hlen & _).
  exists s', avs. split; [exact Hrun|]. split; [exact Hw | exact Hlen].
Defined.

(** X17.  On a grid with more columns than rows [write_values] reads the
    obstacle mask out of bounds.  The flag it prints for cell [(ii, jj)] is
    the mask entry [ii * nx + jj]; for [ii = ny], [jj = 0] that is entry
    [ny * nx], one past the end of a mask of [nx * ny] entries.  So with
    [0 < ny < nx] neither [write_final_state] nor [write_values] returns. *)
Theorem wide_grid_overruns_mask_on_output (p : t_param) (s : state) (writable : bool) :
  0 < ny p < nx p ->
  Z.of_nat (length (obstacles s)) <= nx p * ny p ->
  load (obstacles s) (ny p * nx p + 0) = Err OutOfBounds
  /\ (forall out s', write_final_state p s <> (Ok out, s'))
  /\ (forall files s', write_values p writable s <> (Ok files, s')).
Proof.
  intros Hwide Hlen.
  assert (Hload : load (obstacles s) (ny p * nx p + 0) = Err OutOfBounds)
    by (apply load_beyond; lia).
  assert (Hfs : forall out s', write_final_state p s <> (Ok out, s')).
  { intros out s' Hrun.
    destruct (write_final_state_reads p s s' out ltac:(lia) ltac:(lia) Hrun (ny p) 0)
      as [flag Hflag]; [lia | lia |].
    rewrite Hload in Hflag. discriminate. }
  split; [exact Hload|]. split; [exact Hfs|].
  intros files s'. unfold write_values.
  destruct writable; cbn [negb]; [|discriminate].
  unfold bind. destruct (write_final_state p s) as [[out|e] s1]; [|discriminate].
  exfalso. exact (Hfs out s1 eq_refl).
Qed.

Lemma wide_grid_overruns_mask_on_output_witness :
  load (obstacles strip_state) (1 * 2 + 0) = Err OutOfBounds
  /\ forall files s', write_values strip_params true strip_state <> (Ok files, s').
Proof.
  destruct (wide_grid_overruns_mask_on_output strip_params strip_state true)
    as (Hload & _ & Hwv); [cbn; lia | cbn; lia |].
  split; [exact Hload | exact Hwv].
Defined.

(** X18.  The lines of final_state.dat.  On a grid whose mask covers the
    indices read, with every free cell of density other than 0,
    [write_final_state] returns one line per cell, rows first.  The line of
    cell [(i, j)] starts with [i] and [j]; for an obstacle cell it carries
    velocity 0 and the pressure [density * c_sq] of the parameter file, for a
    free cell the velocity components (momentum over local density), their
    norm, and the pressure [local density * c_sq]. *)
Theorem final_state_lines (p : t_param) (s : state) (N : Z) :
  0 <= nx p -> 0 <= ny p ->
  written_upto (obstacles s) N = true ->
  nx p * ny p <= N ->
  (forall i j, 0 <= i < nx p -> 0 <= j < ny p -> i * nx p + j < N) ->
  written_upto (cells s) (nx p * ny p * NSPEEDS) = true ->
  (forall idx, 0 <= idx < nx p * ny p -> is_fluid (obstacles s) idx ->
     cell_sum (cells s) idx <> 0%R) ->
  exists final_state,
    write_final_state p s = (Ok final_state, s)
    /\ Z.of_nat (length final_state) = nx p * ny p
    /\ forall i j, 0 <= i < nx p -> 0 <= j < ny p ->
       exists line,
         final_state !! Z.to_nat (i + j * nx p) = Some line
         /\ l_ii line = i /\ l_jj line = j
         /\ if fluidb (obstacles s) (i + j * nx p)
            then l_u_x line = (momentum_x (cells s) (i + j * nx p)
                               / cell_sum (cells s) (i + j * nx p))%R
                 /\ l_u_y line = (momentum_y (cells s) (i + j * nx p)
                                  / cell_sum (cells s) (i + j * nx p))%R
                 /\ l_u line = sqrt (l_u_x line * l_u_x line + l_u_y line * l_u_y line)
                 /\ l_pressure line = (cell_sum (cells s) (i + j * nx p) * c_sq)%R
            else l_u_x line = 0%R /\ l_u_y line = 0%R /\ l_u line = 0%R
                 /\ l_pressure line = (density p * c_sq)%R.
Proof.
  intros Hnx Hny Hwo HN Htr Hwc Hrho.
  destruct (write_final_state_lines p s N Hnx Hny Hwo HN Htr Hwc Hrho)
    as (final_state & Hrun & Hlen & Hlines).
  exists final_state. split; [exact Hrun|]. split; [exact Hlen|].
  intros i j Hi Hj. destruct (Hlines i j Hi Hj) as (flag & _ & Hl).
  exists (line_of p s i j flag). split; [exact Hl|].
  unfold line_of. cbn zeta.
  destruct (fluidb (obstacles s) (i + j * nx p)); cbn; repeat split; reflexivity.
Qed.

Lemma final_state_lines_witness :
  exists final_state line0 line1,
    write_final_state square_params square_state = (Ok final_state, square_state)
    /\ final_state !! 0%nat = Some line0 /\ l_pressure line0 = (9 * (1 / 3))%R
    /\ final_state !! 1%nat = Some line1 /\ l_pressure line1 = (1 / 10 * (1 / 3))%R.
Proof.
  destruct (final_state_lines square_params square_state 4)
    as (final_state & Hrun & _ & Hlines);
    [cbn; lia | cbn; lia | reflexivity | cbn; lia
    | intros i j Hi Hj; unfold square_params in *; cbn [nx ny] in *; lia
    | reflexivity | |].
  - intros idx Hidx _. apply Rgt_not_eq.
    apply (positive_cell_sum _ (nx square_params * ny square_params));
      [exact square_cells_positive | exact Hidx].
  - destruct (Hlines 0 0) as (line0 & Hl0 & _ & _ & H0); [cbn; lia | cbn; lia |].
    destruct (Hlines 1 0) as (line1 & Hl1 & _ & _ & H1); [cbn; lia | cbn; lia |].
    exists final_state, line0, line1. split; [exact Hrun|].
    split; [exact Hl0|]. split.
    + change (fluidb (obstacles square_state) (0 + 0 * nx square_params)) with true in H0.
      destruct H0 as (_ & _ & _ & ->). eval_reals. lra.
    + split; [exact Hl1|].
      change (fluidb (obstacles square_state) (1 + 0 * nx square_params)) with false in H1.
      destruct H1 as (_ & _ & _ & ->). reflexivity.
Defined.

(** X19.  [rebound] is idempotent: run a second time it completes again
    and leaves every population of the grid as the first run left it. *)
Theorem rebound_is_idempotent (p : t_param) (s : state) :
  0 <= nx p -> 0 <= ny p ->
  written_upto (obstacles s) (nx p * ny p) = true ->
  written_upto (tmp_cells s) (nx p * ny p * NSPEEDS) = true ->
  nx p * ny p * NSPEEDS <= Z.of_nat (length (cells s)) ->
  exists s1 s2,
    rebound p s = (Ok tt, s1)
    /\ rebound p s1 = (Ok tt, s2)
    /\ forall idx k, 0 <= idx < nx p * ny p -> 0 <= k < NSPEEDS ->
         load (cells s2) (at_speed idx k) = load (cells s1) (at_speed idx k).
Proof.
  intros Hnx Hny Hwo Hwt Hlen.
  destruct (rebound_run p s Hnx Hny Hwo Hwt Hlen) as (s1 & R1 & Ht1 & Ho1 & Hl1 & Hreb1).
  destruct (rebound_run p s1 Hnx Hny) as (s2 & R2 & _ & _ & _ & Hreb2).
  { now rewrite Ho1. }
  { now rewrite Ht1. }
  { now rewrite Hl1. }
  exists s1, s2. split; [exact R1|]. split; [exact R2|].
  intros idx k Hidx Hk.
  specialize (Hreb1 idx Hidx). specialize (Hreb2 idx Hidx).
  unfold rebounded in *. rewrite Ho1 in Hreb2.
  destruct (fluidb (obstacles s) idx).
  - now apply Hreb2.
  - destruct Hreb1 as [_ H8]. destruct Hreb2 as [H0' H8'].
    destruct (Z.eq_dec k 0) as [->|Hk0]; [exact H0'|].
    rewrite H8', Ht1, H8 by lia. reflexivity.
Qed.

Lemma rebound_is_idempotent_witness :
  exists s1 s2,
    rebound square_params square_state = (Ok tt, s1)
    /\ rebound square_params s1 = (Ok tt, s2)
    /\ load (cells s2) (at_speed 1 3) = load (cells s1) (at_speed 1 3).
Proof.
  destruct (rebound_is_idempotent square_params square_state)
    as (s1 & s2 & R1 & R2 & Hsame);
    [cbn; lia | cbn; lia | reflexivity | reflexivity | vm_compute; discriminate |].
  exists s1, s2. split; [exact R1|]. split; [exact R2|].
  apply Hsame; [cbn; lia | unfold NSPEEDS; lia].
Defined.

(** X20.  The main loop writes only the first [nx * ny] cells of the two
    grids.  Whatever the outcome of [timestep] or of the whole loop, every
    slot of the primary and of the scratch grid from cell [nx * ny] on is as
    it was before; so of the [local_ny + 2] rows that [initialise] allocates,
    the rows from [ny] on are never written by the loop. *)
Theorem main_loop_writes_only_the_grid (p : t_param) (s : state) (m : Z) :
  nx p * ny p * NSPEEDS <= m ->
  load (cells (snd (timestep p s))) m = load (cells s) m
  /\ load (tmp_cells (snd (timestep p s))) m = load (tmp_cells s) m
  /\ load (cells (snd (main_loop p s))) m = load (cells s) m
  /\ load (tmp_cells (snd (main_loop p s))) m = load (tmp_cells s) m.
Proof.
  intros Hm.
  assert (H0 : same_beyond (nx p * ny p * NSPEEDS) (cells s) (tmp_cells s) s)
    by (intros m' _; split; reflexivity).
  destruct (timestep_keeps_beyond p (cells s) (tmp_cells s) s H0 m Hm) as [H1 H2].
  destruct (main_loop_keeps_beyond p (cells s) (tmp_cells s) s H0 m Hm) as [H3 H4].
  auto.
Qed.

Lemma main_loop_writes_only_the_grid_witness :
  load (cells (snd (main_loop two_rank_loaded two_rank_initialised))) 18
  = Err Uninitialised.
Proof.
  destruct (main_loop_writes_only_the_grid two_rank_loaded two_rank_initialised 18)
    as (_ & _ & H & _); [vm_compute; discriminate|].
  rewrite H. reflexivity.
Defined.



(** X22.  [rebound] reflects the populations at the obstacles.  For every
    obstacle cell of the grid, each of the speeds 1 to 8 of the primary grid
    receives the population of the opposite speed of the same cell of the
    scratch grid (1 and 3, 2 and 4, 5 and 7, 6 and 8 exchanged); speed 0 of
    the cell is not written, and the scratch grid and the mask are not
    changed. *)
Theorem rebound_reflects_at_obstacles (p : t_param) (s : state) :
  0 <= nx p -> 0 <= ny p ->
  written_upto (obstacles s) (nx p * ny p) = true ->
  written_upto (tmp_cells s) (nx p * ny p * NSPEEDS) = true ->
  nx p * ny p * NSPEEDS <= Z.of_nat (length (cells s)) ->
  exists s',
    rebound p s = (Ok tt, s')
    /\ tmp_cells s' = tmp_cells s /\ obstacles s' = obstacles s
    /\ forall idx o, 0 <= idx < nx p * ny p ->
         load (obstacles s) idx = Ok o -> o <> 0 ->
         let to k := load (cells s') (at_speed idx k) in
         let from k := load (tmp_cells s) (at_speed idx k) in
         to 1 = from 3 /\ to 2 = from 4 /\ to 3 = from 1 /\ to 4 = from 2
         /\ to 5 = from 7 /\ to 6 = from 8 /\ to 7 = from 5 /\ to 8 = from 6
         /\ to 0 = load (cells s) (at_speed idx 0).
Proof.
  intros Hnx Hny Hwo Hwt Hlen.
  destruct (rebound_run p s Hnx Hny Hwo Hwt Hlen) as (s' & Hrun & Ht & Ho & _ & Hreb).
  exists s'. split; [exact Hrun|]. split; [exact Ht|]. split; [exact Ho|].
  intros idx o Hidx Hload Hne. specialize (Hreb idx Hidx). unfold rebounded in Hreb.
  rewrite (fluidb_false _ _ o Hload Hne) in Hreb. destruct Hreb as [H0 H8].
  cbn zeta.
  repeat split;
    first [ exact H0 | apply (H8 1) | apply (H8 2) | apply (H8 3) | apply (H8 4)
          | apply (H8 5) | apply (H8 6) | apply (H8 7) | apply (H8 8) ];
    unfold NSPEEDS; lia.
Qed.

Lemma rebound_reflects_at_obstacles_witness :
  exists s',
    rebound strip_params (set_tmp_cells
                            (replicate 9 (Some 2%R) ++ replicate 9 (Some 3%R)) strip_state)
    = (Ok tt, s')
    /\ load (cells s') (at_speed 0 1) = Ok 2%R
    /\ load (cells s') (at_speed 0 0) = Ok 1%R.
Proof.
  destruct (rebound_reflects_at_obstacles strip_params
              (set_tmp_cells (replicate 9 (Some 2%R) ++ replicate 9 (Some 3%R))
                 strip_state))
    as (s' & Hrun & _ & _ & Hcell);
    [cbn; lia | cbn; lia | reflexivity | reflexivity | vm_compute; discriminate |].
  exists s'. split; [exact Hrun|].
  destruct (Hcell 0 1) as (H1 & _ & _ & _ & _ & _ & _ & _ & H0);
    [cbn; lia | reflexivity | discriminate |].
  cbn zeta in H1, H0. split; [rewrite H1 | rewrite H0]; reflexivity.
Defined.
